(** * useDontLeave: a model of the exit-intent hook and its lifecycle

    The development embeds [src/useDontLeave.js]: the three event handlers
    ([handleVisibilityChange], [handleMouseMove], [handleScroll]), the body
    of the [useEffect] callback and its cleanup, and the part of the host
    (document, window, session storage, timers, listener registry, React
    state cells) that these functions read and write.

    Conventions.
    - A finite JavaScript number is the rational it denotes; [num] adds [NaN]
      and the two infinities. Comparisons are exact. The quotient and the
      product of the scroll percentage are rounded to binary64 ([double]);
      the two differences the code takes are of viewport lengths, which
      are integers, and are exact.
    - A closure is the record of the bindings it captured from its render.
    - A flush of React re-renders the component when a state cell changed,
      runs the previous cleanup (when the previous effect returned one)
      and runs the effect again, until the cells are stable. When React
      flushes is its own choice: [play] takes any schedule of events and
      flushes, and [run] is the schedule with a flush after every event.
    - The callback the runs pass as [onTrigger] counts its calls and
      returns; the handlers themselves take any callback. *)

From Stdlib Require Import QArith Qround Qabs Lia Lqa.
From stdpp Require Import base strings list gmap.

Local Open Scope string_scope.
Local Open Scope list_scope.

(** ** JavaScript numbers *)

Inductive num : Type :=
| NaN
| Inf (positive : bool)
| Fin (q : Q).

(** Truthiness of a number: everything but [0] and [NaN]. *)
Definition truthy (n : num) : bool :=
  match n with
  | NaN => false
  | Inf _ => true
  | Fin q => negb (Qeq_bool q 0)
  end.

(** [a || d] for an optional numeric property ([None] is [undefined]). *)
Definition num_or (a : option num) (d : Q) : num :=
  match a with
  | Some n => if truthy n then n else Fin d
  | None => Fin d
  end.

(** [a <= b]; every comparison with [NaN] is false. *)
Definition num_le (a b : num) : bool :=
  match a, b with
  | NaN, _ | _, NaN => false
  | Inf pa, Inf pb => negb pa || pb
  | Inf pa, Fin _ => negb pa
  | Fin _, Inf pb => pb
  | Fin x, Fin y => Qle_bool x y
  end.

(** [a < b]. *)
Definition num_lt (a b : num) : bool :=
  match a, b with
  | NaN, _ | _, NaN => false
  | Inf pa, Inf pb => negb pa && pb
  | Inf pa, Fin _ => negb pa
  | Fin _, Inf pb => pb
  | Fin x, Fin y => negb (Qle_bool y x)
  end.

Definition num_gt (a b : num) : bool := num_lt b a.
Definition num_ge (a b : num) : bool := num_le b a.

(** *** Double precision

    The result of an arithmetic operation is the exact result rounded to
    the nearest double, ties to even. Magnitudes are counted in units
    of [2^-1074], the least subnormal. *)

(** The nearest integer, ties to the even one. *)
Definition roundInt (x : Q) : Z :=
  let f := Qfloor x in
  match Qcompare (x - inject_Z f) (1 # 2) with
  | Lt => f
  | Gt => (f + 1)%Z
  | Eq => if Z.even f then f else (f + 1)%Z
  end.

(** The binary exponent of the last place of [x], in units of the least
    subnormal: 52 below the leading bit, and never below 0. *)
Definition ulpExp (x : Q) : Z := Z.max (Z.log2 (Qfloor x) - 52) 0.

(** The magnitude of the double nearest to [a >= 0], in units of
    [2^-1074], before the overflow test. *)
Definition magnitude (a : Q) : Z :=
  let x := (a * inject_Z (2 ^ 1074))%Q in
  let e := ulpExp x in
  (roundInt (x / inject_Z (2 ^ e)) * 2 ^ e)%Z.

(** Rounding to binary64, to nearest, ties to even; a magnitude of
    [2^1024] or more overflows to an infinity. *)
Definition double (q : Q) : num :=
  let m := magnitude (Qabs q) in
  let positive := Qle_bool 0 q in
  if (2 ^ 2098 <=? m)%Z then Inf positive
  else Fin (inject_Z (if positive then m else (- m)%Z) / inject_Z (2 ^ 1074)).

Arguments magnitude : simpl never.
Arguments double : simpl never.

(** [a / b] on finite numbers: division by zero gives an infinity, or
    [NaN] for [0 / 0]; any other quotient is rounded. *)
Definition js_div (a b : Q) : num :=
  if Qeq_bool b 0
  then (if Qeq_bool a 0 then NaN else Inf (Qle_bool 0 a))
  else double (a / b).

(** [x * 100], rounded. *)
Definition times100 (x : num) : num :=
  match x with
  | Fin q => double (q * 100)
  | other => other
  end.

(** [s || d] on strings: the empty string is falsy. *)
Definition string_or (s d : string) : string :=
  if String.eqb s "" then d else s.

(** The conversion of a number to the 32-bit integer a timer delay is
    (Web IDL [long]): [NaN] and the infinities give 0, any other number is
    truncated towards zero and wrapped modulo [2^32] into
    [-2^31 .. 2^31 - 1]. *)
Definition toInt32 (n : num) : Z :=
  match n with
  | Fin q =>
      let t := Z.quot (Qnum q) (Zpos (Qden q)) in
      let m := (t mod 2 ^ 32)%Z in
      if (2 ^ 31 <=? m)%Z then (m - 2 ^ 32)%Z else m
  | _ => 0%Z
  end.

(** The milliseconds the host waits before it runs a timer: the delay as
    a 32-bit integer, a negative one counting as 0; the callback never
    runs before the next tick of the clock. *)
Definition timerDelay (delay : num) : nat :=
  Nat.max 1 (Z.to_nat (toInt32 delay)).

(** ** Options *)

Record TriggerScroll : Type := mkTriggerScroll {
  ts_mobile : bool;
  ts_desktop : bool;
  ts_percentThreshold : option num
}.

Record TriggerTabChange : Type := mkTriggerTabChange {
  tc_mobile : bool;
  tc_desktop : bool;
  tc_delay : option num;
  tc_title : string
}.

(** An options object as the caller passes it. [triggerScroll] and
    [triggerTabChange] are [None] when the property is missing; the boolean
    fields hold the truthiness of the property (a missing one is falsy). *)
Record Options : Type := mkOptions {
  mobileWidthThreshold : option num;
  triggerScroll : option TriggerScroll;
  triggerMouseMove : bool;
  triggerTabChange : option TriggerTabChange;
  storeInUserSession : bool
}.

(** The default value of the [options] parameter (lines 29-35). *)
Definition defaultOptions : Options :=
  {| mobileWidthThreshold := Some (Fin 768);
     triggerScroll := Some {| ts_mobile := true; ts_desktop := false;
                              ts_percentThreshold := Some (Fin 30) |};
     triggerMouseMove := true;
     triggerTabChange := Some {| tc_mobile := false; tc_desktop := true;
                                 tc_delay := Some (Fin 200);
                                 tc_title := "We miss you!" |};
     storeInUserSession := true |}.

(** Destructuring with a default: the default applies only when the
    [options] property itself is absent. *)
Definition resolveOptions (supplied : option Options) : Options :=
  match supplied with
  | Some o => o
  | None => defaultOptions
  end.

Definition SESSION_STORAGE_CTA_KEY : string := "useDontLeave".

(** ** Host state *)

Inductive Error : Type :=
| TypeError      (* property access on [undefined] *)
| StorageError   (* raised by [getItem] or [setItem] *)
| CallerError.   (* raised by the caller's [onTrigger] *)

(** The global [sessionStorage]: null or undefined, or a store whose
    [getItem] / [setItem] may raise. *)
Inductive SessionStorage : Type :=
| NoStorage
| Storage (items : gmap string string) (getRaises setRaises : bool).

Record Window : Type := mkWindow {
  innerWidth : Q;
  innerHeight : Q;
  scrollY : Q
}.

Record Document : Type := mkDocument {
  title : string;
  hidden : bool;
  scrollHeight : Q      (* document.documentElement.scrollHeight *)
}.

(** A pending [setTimeout] callback; all callbacks of this program set the
    document title. *)
Record Timer : Type := mkTimer {
  t_id : nat;
  t_due : nat;
  t_title : string
}.

(** The three [useState] cells. *)
Record Cells : Type := mkCells {
  hasTriggered : bool;
  originalTitle : string;
  timeoutId : option nat
}.

Definition initialCells : Cells :=
  {| hasTriggered := false; originalTitle := ""; timeoutId := None |}.

(** The bindings of one render, captured by the closures it creates. *)
Record Bindings : Type := mkBindings {
  b_options : Options;
  b_cells : Cells
}.

Inductive EventType : Type := visibilitychange | mousemove | scroll.

(** A registered listener: the function object is identified by the effect
    run that created it, and carries the bindings it closed over. *)
Record Listener : Type := mkListener {
  l_type : EventType;
  l_fn : nat;
  l_env : Bindings
}.

(** React's bookkeeping for the component instance. [cleanup] is the
    function returned by the last effect run, when it returned one. *)
Record Fiber : Type := mkFiber {
  mounted : bool;
  props : Options;
  cells : Cells;
  committed : Cells;
  cleanup : option (nat * Options);
  nextFn : nat
}.

Record World : Type := mkWorld {
  window : Window;
  document : Document;
  sessionStorage : SessionStorage;
  clock : nat;
  timers : list Timer;
  nextTimer : nat;
  listeners : list Listener;
  calls : nat;              (* number of calls of [onTrigger] so far *)
  uncaught : list Error;    (* exceptions that escaped a handler or effect *)
  fiber : Fiber
}.

#[global] Instance EventType_eq_dec : EqDecision EventType.
Proof. solve_decision. Defined.

#[global] Instance Cells_eq_dec : EqDecision Cells.
Proof. solve_decision. Defined.

(** *** Field updates *)

Definition with_document (d : Document) (w : World) : World :=
  {| window := window w; document := d; sessionStorage := sessionStorage w;
     clock := clock w; timers := timers w; nextTimer := nextTimer w;
     listeners := listeners w; calls := calls w; uncaught := uncaught w;
     fiber := fiber w |}.

Definition with_window (v : Window) (w : World) : World :=
  {| window := v; document := document w; sessionStorage := sessionStorage w;
     clock := clock w; timers := timers w; nextTimer := nextTimer w;
     listeners := listeners w; calls := calls w; uncaught := uncaught w;
     fiber := fiber w |}.

Definition with_title (t : string) (w : World) : World :=
  with_document {| title := t; hidden := hidden (document w);
                   scrollHeight := scrollHeight (document w) |} w.

Definition with_storage (s : SessionStorage) (w : World) : World :=
  {| window := window w; document := document w; sessionStorage := s;
     clock := clock w; timers := timers w; nextTimer := nextTimer w;
     listeners := listeners w; calls := calls w; uncaught := uncaught w;
     fiber := fiber w |}.

Definition with_clock (c : nat) (w : World) : World :=
  {| window := window w; document := document w; sessionStorage := sessionStorage w;
     clock := c; timers := timers w; nextTimer := nextTimer w;
     listeners := listeners w; calls := calls w; uncaught := uncaught w;
     fiber := fiber w |}.

Definition with_timers (ts : list Timer) (n : nat) (w : World) : World :=
  {| window := window w; document := document w; sessionStorage := sessionStorage w;
     clock := clock w; timers := ts; nextTimer := n;
     listeners := listeners w; calls := calls w; uncaught := uncaught w;
     fiber := fiber w |}.

Definition with_listeners (ls : list Listener) (w : World) : World :=
  {| window := window w; document := document w; sessionStorage := sessionStorage w;
     clock := clock w; timers := timers w; nextTimer := nextTimer w;
     listeners := ls; calls := calls w; uncaught := uncaught w;
     fiber := fiber w |}.

Definition with_calls (n : nat) (w : World) : World :=
  {| window := window w; document := document w; sessionStorage := sessionStorage w;
     clock := clock w; timers := timers w; nextTimer := nextTimer w;
     listeners := listeners w; calls := n; uncaught := uncaught w;
     fiber := fiber w |}.

Definition with_uncaught (es : list Error) (w : World) : World :=
  {| window := window w; document := document w; sessionStorage := sessionStorage w;
     clock := clock w; timers := timers w; nextTimer := nextTimer w;
     listeners := listeners w; calls := calls w; uncaught := es;
     fiber := fiber w |}.

Definition with_fiber (f : Fiber) (w : World) : World :=
  {| window := window w; document := document w; sessionStorage := sessionStorage w;
     clock := clock w; timers := timers w; nextTimer := nextTimer w;
     listeners := listeners w; calls := calls w; uncaught := uncaught w;
     fiber := f |}.

Definition with_cells (c : Cells) (f : Fiber) : Fiber :=
  {| mounted := mounted f; props := props f; cells := c;
     committed := committed f; cleanup := cleanup f; nextFn := nextFn f |}.

(** ** Computations that may throw *)

Inductive Completion (A : Type) : Type :=
| Normal (a : A)
| Throw (e : Error).
Arguments Normal {A} a.
Arguments Throw {A} e.

(** A computation reads and writes the world; what it wrote before a
    [Throw] stays written. *)
Definition Js (A : Type) : Type := World -> Completion A * World.

Definition ret {A} (a : A) : Js A := fun w => (Normal a, w).

Definition bind {A B} (m : Js A) (k : A -> Js B) : Js B :=
  fun w =>
    match m w with
    | (Normal a, w') => k a w'
    | (Throw e, w') => (Throw e, w')
    end.

Definition throw {A} (e : Error) : Js A := fun w => (Throw e, w).

Definition read {A} (f : World -> A) : Js A := fun w => (Normal (f w), w).

Definition write (f : World -> World) : Js unit := fun w => (Normal tt, f w).

Notation "x <- m ;; k" := (bind m (fun x => k))
  (at level 100, m at next level, right associativity).
Notation "m ;; k" := (bind m (fun _ => k))
  (at level 100, right associativity).

Definition when (b : bool) (m : Js unit) : Js unit := if b then m else ret tt.

(** Reading a property of [o]: a [TypeError] when [o] is [undefined]. *)
Definition deref {A} (o : option A) : Js A :=
  match o with
  | Some a => ret a
  | None => throw TypeError
  end.

(** The world after a computation, and how it completed. *)
Definition exec {A} (m : Js A) (w : World) : World := snd (m w).
Definition completion {A} (m : Js A) (w : World) : Completion A := fst (m w).

(** ** Host primitives *)

(** [window.setTimeout(() => { document.title = t }, delay)]. *)
Definition setTimeout (t : string) (delay : num) : Js nat :=
  fun w =>
    let id := nextTimer w in
    let tm := {| t_id := id;
                 t_due := clock w + timerDelay delay;
                 t_title := t |} in
    (Normal id, with_timers (timers w ++ [tm]) (S id) w).

Definition clearTimeout (id : nat) : Js unit :=
  write (fun w =>
    with_timers (List.filter (fun t => negb (Nat.eqb (t_id t) id)) (timers w))
                (nextTimer w) w).

(** [document.title = t] stores the text as it is; reading
    [document.title] returns the text with ASCII white space stripped and
    collapsed. *)
Definition setTitle (t : string) : Js unit := write (with_title t).

Definition isWhiteSpace (c : Ascii.ascii) : bool :=
  let n := Ascii.nat_of_ascii c in
  Nat.eqb n 9 || Nat.eqb n 10 || Nat.eqb n 12 || Nat.eqb n 13 || Nat.eqb n 32.

Fixpoint collapseWhiteSpace (started pending : bool) (s : string) : string :=
  match s with
  | EmptyString => EmptyString
  | String c rest =>
      if isWhiteSpace c then collapseWhiteSpace started true rest
      else
        let tail := String c (collapseWhiteSpace true false rest) in
        if started && pending then String (Ascii.ascii_of_nat 32) tail else tail
  end.

Definition normalizeTitle (s : string) : string :=
  collapseWhiteSpace false false s.

(** What [document.title] returns. *)
Definition documentTitle (w : World) : string :=
  normalizeTitle (title (document w)).

Definition addEventListener (ty : EventType) (fn : nat) (env : Bindings) : Js unit :=
  write (fun w =>
    with_listeners
      (listeners w ++ [{| l_type := ty; l_fn := fn; l_env := env |}]) w).

Definition same_listener (ty : EventType) (fn : nat) (l : Listener) : bool :=
  bool_decide (l_type l = ty) && Nat.eqb (l_fn l) fn.

Definition removeEventListener (ty : EventType) (fn : nat) : Js unit :=
  write (fun w =>
    with_listeners
      (List.filter (fun l => negb (same_listener ty fn l)) (listeners w)) w).

(** State setters: React ignores an update of an unmounted component. *)
Definition setCells (f : Cells -> Cells) : Js unit :=
  write (fun w =>
    if mounted (fiber w)
    then with_fiber (with_cells (f (cells (fiber w))) (fiber w)) w
    else w).

Definition setHasTriggered (b : bool) : Js unit :=
  setCells (fun c => {| hasTriggered := b; originalTitle := originalTitle c;
                        timeoutId := timeoutId c |}).

Definition setOriginalTitle (t : string) : Js unit :=
  setCells (fun c => {| hasTriggered := hasTriggered c; originalTitle := t;
                        timeoutId := timeoutId c |}).

Definition setTimeoutId (id : option nat) : Js unit :=
  setCells (fun c => {| hasTriggered := hasTriggered c;
                        originalTitle := originalTitle c; timeoutId := id |}).

(** The caller's [onTrigger] is a parameter of the two handlers that call
    it ([handleMouseMoveWith], [handleScrollWith]). The runs of this
    development pass the callback [onTrigger] below, which counts its calls
    and returns; [raisingOnTrigger] is one that raises. *)
Definition onTrigger : Js unit :=
  write (fun w => with_calls (S (calls w)) w).

Definition raisingOnTrigger : Js unit :=
  fun w => (Throw CallerError, with_calls (S (calls w)) w).

(** [sessionStorage?.getItem(key)]: [undefined] when the store is nullish. *)
Definition getItem (key : string) : Js (option string) :=
  fun w =>
    match sessionStorage w with
    | NoStorage => (Normal None, w)
    | Storage items getRaises _ =>
        if getRaises then (Throw StorageError, w)
        else (Normal (items !! key), w)
    end.

(** [sessionStorage?.setItem(key, value)]. *)
Definition setItem (key value : string) : Js unit :=
  fun w =>
    match sessionStorage w with
    | NoStorage => (Normal tt, w)
    | Storage items getRaises setRaises =>
        if setRaises then (Throw StorageError, w)
        else (Normal tt,
              with_storage (Storage (<[key := value]> items) getRaises setRaises) w)
    end.

(** Truthiness of what [getItem] returned. *)
Definition item_truthy (item : option string) : bool :=
  match item with
  | Some s => negb (String.eqb s "")
  | None => false
  end.

(** ** The hook *)

(** [window.innerWidth > (options.mobileWidthThreshold || 768)]
    (lines 54 and 89). *)
Definition isDesktop (options : Options) (w : World) : bool :=
  num_gt (Fin (innerWidth (window w)))
         (num_or (mobileWidthThreshold options) 768).

(** [window.innerWidth <= (mobileWidthThreshold || 768)] (line 111). *)
Definition isMobile (options : Options) (w : World) : bool :=
  num_le (Fin (innerWidth (window w)))
         (num_or (mobileWidthThreshold options) 768).

(** Lines 53-73. *)
Definition handleVisibilityChange (env : Bindings) : Js unit :=
  let options := b_options env in
  desktop <- read (isDesktop options) ;;
  let triggerTabChangeConfig := triggerTabChange options in
  cfg <- deref triggerTabChangeConfig ;;
  if (desktop && tc_desktop cfg) || (negb desktop && tc_mobile cfg) then
    isHidden <- read (fun w => hidden (document w)) ;;
    if isHidden then
      id <- setTimeout (string_or (tc_title cfg) "We miss you!")
                       (num_or (tc_delay cfg) 200) ;;
      setTimeoutId (Some id)
    else
      (match timeoutId (b_cells env) with
       | Some id => when (negb (Nat.eqb id 0)) (clearTimeout id ;; setTimeoutId None)
       | None => ret tt
       end) ;;
      setTitle (originalTitle (b_cells env))
  else ret tt.

(** Lines 87-104, closed over the caller's [onTrigger]. *)
Definition handleMouseMoveWith (onTrigger : Js unit) (env : Bindings)
    (clientX clientY : Q) : Js unit :=
  let options := b_options env in
  desktop <- read (isDesktop options) ;;
  if triggerMouseMove options && desktop then
    width <- read (fun w => innerWidth (window w)) ;;
    let toleranceTop := 50%Q in
    let toleranceSides := 250%Q in
    let isTopLeft :=
      Qle_bool clientY toleranceTop && Qle_bool clientX toleranceSides in
    let isTopRight :=
      Qle_bool clientY toleranceTop
      && Qle_bool (width - toleranceSides) clientX in
    if isTopLeft || isTopRight then
      setHasTriggered true ;;
      onTrigger ;;
      when (storeInUserSession options)
           (setItem SESSION_STORAGE_CTA_KEY "true")
    else ret tt
  else ret tt.

Definition handleMouseMove (env : Bindings) (clientX clientY : Q) : Js unit :=
  handleMouseMoveWith onTrigger env clientX clientY.

(** [(scrollTop / docHeight) * 100] of lines 115-117. *)
Definition scrollPercent (w : World) : num :=
  let scrollTop := scrollY (window w) in
  let docHeight := (scrollHeight (document w) - innerHeight (window w))%Q in
  times100 (js_div scrollTop docHeight).

(** Lines 109-128, closed over the caller's [onTrigger]. *)
Definition handleScrollWith (onTrigger : Js unit) (env : Bindings) : Js unit :=
  let options := b_options env in
  mobile <- read (isMobile options) ;;
  ts <- deref (triggerScroll options) ;;
  let percentThreshold := ts_percentThreshold ts in
  percent <- read scrollPercent ;;
  if (mobile && ts_mobile ts) || (negb mobile && ts_desktop ts) then
    if num_ge percent (num_or percentThreshold 30) then
      setHasTriggered true ;;
      onTrigger ;;
      when (storeInUserSession options)
           (setItem SESSION_STORAGE_CTA_KEY "true")
    else ret tt
  else ret tt.

Definition handleScroll (env : Bindings) : Js unit :=
  handleScrollWith onTrigger env.

(** The [useEffect] callback, lines 42-149, run as function object [fn].
    It returns the cleanup it hands to React, or nothing on the early
    [return] of line 80. ([document] exists in this host, so the guard of
    line 46 passes.) *)
Definition effect (fn : nat) (env : Bindings) : Js (option (nat * Options)) :=
  let options := b_options env in
  t <- read documentTitle ;;
  setOriginalTitle t ;;
  addEventListener visibilitychange fn env ;;
  satisfied <-
    (if hasTriggered (b_cells env) then ret true
     else if storeInUserSession options then
       item <- getItem SESSION_STORAGE_CTA_KEY ;;
       ret (item_truthy item)
     else ret false) ;;
  if satisfied then ret None
  else
    when (triggerMouseMove options) (addEventListener mousemove fn env) ;;
    ts <- deref (triggerScroll options) ;;
    when (ts_mobile ts || ts_desktop ts) (addEventListener scroll fn env) ;;
    ret (Some (fn, options)).

(** The cleanup returned at lines 141-149, closed over [fn] and [options]. *)
Definition effectCleanup (c : nat * Options) : Js unit :=
  let '(fn, options) := c in
  when (triggerMouseMove options) (removeEventListener mousemove fn) ;;
  ts <- deref (triggerScroll options) ;;
  when (ts_mobile ts || ts_desktop ts) (removeEventListener scroll fn) ;;
  removeEventListener visibilitychange fn.

(** ** React and the event loop *)

(** An exception that escapes a handler or an effect is reported. *)
Definition report {A} (r : Completion A * World) : World :=
  match r with
  | (Normal _, w) => w
  | (Throw e, w) => with_uncaught (uncaught w ++ [e]) w
  end.

Definition runCleanup (w : World) : World :=
  match cleanup (fiber w) with
  | Some c => report (effectCleanup c w)
  | None => w
  end.

(** One commit: the previous cleanup, then the effect of the new render.
    An effect that throws takes the component down. *)
Definition commitEffect (w : World) : World :=
  let w1 := runCleanup w in
  let f := fiber w1 in
  let env := {| b_options := props f; b_cells := cells f |} in
  let w2 :=
    with_fiber {| mounted := mounted f; props := props f; cells := cells f;
                  committed := cells f; cleanup := None;
                  nextFn := S (nextFn f) |} w1 in
  match effect (nextFn f) env w2 with
  | (Normal c, w3) =>
      let g := fiber w3 in
      with_fiber {| mounted := mounted g; props := props g; cells := cells g;
                    committed := committed g; cleanup := c;
                    nextFn := nextFn g |} w3
  | (Throw e, w3) =>
      let g := fiber w3 in
      with_uncaught (uncaught w3 ++ [e])
        (with_fiber {| mounted := false; props := props g; cells := cells g;
                       committed := committed g; cleanup := None;
                       nextFn := nextFn g |} w3)
  end.

(** A state cell that differs from the committed render re-renders; every
    dependency list entry of lines 150-160 that is a cell has then changed. *)
Definition dirty (w : World) : bool :=
  mounted (fiber w) && negb (bool_decide (cells (fiber w) = committed (fiber w))).

Fixpoint flush (fuel : nat) (w : World) : World :=
  match fuel with
  | O => w
  | S n => if dirty w then flush n (commitEffect w) else w
  end.

Definition settle (w : World) : World := flush 2 w.

Inductive DomEvent : Type :=
| VisibilityChangeEvent
| MouseMoveEvent (clientX clientY : Q)
| ScrollEvent.

Definition event_type (e : DomEvent) : EventType :=
  match e with
  | VisibilityChangeEvent => visibilitychange
  | MouseMoveEvent _ _ => mousemove
  | ScrollEvent => scroll
  end.

Definition handler (e : DomEvent) (env : Bindings) : Js unit :=
  match e with
  | VisibilityChangeEvent => handleVisibilityChange env
  | MouseMoveEvent x y => handleMouseMove env x y
  | ScrollEvent => handleScroll env
  end.

(** The same for any [onTrigger] the caller may pass. *)
Definition handlerWith (onTrigger : Js unit) (e : DomEvent) (env : Bindings)
  : Js unit :=
  match e with
  | VisibilityChangeEvent => handleVisibilityChange env
  | MouseMoveEvent x y => handleMouseMoveWith onTrigger env x y
  | ScrollEvent => handleScrollWith onTrigger env
  end.

Definition invoke (e : DomEvent) (w : World) (l : Listener) : World :=
  report (handler e (l_env l) w).

Definition listening (ty : EventType) (w : World) : list Listener :=
  List.filter (fun l => bool_decide (l_type l = ty)) (listeners w).

(** The host calls the listeners of the event's type in registration order. *)
Definition dispatch (e : DomEvent) (w : World) : World :=
  fold_left (invoke e) (listening (event_type e) w) w.

(** One millisecond passes: the timers that are due run, oldest first. *)
Definition tick (w : World) : World :=
  let now := S (clock w) in
  let due := List.filter (fun t => Nat.leb (t_due t) now) (timers w) in
  let rest := List.filter (fun t => negb (Nat.leb (t_due t) now)) (timers w) in
  fold_left (fun w t => with_title (t_title t) w) due
            (with_clock now (with_timers rest (nextTimer w) w)).

Definition advance (ms : nat) (w : World) : World := Nat.iter ms tick w.

(** What the host and the parent component can do to the instance.
    [Rerender] is a render of the parent that changes the dependency list
    of lines 150-160: a new [onTrigger], new option objects, or no options
    at all (the default object is then built afresh).

    React runs the effect of a state update some time after the handler
    that made it has returned. [step] is the schedule in which that
    happens before the next event: it delivers one event and flushes.
    [deliver] and [play] further down are every schedule: events are
    delivered with no flush of their own, and [Flush] is an action like
    any other. *)
Inductive Event : Type :=
| VisibilityChange (nowHidden : bool)
| MouseMove (clientX clientY : Q)
| Scroll (newScrollY : Q)
| Resize (width height : Q)
| Layout (newScrollHeight : Q)
| Advance (ms : nat)
| Rerender (supplied : option Options)
| Unmount.

Definition with_props (o : Options) (f : Fiber) : Fiber :=
  {| mounted := mounted f; props := o; cells := cells f;
     committed := committed f; cleanup := cleanup f; nextFn := nextFn f |}.

Definition unmounted (f : Fiber) : Fiber :=
  {| mounted := false; props := props f; cells := cells f;
     committed := committed f; cleanup := None; nextFn := nextFn f |}.

Definition step (w : World) (e : Event) : World :=
  match e with
  | VisibilityChange h =>
      settle (dispatch VisibilityChangeEvent
                (with_document {| title := title (document w); hidden := h;
                                  scrollHeight := scrollHeight (document w) |} w))
  | MouseMove x y => settle (dispatch (MouseMoveEvent x y) w)
  | Scroll y =>
      settle (dispatch ScrollEvent
                (with_window {| innerWidth := innerWidth (window w);
                                innerHeight := innerHeight (window w);
                                scrollY := y |} w))
  | Resize width height =>
      with_window {| innerWidth := width; innerHeight := height;
                     scrollY := scrollY (window w) |} w
  | Layout h =>
      with_document {| title := title (document w);
                       hidden := hidden (document w); scrollHeight := h |} w
  | Advance ms => advance ms w
  | Rerender supplied =>
      if mounted (fiber w)
      then settle (commitEffect
                     (with_fiber (with_props (resolveOptions supplied) (fiber w)) w))
      else w
  | Unmount =>
      if mounted (fiber w)
      then (let w' := runCleanup w in with_fiber (unmounted (fiber w')) w')
      else w
  end.

Definition run (w : World) (events : list Event) : World :=
  fold_left step events w.

(** An event reaches its listeners; what the handlers asked React to do is
    left pending. A re-render of the parent and an unmount are React's own
    work and are committed at once. *)
Definition deliver (w : World) (e : Event) : World :=
  match e with
  | VisibilityChange h =>
      dispatch VisibilityChangeEvent
        (with_document {| title := title (document w); hidden := h;
                          scrollHeight := scrollHeight (document w) |} w)
  | MouseMove x y => dispatch (MouseMoveEvent x y) w
  | Scroll y =>
      dispatch ScrollEvent
        (with_window {| innerWidth := innerWidth (window w);
                        innerHeight := innerHeight (window w);
                        scrollY := y |} w)
  | other => step w other
  end.

(** One thing that happens: the host delivers an event, or React flushes
    the pending state updates. *)
Inductive Action : Type :=
| Deliver (e : Event)
| Flush.

Definition act (w : World) (a : Action) : World :=
  match a with
  | Deliver e => deliver w e
  | Flush => settle w
  end.

Definition play (w : World) (actions : list Action) : World :=
  fold_left act actions w.

(** The schedule of [run]: a flush after every event. *)
Definition flushEach (events : list Event) : list Action :=
  flat_map (fun e => [Deliver e; Flush]) events.

(** A page before the component is rendered. *)
Definition page (win : Window) (doc : Document) (store : SessionStorage) : World :=
  {| window := win; document := doc; sessionStorage := store;
     clock := 0; timers := []; nextTimer := 1; listeners := [];
     calls := 0; uncaught := [];
     fiber := {| mounted := false; props := defaultOptions;
                 cells := initialCells; committed := initialCells;
                 cleanup := None; nextFn := 0 |} |}.

(** First render of [useDontLeave({ onTrigger, options })] and its commit. *)
Definition useDontLeave (supplied : option Options) (w : World) : World :=
  settle (commitEffect
            (with_fiber {| mounted := true; props := resolveOptions supplied;
                           cells := initialCells; committed := initialCells;
                           cleanup := None; nextFn := nextFn (fiber w) |} w)).

(** ** Notions the properties are stated with *)

(** The outcome of the test of line 79, the trigger gate: the callback has
    fired in this instance, or persistence is on and the marker is there. *)
Inductive GateCheck : Type := Satisfied | Unsatisfied | ReadRaised.

Definition gateCheck (env : Bindings) (w : World) : GateCheck :=
  if hasTriggered (b_cells env) then Satisfied
  else if storeInUserSession (b_options env) then
    match sessionStorage w with
    | NoStorage => Unsatisfied
    | Storage items true _ => ReadRaised
    | Storage items false _ =>
        if item_truthy (items !! SESSION_STORAGE_CTA_KEY)
        then Satisfied else Unsatisfied
    end
  else Unsatisfied.

Definition visibilityListener (fn : nat) (env : Bindings) : Listener :=
  {| l_type := visibilitychange; l_fn := fn; l_env := env |}.

Definition pointerListener (fn : nat) (env : Bindings) : list Listener :=
  if triggerMouseMove (b_options env)
  then [{| l_type := mousemove; l_fn := fn; l_env := env |}] else [].

Definition scrollListener (fn : nat) (env : Bindings) (ts : TriggerScroll)
  : list Listener :=
  if ts_mobile ts || ts_desktop ts
  then [{| l_type := scroll; l_fn := fn; l_env := env |}] else [].

(** The world after lines 46-76: title captured, visibility listener added. *)
Definition activated (fn : nat) (env : Bindings) (w : World) : World :=
  exec (addEventListener visibilitychange fn env)
       (exec (setOriginalTitle (documentTitle w)) w).

Definition attach (ls : list Listener) (w : World) : World :=
  with_listeners (listeners w ++ ls) w.

(** What one effect run registers when it gets past line 81. *)
Definition registered (fn : nat) (env : Bindings) (ts : TriggerScroll)
  : list Listener :=
  visibilityListener fn env :: pointerListener fn env ++ scrollListener fn env ts.

(** The session marker is present and readable. *)
Definition markerPresent (s : SessionStorage) : Prop :=
  exists items setRaises,
    s = Storage items false setRaises
    /\ item_truthy (items !! SESSION_STORAGE_CTA_KEY) = true.

(** The test of line 57. *)
Definition tabEligible (o : Options) (cfg : TriggerTabChange) (w : World) : bool :=
  (isDesktop o w && tc_desktop cfg) || (negb (isDesktop o w) && tc_mobile cfg).

(** The tests that guard the firing block of a handler (lines 89-96 and
    119-120); the visibility handler has none. *)
Definition fires (e : DomEvent) (env : Bindings) (w : World) : bool :=
  let o := b_options env in
  match e with
  | VisibilityChangeEvent => false
  | MouseMoveEvent x y =>
      triggerMouseMove o && isDesktop o w
      && (Qle_bool y 50
          && (Qle_bool x 250 || Qle_bool (innerWidth (window w) - 250) x))
  | ScrollEvent =>
      match triggerScroll o with
      | Some ts =>
          ((isMobile o w && ts_mobile ts) || (negb (isMobile o w) && ts_desktop ts))
          && num_ge (scrollPercent w) (num_or (ts_percentThreshold ts) 30)
      | None => false
      end
  end.

(** The timer the hidden branch schedules. *)
Definition flashTimer (cfg : TriggerTabChange) (w : World) : Timer :=
  {| t_id := nextTimer w;
     t_due := clock w + timerDelay (num_or (tc_delay cfg) 200);
     t_title := string_or (tc_title cfg) "We miss you!" |}.

(** What the visible branch cancels: the timer whose id the closure holds. *)
Definition cancelCaptured (captured : option nat) (ts : list Timer) : list Timer :=
  match captured with
  | Some id =>
      if Nat.eqb id 0 then ts
      else List.filter (fun t => negb (Nat.eqb (t_id t) id)) ts
  | None => ts
  end.

(** The trigger gate can never be satisfied by the session store: persistence is
    off, or the store is missing, or it is readable and holds no marker. *)
Definition neverSatisfied (o : Options) (store : SessionStorage) : Prop :=
  storeInUserSession o = false
  \/ store = NoStorage
  \/ exists items setRaises,
       store = Storage items false setRaises
       /\ item_truthy (items !! SESSION_STORAGE_CTA_KEY) = false.

(** Hide and show events alternate, and only time passes in between. *)
Fixpoint alternates (nowHidden : bool) (events : list Event) : Prop :=
  match events with
  | [] => True
  | VisibilityChange h :: rest => h = negb nowHidden /\ alternates h rest
  | Advance _ :: rest => alternates nowHidden rest
  | _ :: _ => False
  end.

(** ** Pages and sessions the examples start from *)

(** A desktop page titled Home, 3000 units high in a viewport 1024 by 800. *)
Definition homePage (store : SessionStorage) : World :=
  page {| innerWidth := 1024; innerHeight := 800; scrollY := 0 |}
       {| title := "Home"; hidden := false; scrollHeight := 3000 |}
       store.

(** A readable, writable session store without the marker. *)
Definition emptyStore : SessionStorage := Storage ∅ false false.

(** A session store in which an earlier instance has left the marker. *)
Definition markedStore : SessionStorage :=
  Storage {[ SESSION_STORAGE_CTA_KEY := "true" ]} false false.

(** The bindings of the first render with the default options. *)
Definition defaultBindings : Bindings :=
  {| b_options := defaultOptions; b_cells := initialCells |}.

(** * Properties *)

(** Unfolds the computations down to the world they build. *)
(** An options object without [triggerTabChange]. *)
Definition noTabChange : Options :=
  {| mobileWidthThreshold := Some (Fin 768);
     triggerScroll := triggerScroll defaultOptions;
     triggerMouseMove := true;
     triggerTabChange := None;
     storeInUserSession := true |}.

(** An options object without [triggerScroll]. *)
Definition noScroll : Options :=
  {| mobileWidthThreshold := Some (Fin 768);
     triggerScroll := None;
     triggerMouseMove := true;
     triggerTabChange := triggerTabChange defaultOptions;
     storeInUserSession := true |}.

Ltac js :=
  cbv [invoke handler handleVisibilityChange handleMouseMove handleScroll
    handleMouseMoveWith handleScrollWith
    effect effectCleanup bind read write ret throw when deref
    setTimeout clearTimeout setTitle addEventListener removeEventListener
    setHasTriggered setOriginalTitle setTimeoutId setCells onTrigger
    getItem setItem report exec completion] in *.

Ltac js_cases := js; repeat case_match; simplify_eq; simpl in *.

(** ** The scenarios of the specification *)

Section Scenarios.
Local Open Scope Q_scope.

(** A page in a mobile viewport, 1000 units of it out of sight. *)
Definition mobilePage : World :=
  page {| innerWidth := 400; innerHeight := 800; scrollY := 0 |}
       {| title := "Home"; hidden := false; scrollHeight := 1800 |}
       emptyStore.

(** Width 1024 with threshold 768 is a desktop; a pointer event at
    (100, 10) calls [onTrigger], a second one at the same place does not. *)
Example scenario_corner :
  isDesktop defaultOptions (homePage emptyStore) = true
  /\ calls (run (useDontLeave None (homePage emptyStore)) [MouseMove 100 10])
     = 1%nat
  /\ calls (run (useDontLeave None (homePage emptyStore))
                [MouseMove 100 10; MouseMove 100 10]) = 1%nat.
Proof. repeat split. Qed.

(** Width 400 with mobile scroll at 30 %: scrolling to 35 % fires,
    scrolling to 10 % does not. *)
Example scenario_scroll :
  calls (run (useDontLeave None mobilePage) [Scroll 350]) = 1%nat
  /\ calls (run (useDontLeave None mobilePage) [Scroll 100]) = 0%nat.
Proof. split; reflexivity. Qed.

(** Hidden at width 1024 with a delay of 200 ms: the title is the flash
    title once 200 ms have passed, and stays the original one when the tab
    is shown again before that. *)
Example scenario_flash :
  title (document (run (useDontLeave None (homePage emptyStore))
                       [VisibilityChange true; Advance 199])) = "Home"
  /\ title (document (run (useDontLeave None (homePage emptyStore))
                          [VisibilityChange true; Advance 200]))
     = "We miss you!"
  /\ title (document (run (useDontLeave None (homePage emptyStore))
                          [VisibilityChange true; Advance 199;
                           VisibilityChange false; Advance 1000])) = "Home".
Proof. repeat split. Qed.

(** A positive [scrollTop] over a scrollable height of zero is
    [Infinity] percent, which reaches every finite threshold. *)
Example scroll_over_zero_height :
  let w := with_window {| innerWidth := 400; innerHeight := 800; scrollY := 5 |}
             (page {| innerWidth := 400; innerHeight := 800; scrollY := 0 |}
                   {| title := "Home"; hidden := false; scrollHeight := 800 |}
                   emptyStore) in
  scrollPercent w = Inf true
  /\ calls (exec (handleScroll defaultBindings) w) = 1%nat.
Proof. split; reflexivity. Qed.

End Scenarios.

(** ** Viewport classification *)

Section Doubles.
Local Open Scope Q_scope.

Lemma roundInt_bounds (x : Q) :
  (Qfloor x <= roundInt x <= Qfloor x + 1)%Z.
Proof.
  unfold roundInt. destruct (Qcompare _ _); [destruct (Z.even _)| |]; lia.
Qed.

Lemma roundInt_Z (n : Z) : roundInt (inject_Z n) = n.
Proof.
  unfold roundInt. rewrite Qfloor_Z.
  destruct (Qcompare_spec (inject_Z n - inject_Z n) (1 # 2)); [lra | done | lra].
Qed.

Lemma roundInt_mono (x y : Q) : x <= y -> (roundInt x <= roundInt y)%Z.
Proof.
  intros Hxy.
  pose proof (Qfloor_resp_le x y Hxy) as Hf.
  pose proof (roundInt_bounds x) as Bx. pose proof (roundInt_bounds y) as By.
  destruct (Z.eq_dec (Qfloor x) (Qfloor y)) as [E|E]; [|lia].
  unfold roundInt in *. rewrite <- E in *.
  destruct (Qcompare_spec (x - inject_Z (Qfloor x)) (1 # 2)) as [Hx|Hx|Hx];
    destruct (Qcompare_spec (y - inject_Z (Qfloor x)) (1 # 2)) as [Hy|Hy|Hy];
    try destruct (Z.even _); try lia; lra.
Qed.

Lemma roundInt_le (x : Q) (n : Z) : x <= inject_Z n -> (roundInt x <= n)%Z.
Proof. intros H. rewrite <- (roundInt_Z n). by apply roundInt_mono. Qed.

Lemma roundInt_ge (x : Q) (n : Z) : inject_Z n <= x -> (n <= roundInt x)%Z.
Proof. intros H. rewrite <- (roundInt_Z n). by apply roundInt_mono. Qed.

Lemma pow2_pos (e : Z) : (0 <= e)%Z -> 0 < inject_Z (2 ^ e).
Proof.
  intros He. change 0 with (inject_Z 0). rewrite <- Zlt_Qlt.
  by apply Z.pow_pos_nonneg.
Qed.

Lemma ulpExp_nonneg (x : Q) : (0 <= ulpExp x)%Z.
Proof. unfold ulpExp. lia. Qed.

Lemma ulpExp_mono (x y : Q) : x <= y -> (ulpExp x <= ulpExp y)%Z.
Proof.
  intros H. unfold ulpExp.
  pose proof (Z.log2_le_mono _ _ (Qfloor_resp_le x y H)). lia.
Qed.

(** [x] lies below the end of its binade. *)
Lemma below_binade (x : Q) : 0 <= x -> x < inject_Z (2 ^ (ulpExp x + 53)).
Proof.
  intros Hx.
  assert (Hf : (0 <= Qfloor x)%Z).
  { rewrite <- (Qfloor_Z 0). by apply Qfloor_resp_le. }
  assert (Hs : (Qfloor x + 1 <= 2 ^ (ulpExp x + 53))%Z).
  { destruct (Z.eq_dec (Qfloor x) 0%Z) as [E|Hne].
    - pose proof (ulpExp_nonneg x).
      assert (0 < 2 ^ (ulpExp x + 53))%Z by (apply Z.pow_pos_nonneg; lia). lia.
    - destruct (Z.log2_spec (Qfloor x)) as [_ Hlt]; [lia|].
      assert (2 ^ Z.succ (Z.log2 (Qfloor x)) <= 2 ^ (ulpExp x + 53))%Z.
      { apply Z.pow_le_mono_r; [lia|]. unfold ulpExp. lia. }
      lia. }
  eapply Qlt_le_trans; [apply Qlt_floor|].
  by rewrite <- Zle_Qle.
Qed.

(** Above the subnormal range, [x] lies at or above the start of its
    binade. *)
Lemma above_binade (x : Q) :
  (0 < ulpExp x)%Z -> inject_Z (2 ^ (ulpExp x + 52)) <= x.
Proof.
  intros He. unfold ulpExp in *.
  assert (Hl : (52 < Z.log2 (Qfloor x))%Z) by lia.
  assert (Hpos : (0 < Qfloor x)%Z).
  { destruct (Z.lt_ge_cases 0%Z (Qfloor x)) as [?|Hle]; [done|].
    rewrite (Z.log2_nonpos _ Hle) in Hl. lia. }
  destruct (Z.log2_spec _ Hpos) as [Hge _].
  eapply Qle_trans; [|apply Qfloor_le].
  rewrite <- Zle_Qle.
  replace (Z.max (Z.log2 (Qfloor x) - 52) 0 + 52)%Z
    with (Z.log2 (Qfloor x)) by lia.
  exact Hge.
Qed.

Lemma magnitude_mono (a b : Q) :
  0 <= a -> a <= b -> (magnitude a <= magnitude b)%Z.
Proof.
  intros Ha Hab. unfold magnitude.
  set (x := a * inject_Z (2 ^ 1074)). set (y := b * inject_Z (2 ^ 1074)).
  assert (HK : 0 < inject_Z (2 ^ 1074)) by (by apply pow2_pos).
  assert (Hx : 0 <= x) by (unfold x; nra).
  assert (Hxy : x <= y) by (unfold x, y; nra).
  pose proof (ulpExp_mono x y Hxy) as He.
  pose proof (ulpExp_nonneg x) as Hex.
  pose proof (pow2_pos (ulpExp x) Hex) as Hpx.
  pose proof (pow2_pos (ulpExp y) ltac:(lia)) as Hpy.
  destruct (Z.eq_dec (ulpExp x) (ulpExp y)) as [E|E].
  - rewrite <- E. apply Z.mul_le_mono_nonneg_r.
    + apply Z.pow_nonneg. lia.
    + apply roundInt_mono. apply Qmult_le_compat_r; [exact Hxy|].
      apply Qlt_le_weak, Qinv_lt_0_compat, Hpx.
  - assert (Hlow : (roundInt (x / inject_Z (2 ^ ulpExp x)) <= 2 ^ 53)%Z).
    { apply roundInt_le. apply Qle_shift_div_r; [exact Hpx|].
      rewrite <- inject_Z_mult, <- Z.pow_add_r by lia.
      rewrite Z.add_comm. apply Qlt_le_weak, below_binade, Hx. }
    assert (Hhigh : (2 ^ 52 <= roundInt (y / inject_Z (2 ^ ulpExp y)))%Z).
    { apply roundInt_ge. apply Qle_shift_div_l; [exact Hpy|].
      rewrite <- inject_Z_mult, <- Z.pow_add_r by lia.
      rewrite Z.add_comm. apply above_binade. lia. }
    assert (Hp : (2 ^ 53 * 2 ^ ulpExp x <= 2 ^ 52 * 2 ^ ulpExp y)%Z).
    { rewrite <- !Z.pow_add_r by lia. apply Z.pow_le_mono_r; lia. }
    assert (0 < 2 ^ ulpExp x)%Z by (apply Z.pow_pos_nonneg; lia).
    assert (0 < 2 ^ ulpExp y)%Z by (apply Z.pow_pos_nonneg; lia).
    nia.
Qed.

Lemma magnitude_nonneg (a : Q) : 0 <= a -> (0 <= magnitude a)%Z.
Proof.
  intros Ha. unfold magnitude.
  set (x := a * inject_Z (2 ^ 1074)).
  assert (HK : 0 < inject_Z (2 ^ 1074)) by (by apply pow2_pos).
  pose proof (ulpExp_nonneg x) as He.
  pose proof (pow2_pos _ He) as Hp.
  apply Z.mul_nonneg_nonneg; [|apply Z.pow_nonneg; lia].
  apply roundInt_ge. apply Qle_shift_div_l; [exact Hp|].
  change (inject_Z 0) with 0. rewrite Qmult_0_l.
  apply Qmult_le_0_compat; [exact Ha | by apply Qlt_le_weak].
Qed.

(** Rounding never reverses an order. *)
Lemma double_mono (x y : Q) : x <= y -> num_le (double x) (double y) = true.
Proof.
  intros Hxy. unfold double.
  assert (HK : 0 < inject_Z (2 ^ 1074)) by (by apply pow2_pos).
  pose proof (magnitude_nonneg (Qabs x) (Qabs_nonneg x)) as Hmx.
  pose proof (magnitude_nonneg (Qabs y) (Qabs_nonneg y)) as Hmy.
  assert (Hdiv : forall m n : Z, (m <= n)%Z ->
            Qle_bool (inject_Z m / inject_Z (2 ^ 1074))
                     (inject_Z n / inject_Z (2 ^ 1074)) = true).
  { intros m n Hmn. apply Qle_bool_iff.
    apply Qmult_le_compat_r; [by rewrite <- Zle_Qle|].
    by apply Qlt_le_weak, Qinv_lt_0_compat. }
  destruct (Qle_bool 0 x) eqn:Ex, (Qle_bool 0 y) eqn:Ey.
  - apply Qle_bool_iff in Ex, Ey.
    assert (Hm : (magnitude (Qabs x) <= magnitude (Qabs y))%Z).
    { apply magnitude_mono; [apply Qabs_nonneg|].
      rewrite (Qabs_pos x Ex), (Qabs_pos y Ey). exact Hxy. }
    destruct (Z.leb_spec (2 ^ 2098) (magnitude (Qabs x))),
             (Z.leb_spec (2 ^ 2098) (magnitude (Qabs y)));
      simpl; try reflexivity; [lia | by apply Hdiv].
  - apply Qle_bool_iff in Ex.
    assert (~ 0 <= y) by (intros H; apply Qle_bool_iff in H; congruence). lra.
  - destruct (Z.leb_spec (2 ^ 2098) (magnitude (Qabs x))),
             (Z.leb_spec (2 ^ 2098) (magnitude (Qabs y)));
      simpl; try reflexivity. apply Hdiv. lia.
  - assert (Hx : ~ 0 <= x) by (intros H; apply Qle_bool_iff in H; congruence).
    assert (Hy : ~ 0 <= y) by (intros H; apply Qle_bool_iff in H; congruence).
    assert (Hm : (magnitude (Qabs y) <= magnitude (Qabs x))%Z).
    { apply magnitude_mono; [apply Qabs_nonneg|].
      rewrite (Qabs_neg x), (Qabs_neg y) by lra. lra. }
    destruct (Z.leb_spec (2 ^ 2098) (magnitude (Qabs x))),
             (Z.leb_spec (2 ^ 2098) (magnitude (Qabs y)));
      simpl; try reflexivity; [lia | apply Hdiv; lia].
Qed.

Lemma double_not_NaN (x : Q) : double x <> NaN.
Proof. unfold double. by destruct (_ <=? _)%Z. Qed.

Lemma num_le_trans (a b c : num) :
  num_le a b = true -> num_le b c = true -> num_le a c = true.
Proof.
  destruct a as [|pa|x], b as [|pb|y], c as [|pc|z]; simpl; try done;
    try (by destruct pa, pb, pc); try (by destruct pa, pb);
    try (by destruct pb, pc); try (by destruct pb);
    try (by destruct pa, pc).
  intros H1 H2. apply Qle_bool_iff. apply Qle_bool_iff in H1, H2. lra.
Qed.

Lemma times100_mono (a b : num) :
  num_le a b = true -> num_le (times100 a) (times100 b) = true.
Proof.
  destruct a as [|pa|x], b as [|pb|y]; simpl; try done.
  - destruct pa; [done|]. intros _.
    pose proof (double_not_NaN (y * 100)). by destruct (double _).
  - intros ->. pose proof (double_not_NaN (x * 100)).
    by destruct (double _) as [|[]|].
  - intros H. apply Qle_bool_iff in H. apply double_mono. lra.
Qed.

End Doubles.

(** ** The title as it is read back *)

Section Titles.

Lemma space_isWhiteSpace : isWhiteSpace (Ascii.ascii_of_nat 32) = true.
Proof. reflexivity. Qed.

Lemma collapseWhiteSpace_started (s : string) :
  collapseWhiteSpace true false (collapseWhiteSpace true false s)
  = collapseWhiteSpace true false s
  /\ collapseWhiteSpace true false (collapseWhiteSpace true true s)
     = collapseWhiteSpace true true s.
Proof.
  induction s as [|c s [IH1 IH2]]; [done|]. cbn [collapseWhiteSpace].
  destruct (isWhiteSpace c) eqn:Ec; cbn [andb].
  - by split.
  - split.
    + cbn [collapseWhiteSpace]. rewrite Ec. cbn [andb]. by rewrite IH1.
    + cbn [collapseWhiteSpace]. rewrite space_isWhiteSpace.
      cbn [collapseWhiteSpace]. rewrite Ec. cbn [andb]. by rewrite IH1.
Qed.

(** Reading the title back twice gives what reading it once gave. *)
Lemma normalizeTitle_idem (s : string) :
  normalizeTitle (normalizeTitle s) = normalizeTitle s.
Proof.
  unfold normalizeTitle.
  assert (H : forall pending,
             collapseWhiteSpace false false (collapseWhiteSpace false pending s)
             = collapseWhiteSpace false pending s); [|apply H].
  induction s as [|c s IH]; intros pending; [done|]. cbn [collapseWhiteSpace].
  destruct (isWhiteSpace c) eqn:Ec; cbn [andb]; [apply IH|].
  cbn [collapseWhiteSpace]. rewrite Ec. cbn [andb].
  by destruct (collapseWhiteSpace_started s) as [-> _].
Qed.

End Titles.

(** ** Classifying the viewport *)

Section Classification.
Local Open Scope Q_scope.

Lemma num_or_fin_nonzero (t d : Q) :
  ~ t == 0 -> num_or (Some (Fin t)) d = Fin t.
Proof.
  intros Hne. unfold num_or, truthy.
  destruct (Qeq_bool t 0) eqn:E; [|reflexivity].
  apply Qeq_bool_iff in E. contradiction.
Qed.

Lemma num_or_fin_zero (t d : Q) :
  t == 0 -> num_or (Some (Fin t)) d = Fin d.
Proof.
  intros Hz. unfold num_or, truthy.
  apply Qeq_bool_iff in Hz. by rewrite Hz.
Qed.

Lemma num_gt_fin (x y : Q) : num_gt (Fin x) (Fin y) = true <-> y < x.
Proof.
  unfold num_gt, num_lt. rewrite negb_true_iff.
  split.
  - intros E. apply Qnot_le_lt. intros Hle.
    apply Qle_bool_iff in Hle. congruence.
  - intros Hlt. destruct (Qle_bool x y) eqn:E; [|reflexivity].
    apply Qle_bool_iff in E. exfalso. exact (Qlt_not_le _ _ Hlt E).
Qed.

Lemma num_le_fin (x y : Q) : num_le (Fin x) (Fin y) = true <-> x <= y.
Proof. apply Qle_bool_iff. Qed.

(** The two spellings of the test in the source agree: the scroll
    handler's [isMobile] is the negation of [isDesktop]. *)
Lemma isMobile_isDesktop (o : Options) (w : World) :
  isMobile o w = negb (isDesktop o w).
Proof.
  unfold isMobile, isDesktop, num_gt, num_or.
  destruct (mobileWidthThreshold o) as [[| p | q]|]; simpl;
    try destruct (Qeq_bool q 0); simpl; by rewrite negb_involutive.
Qed.

(** The default options with a threshold of [0]. *)
Definition zeroThreshold : Options :=
  {| mobileWidthThreshold := Some (Fin 0);
     triggerScroll := triggerScroll defaultOptions;
     triggerMouseMove := true;
     triggerTabChange := triggerTabChange defaultOptions;
     storeInUserSession := true |}.

(** A page in a viewport 100 wide. *)
Definition narrowPage : World :=
  page {| innerWidth := 100; innerHeight := 800; scrollY := 0 |}
       {| title := "Home"; hidden := false; scrollHeight := 3000 |}
       NoStorage.

(** C4 as stated fails here. A threshold of [0] and a viewport 100 wide:
    the width exceeds the configured threshold, yet every site classifies
    the viewport as mobile, because [0 || 768] is [768]. *)
Lemma classify_zero_threshold_counterexample :
  mobileWidthThreshold zeroThreshold = Some (Fin 0)
  /\ 0 < innerWidth (window narrowPage)
  /\ isDesktop zeroThreshold narrowPage = false
  /\ isMobile zeroThreshold narrowPage = true.
Proof. repeat split. Qed.

(** C4 (amended). With a configured finite threshold [t], the viewport is
    Desktop iff its width exceeds [t || 768]: [t] itself when [t] is not
    zero, [768] when it is; it is Mobile otherwise, and the test of the
    scroll handler is the exact complement of the one used by the
    visibility and pointer handlers. *)
Theorem classify_effective_threshold (o : Options) (world : World) (t : Q) :
  mobileWidthThreshold o = Some (Fin t) ->
  let width := innerWidth (window world) in
  isMobile o world = negb (isDesktop o world)
  /\ (~ t == 0 ->
      (isDesktop o world = true <-> t < width)
      /\ (isMobile o world = true <-> width <= t))
  /\ (t == 0 ->
      (isDesktop o world = true <-> 768 < width)
      /\ (isMobile o world = true <-> width <= 768)).
Proof.
  intros Ht width. split; [apply isMobile_isDesktop|].
  unfold isDesktop, isMobile. rewrite Ht. fold width.
  split; intros Hz.
  - rewrite (num_or_fin_nonzero _ _ Hz).
    split; [apply num_gt_fin | apply num_le_fin].
  - rewrite (num_or_fin_zero _ _ Hz).
    split; [apply num_gt_fin | apply num_le_fin].
Qed.

Lemma classify_effective_threshold_witness :
  let world := narrowPage in
  isMobile defaultOptions world = negb (isDesktop defaultOptions world)
  /\ (~ 768 == 0 ->
      (isDesktop defaultOptions world = true <-> 768 < 100)
      /\ (isMobile defaultOptions world = true <-> 100 <= 768))
  /\ (768 == 0 ->
      (isDesktop defaultOptions world = true <-> 768 < 100)
      /\ (isMobile defaultOptions world = true <-> 100 <= 768)).
Proof.
  exact (classify_effective_threshold defaultOptions narrowPage 768 eq_refl).
Defined.

End Classification.

(** ** Scroll depth *)

Section ScrollDepth.
Local Open Scope Q_scope.

(** Whether the firing block of a handler ran is visible in the call
    count; a failing [setItem] comes after the call. *)
Lemma handleScroll_calls (env : Bindings) (w : World) (ts : TriggerScroll) :
  triggerScroll (b_options env) = Some ts ->
  calls (exec (handleScroll env) w) =
    if ((isMobile (b_options env) w && ts_mobile ts)
        || (negb (isMobile (b_options env) w) && ts_desktop ts))
       && num_ge (scrollPercent w) (num_or (ts_percentThreshold ts) 30)
    then S (calls w) else calls w.
Proof.
  intros Hts. js. rewrite Hts.
  destruct (isMobile (b_options env) w && ts_mobile ts
            || negb (isMobile (b_options env) w) && ts_desktop ts);
    simpl; [|reflexivity].
  destruct (num_ge _ _); simpl; [|reflexivity].
  repeat case_match; simplify_eq; reflexivity.
Qed.

Lemma scrollPercent_scrollable (w : World) :
  let docHeight := scrollHeight (document w) - innerHeight (window w) in
  ~ docHeight == 0 ->
  scrollPercent w = times100 (double (scrollY (window w) / docHeight)).
Proof.
  intros docHeight Hne. unfold scrollPercent, js_div. fold docHeight.
  destruct (Qeq_bool docHeight 0) eqn:E; [|reflexivity].
  apply Qeq_bool_iff in E. contradiction.
Qed.

Lemma scrollPercent_not_scrollable (w : World) :
  scrollHeight (document w) - innerHeight (window w) == 0 ->
  scrollY (window w) == 0 ->
  scrollPercent w = NaN.
Proof.
  intros Hd Hs. unfold scrollPercent, js_div.
  apply Qeq_bool_iff in Hd, Hs. by rewrite Hd, Hs.
Qed.

Lemma flag_eligible (mobile m d : bool) :
  (mobile && m) || (negb mobile && d) = if mobile then m else d.
Proof. by destruct mobile, m, d. Qed.

(** Mobile scroll enabled with a percent threshold of [0]. *)
Definition zeroPercent : Bindings :=
  {| b_options :=
       {| mobileWidthThreshold := Some (Fin 768);
          triggerScroll := Some {| ts_mobile := true; ts_desktop := false;
                                   ts_percentThreshold := Some (Fin 0) |};
          triggerMouseMove := true;
          triggerTabChange := triggerTabChange defaultOptions;
          storeInUserSession := true |};
     b_cells := initialCells |}.

(** A mobile viewport scrolled 100 of 1000 scrollable units. *)
Definition tenPercentScrolled : World :=
  page {| innerWidth := 400; innerHeight := 800; scrollY := 100 |}
       {| title := "Home"; hidden := false; scrollHeight := 1800 |}
       emptyStore.

(** Mobile scroll enabled with a percent threshold of [57]. *)
Definition fiftySevenPercent : Bindings :=
  {| b_options :=
       {| mobileWidthThreshold := Some (Fin 768);
          triggerScroll := Some {| ts_mobile := true; ts_desktop := false;
                                   ts_percentThreshold := Some (Fin 57) |};
          triggerMouseMove := true;
          triggerTabChange := triggerTabChange defaultOptions;
          storeInUserSession := true |};
     b_cells := initialCells |}.

(** A mobile viewport scrolled 57 of 100 scrollable units. *)
Definition fiftySevenOfHundred : World :=
  page {| innerWidth := 400; innerHeight := 800; scrollY := 57 |}
       {| title := "Home"; hidden := false; scrollHeight := 900 |}
       emptyStore.

(** C5 as stated fails here. A mobile viewport, 10 % scrolled, with a
    configured threshold of 0: 10 >= 0 and the mobile flag is on, yet
    nothing fires, because [0 || 30] is [30]. And a threshold of 57 with
    57 of 100 units scrolled: the ratio is 57 %, but in doubles
    [57 / 100 * 100] is [56.99999999999999], below the threshold, and
    nothing fires. *)
Lemma scroll_zero_threshold_counterexample :
  isMobile (b_options zeroPercent) tenPercentScrolled = true
  /\ 0 <= 100 / (1800 - 800) * 100
  /\ calls (exec (handleScroll zeroPercent) tenPercentScrolled)
     = calls tenPercentScrolled
  /\ isMobile (b_options fiftySevenPercent) fiftySevenOfHundred = true
  /\ 57 <= 57 / (900 - 800) * 100
  /\ calls (exec (handleScroll fiftySevenPercent) fiftySevenOfHundred)
     = calls fiftySevenOfHundred.
Proof. repeat split; try discriminate; vm_compute; reflexivity. Qed.

(** C5 (amended). A scroll event fires the callback iff the flag matching
    the classification (mobile-scroll on Mobile, desktop-scroll on
    Desktop) holds and the percentage is at least [percentThreshold || 30]:
    the configured threshold when it is not zero, 30 when it is zero or
    absent. The percentage is computed in doubles: [scrollTop / docHeight]
    rounded to the nearest double, times 100, rounded again. When
    [docHeight] and [scrollTop] are both zero the quotient is [NaN] and
    nothing fires. *)
Theorem scroll_fires_iff (env : Bindings) (w : World) (ts : TriggerScroll) :
  triggerScroll (b_options env) = Some ts ->
  let flag :=
    if isMobile (b_options env) w then ts_mobile ts else ts_desktop ts in
  let scrollTop := scrollY (window w) in
  let docHeight := scrollHeight (document w) - innerHeight (window w) in
  let percent := times100 (double (scrollTop / docHeight)) in
  let after := calls (exec (handleScroll env) w) in
  (after = S (calls w) \/ after = calls w)
  /\ (forall p, ts_percentThreshold ts = Some (Fin p) -> ~ p == 0 ->
      ~ docHeight == 0 ->
      (after = S (calls w) <->
       flag = true /\ num_le (Fin p) percent = true))
  /\ (ts_percentThreshold ts = None
      \/ (exists p, ts_percentThreshold ts = Some (Fin p) /\ p == 0) ->
      ~ docHeight == 0 ->
      (after = S (calls w) <->
       flag = true /\ num_le (Fin 30) percent = true))
  /\ (docHeight == 0 -> scrollTop == 0 -> after = calls w).
Proof.
  intros Hts flag scrollTop docHeight percent after.
  assert (Hafter := handleScroll_calls env w ts Hts).
  fold after in Hafter. rewrite flag_eligible in Hafter. fold flag in Hafter.
  assert (Hfire : forall b : bool,
             after = (if flag && b then S (calls w) else calls w) ->
             (after = S (calls w) <-> flag = true /\ b = true)).
  { intros b ->. destruct flag, b; simpl; split; try tauto; try lia.
    all: intros [? ?]; discriminate. }
  split; [|split; [|split]].
  - destruct (flag && _); auto.
  - intros p Hp Hpz Hd.
    rewrite (scrollPercent_scrollable w Hd), Hp in Hafter.
    rewrite (num_or_fin_nonzero _ _ Hpz) in Hafter.
    exact (Hfire _ Hafter).
  - intros Hp Hd.
    rewrite (scrollPercent_scrollable w Hd) in Hafter.
    assert (Hthr : num_or (ts_percentThreshold ts) 30 = Fin 30).
    { destruct Hp as [-> | (p & -> & Hz)]; [reflexivity|].
      by apply num_or_fin_zero. }
    rewrite Hthr in Hafter.
    exact (Hfire _ Hafter).
  - intros Hd Hs.
    rewrite (scrollPercent_not_scrollable w Hd Hs) in Hafter.
    rewrite Hafter. unfold num_ge, num_le.
    destruct (num_or _ _), flag; reflexivity.
Qed.

(** The same viewport scrolled 35 %. *)
Definition thirtyFivePercentScrolled : World :=
  page {| innerWidth := 400; innerHeight := 800; scrollY := 350 |}
       {| title := "Home"; hidden := false; scrollHeight := 1800 |}
       emptyStore.

Lemma scroll_fires_iff_witness :
  calls (exec (handleScroll defaultBindings) thirtyFivePercentScrolled) = 1%nat.
Proof.
  pose proof (scroll_fires_iff defaultBindings thirtyFivePercentScrolled
                _ eq_refl) as (_ & H & _).
  apply (H 30 eq_refl); [discriminate | discriminate |].
  split; [reflexivity | vm_compute; reflexivity].
Defined.

End ScrollDepth.

(** ** What a handler leaves untouched *)

Lemma invoke_frame (e : DomEvent) (w : World) (l : Listener) :
  listeners (invoke e w l) = listeners w
  /\ window (invoke e w l) = window w
  /\ hidden (document (invoke e w l)) = hidden (document w)
  /\ scrollHeight (document (invoke e w l)) = scrollHeight (document w)
  /\ clock (invoke e w l) = clock w
  /\ cleanup (fiber (invoke e w l)) = cleanup (fiber w)
  /\ mounted (fiber (invoke e w l)) = mounted (fiber w)
  /\ props (fiber (invoke e w l)) = props (fiber w)
  /\ committed (fiber (invoke e w l)) = committed (fiber w)
  /\ nextFn (fiber (invoke e w l)) = nextFn (fiber w).
Proof. destruct e; js_cases; repeat split; congruence. Qed.

(** ** The effect, case by case *)

Lemma effect_spec (fn : nat) (env : Bindings) (w : World) :
  effect fn env w =
    match gateCheck env w with
    | Satisfied => (Normal None, activated fn env w)
    | ReadRaised => (Throw StorageError, activated fn env w)
    | Unsatisfied =>
        match triggerScroll (b_options env) with
        | None =>
            (Throw TypeError, attach (pointerListener fn env) (activated fn env w))
        | Some ts =>
            (Normal (Some (fn, b_options env)),
             attach (pointerListener fn env ++ scrollListener fn env ts)
                    (activated fn env w))
        end
    end.
Proof.
  unfold gateCheck, activated, attach, pointerListener, scrollListener. js.
  destruct (mounted (fiber w)); simpl;
    (destruct (hasTriggered (b_cells env)); simpl; [reflexivity|]);
    (destruct (storeInUserSession (b_options env)); simpl;
     [destruct (sessionStorage w) as [|items [] s]; simpl;
      [| reflexivity | destruct (item_truthy _); simpl; [reflexivity|]] |]);
    destruct (triggerMouseMove (b_options env)); simpl;
    (destruct (triggerScroll (b_options env)) as [ts|]; simpl;
     [destruct (ts_mobile ts || ts_desktop ts); simpl|]);
    rewrite <- ?app_assoc, ?app_nil_r; reflexivity.
Qed.

Lemma activated_frame (fn : nat) (env : Bindings) (w : World) :
  listeners (activated fn env w) = listeners w ++ [visibilityListener fn env]
  /\ calls (activated fn env w) = calls w
  /\ sessionStorage (activated fn env w) = sessionStorage w
  /\ timers (activated fn env w) = timers w
  /\ nextTimer (activated fn env w) = nextTimer w
  /\ clock (activated fn env w) = clock w
  /\ document (activated fn env w) = document w
  /\ window (activated fn env w) = window w
  /\ uncaught (activated fn env w) = uncaught w
  /\ mounted (fiber (activated fn env w)) = mounted (fiber w)
  /\ props (fiber (activated fn env w)) = props (fiber w)
  /\ committed (fiber (activated fn env w)) = committed (fiber w)
  /\ cleanup (fiber (activated fn env w)) = cleanup (fiber w)
  /\ nextFn (fiber (activated fn env w)) = nextFn (fiber w)
  /\ hasTriggered (cells (fiber (activated fn env w)))
     = hasTriggered (cells (fiber w))
  /\ timeoutId (cells (fiber (activated fn env w)))
     = timeoutId (cells (fiber w))
  /\ (mounted (fiber w) = true ->
      originalTitle (cells (fiber (activated fn env w))) = documentTitle w).
Proof.
  unfold activated. js. destruct (mounted (fiber w)) eqn:E; simpl;
    repeat split; intros; try reflexivity; try discriminate; assumption.
Qed.

(** ** The cleanup *)

Lemma filter_foreign (ty : EventType) (fn : nat) (ls : list Listener) :
  Forall (fun l => l_fn l <> fn) ls ->
  List.filter (fun l => negb (same_listener ty fn l)) ls = ls.
Proof.
  induction 1 as [|l ls Hl _ IH]; simpl; [reflexivity|].
  unfold same_listener at 1.
  destruct (Nat.eqb_spec (l_fn l) fn); [contradiction|].
  rewrite andb_false_r. simpl. by rewrite IH.
Qed.

Lemma same_listener_mk (ty ty' : EventType) (fn : nat) (env : Bindings) :
  same_listener ty fn {| l_type := ty'; l_fn := fn; l_env := env |}
  = bool_decide (ty' = ty).
Proof.
  unfold same_listener. simpl. rewrite Nat.eqb_refl. apply andb_true_r.
Qed.

(** The cleanup removes exactly what its effect run registered. *)
Lemma cleanup_removes (fn : nat) (env : Bindings) (ts : TriggerScroll)
    (kept : list Listener) (w : World) :
  triggerScroll (b_options env) = Some ts ->
  listeners w = kept ++ registered fn env ts ->
  Forall (fun l => l_fn l <> fn) kept ->
  effectCleanup (fn, b_options env) w = (Normal tt, with_listeners kept w).
Proof.
  intros Hts Hls Hkept.
  unfold effectCleanup, registered, pointerListener, scrollListener,
    visibilityListener in *.
  js. rewrite Hts.
  destruct (triggerMouseMove (b_options env));
    destruct (ts_mobile ts || ts_desktop ts); simpl;
    unfold with_listeners; simpl; rewrite Hls; f_equal; f_equal;
    rewrite ?List.filter_app, ?(filter_foreign _ _ _ Hkept); simpl;
    repeat (rewrite ?same_listener_mk; repeat case_bool_decide;
            simplify_eq; simpl);
    by rewrite app_nil_r.
Qed.

(** ** One commit *)

Lemma gateCheck_storage (env : Bindings) (w w' : World) :
  sessionStorage w' = sessionStorage w -> gateCheck env w' = gateCheck env w.
Proof. unfold gateCheck. by intros ->. Qed.

(** The commit of a mounted component, field by field; [w1] is the world
    the previous cleanup left. *)
Lemma commitEffect_cases (w w1 : World) :
  runCleanup w = w1 -> fiber w1 = fiber w -> mounted (fiber w) = true ->
  let f := fiber w in
  let env := {| b_options := props f; b_cells := cells f |} in
  let fn := nextFn f in
  let w' := commitEffect w in
  calls w' = calls w1
  /\ sessionStorage w' = sessionStorage w1
  /\ timers w' = timers w1
  /\ nextTimer w' = nextTimer w1
  /\ clock w' = clock w1
  /\ document w' = document w1
  /\ window w' = window w1
  /\ props (fiber w') = props f
  /\ committed (fiber w') = cells f
  /\ nextFn (fiber w') = S fn
  /\ cells (fiber w') =
       {| hasTriggered := hasTriggered (cells f);
          originalTitle := documentTitle w1;
          timeoutId := timeoutId (cells f) |}
  /\ match gateCheck env w1 with
     | Satisfied =>
         mounted (fiber w') = true /\ cleanup (fiber w') = None
         /\ listeners w' = listeners w1 ++ [visibilityListener fn env]
         /\ uncaught w' = uncaught w1
     | ReadRaised =>
         mounted (fiber w') = false /\ cleanup (fiber w') = None
         /\ listeners w' = listeners w1 ++ [visibilityListener fn env]
         /\ uncaught w' = uncaught w1 ++ [StorageError]
     | Unsatisfied =>
         match triggerScroll (props f) with
         | Some ts =>
             mounted (fiber w') = true
             /\ cleanup (fiber w') = Some (fn, props f)
             /\ listeners w' = listeners w1 ++ registered fn env ts
             /\ uncaught w' = uncaught w1
         | None =>
             mounted (fiber w') = false /\ cleanup (fiber w') = None
             /\ listeners w' =
                  listeners w1 ++ visibilityListener fn env :: pointerListener fn env
             /\ uncaught w' = uncaught w1 ++ [TypeError]
         end
     end.
Proof.
  intros Hclean Hfiber Hm f env fn w'. subst w'.
  unfold commitEffect. rewrite Hclean, Hfiber. fold f. fold env. fold fn.
  rewrite effect_spec.
  rewrite (gateCheck_storage env w1) by reflexivity.
  unfold activated, attach, registered. js. simpl.
  assert (Hm' : mounted f = true) by exact Hm. rewrite Hm'. simpl.
  destruct (gateCheck env w1); simpl.
  - repeat split; reflexivity.
  - destruct (triggerScroll (props f)) as [ts|]; simpl;
      rewrite <- ?app_assoc; repeat split; reflexivity.
  - repeat split; reflexivity.
Qed.

(** ** Dispatching one event *)

Lemma fold_invoke_ind (P : World -> Prop) (e : DomEvent) (ls : list Listener) :
  (forall w l, P w -> P (invoke e w l)) ->
  forall w, P w -> P (fold_left (invoke e) ls w).
Proof.
  intros Hstep. induction ls as [|l ls IH]; intros w Hw; simpl; [exact Hw|].
  apply IH, Hstep, Hw.
Qed.

Lemma dispatch_frame (e : DomEvent) (w : World) :
  listeners (dispatch e w) = listeners w
  /\ window (dispatch e w) = window w
  /\ hidden (document (dispatch e w)) = hidden (document w)
  /\ scrollHeight (document (dispatch e w)) = scrollHeight (document w)
  /\ clock (dispatch e w) = clock w
  /\ cleanup (fiber (dispatch e w)) = cleanup (fiber w)
  /\ mounted (fiber (dispatch e w)) = mounted (fiber w)
  /\ props (fiber (dispatch e w)) = props (fiber w)
  /\ committed (fiber (dispatch e w)) = committed (fiber w)
  /\ nextFn (fiber (dispatch e w)) = nextFn (fiber w).
Proof.
  unfold dispatch.
  apply (fold_invoke_ind (fun w' =>
    listeners w' = listeners w
    /\ window w' = window w
    /\ hidden (document w') = hidden (document w)
    /\ scrollHeight (document w') = scrollHeight (document w)
    /\ clock w' = clock w
    /\ cleanup (fiber w') = cleanup (fiber w)
    /\ mounted (fiber w') = mounted (fiber w)
    /\ props (fiber w') = props (fiber w)
    /\ committed (fiber w') = committed (fiber w)
    /\ nextFn (fiber w') = nextFn (fiber w))).
  - intros w' l H. pose proof (invoke_frame e w' l) as F.
    destruct H as (?&?&?&?&?&?&?&?&?&?), F as (?&?&?&?&?&?&?&?&?&?).
    repeat split; congruence.
  - repeat split.
Qed.

(** The visibility handler never calls [onTrigger] and never touches the
    session store or the other two cells. *)
Lemma invoke_visibility (w : World) (l : Listener) :
  let w' := invoke VisibilityChangeEvent w l in
  calls w' = calls w
  /\ sessionStorage w' = sessionStorage w
  /\ hasTriggered (cells (fiber w')) = hasTriggered (cells (fiber w))
  /\ originalTitle (cells (fiber w')) = originalTitle (cells (fiber w)).
Proof. js_cases; repeat split; congruence. Qed.

Lemma markerPresent_insert (items : gmap string string) (s : bool) :
  markerPresent (Storage (<[SESSION_STORAGE_CTA_KEY := "true"]> items) false s).
Proof.
  eexists _, s. split; [reflexivity|]. by rewrite lookup_insert_eq.
Qed.

(** A pointer or scroll handler calls [onTrigger] at most once, and when it
    does, [hasTriggered] is set; it leaves the title, the timers and the
    other two cells alone. *)
Lemma invoke_detector (e : DomEvent) (w : World) (l : Listener) :
  e <> VisibilityChangeEvent ->
  let w' := invoke e w l in
  (calls w' = calls w
   \/ (calls w' = S (calls w)
       /\ (mounted (fiber w) = true -> hasTriggered (cells (fiber w')) = true)))
  /\ (hasTriggered (cells (fiber w)) = true ->
      hasTriggered (cells (fiber w')) = true)
  /\ originalTitle (cells (fiber w')) = originalTitle (cells (fiber w))
  /\ timeoutId (cells (fiber w')) = timeoutId (cells (fiber w))
  /\ document w' = document w
  /\ timers w' = timers w
  /\ nextTimer w' = nextTimer w
  /\ (markerPresent (sessionStorage w) -> markerPresent (sessionStorage w')).
Proof.
  intros He. destruct e; [done| |]; js_cases;
    repeat split; intros; simplify_eq; auto;
    try (right; split; [reflexivity | intros; congruence]);
    try congruence.
  all: match goal with H : markerPresent _ |- _ =>
         destruct H as (items' & s' & Hs & Hi) end.
  all: match goal with H : sessionStorage _ = Storage _ _ _ |- _ =>
         rewrite Hs in H; injection H as ? ? ?; subst end.
  all: apply markerPresent_insert.
Qed.

(** ** Time *)

Lemma fire_timers_frame (due : list Timer) (w : World) :
  let w' := fold_left (fun w t => with_title (t_title t) w) due w in
  listeners w' = listeners w /\ window w' = window w
  /\ hidden (document w') = hidden (document w)
  /\ scrollHeight (document w') = scrollHeight (document w)
  /\ sessionStorage w' = sessionStorage w /\ calls w' = calls w
  /\ uncaught w' = uncaught w /\ fiber w' = fiber w
  /\ timers w' = timers w /\ nextTimer w' = nextTimer w /\ clock w' = clock w
  /\ (due = [] -> title (document w') = title (document w)).
Proof.
  revert w. induction due as [|t due IH]; intros w; simpl.
  - repeat split.
  - destruct (IH (with_title (t_title t) w)) as (?&?&?&?&?&?&?&?&?&?&?&?).
    simpl in *. repeat split; congruence.
Qed.

Lemma tick_frame (w : World) :
  listeners (tick w) = listeners w /\ window (tick w) = window w
  /\ hidden (document (tick w)) = hidden (document w)
  /\ scrollHeight (document (tick w)) = scrollHeight (document w)
  /\ sessionStorage (tick w) = sessionStorage w /\ calls (tick w) = calls w
  /\ uncaught (tick w) = uncaught w /\ fiber (tick w) = fiber w
  /\ nextTimer (tick w) = nextTimer w.
Proof.
  unfold tick.
  match goal with |- context [fold_left ?f ?due ?w0] =>
    destruct (fire_timers_frame due w0) as (?&?&?&?&?&?&?&?&?&?&?&?) end.
  simpl in *. repeat split; congruence.
Qed.

Lemma advance_frame (ms : nat) (w : World) :
  listeners (advance ms w) = listeners w /\ window (advance ms w) = window w
  /\ hidden (document (advance ms w)) = hidden (document w)
  /\ scrollHeight (document (advance ms w)) = scrollHeight (document w)
  /\ sessionStorage (advance ms w) = sessionStorage w
  /\ calls (advance ms w) = calls w
  /\ uncaught (advance ms w) = uncaught w /\ fiber (advance ms w) = fiber w
  /\ nextTimer (advance ms w) = nextTimer w.
Proof.
  induction ms as [|ms IH]; simpl; [repeat split|].
  destruct IH as (?&?&?&?&?&?&?&?&?).
  destruct (tick_frame (advance ms w)) as (?&?&?&?&?&?&?&?&?).
  unfold advance in *. repeat split; congruence.
Qed.

(** ** Settling *)

(** Two commits are enough: the second effect run captures the same title
    as the first, so the cells are stable after it. *)
Lemma settle_cases (w : World) :
  settle w = w /\ dirty w = false
  \/ settle w = commitEffect w /\ dirty w = true
     /\ dirty (commitEffect w) = false
  \/ settle w = commitEffect (commitEffect w) /\ dirty w = true
     /\ dirty (commitEffect w) = true.
Proof.
  unfold settle. simpl.
  destruct (dirty w); [|by left].
  destruct (dirty (commitEffect w)); [right; right | right; left]; done.
Qed.

Lemma dirty_mounted (w : World) : dirty w = true -> mounted (fiber w) = true.
Proof. unfold dirty. by intros [? _]%andb_prop. Qed.

Lemma settle_inv (M I : World -> Prop) :
  (forall w, I w -> M w) ->
  (forall w, M w -> dirty w = true -> I (commitEffect w)) ->
  (forall w, M w -> dirty w = false -> I w) ->
  forall w, M w -> I (settle w).
Proof.
  intros HIM Hcommit Hclean w Hw.
  destruct (settle_cases w) as [(-> & ?) | [(-> & ? & ?) | (-> & ? & ?)]].
  - by apply Hclean.
  - apply Hcommit; auto.
  - apply Hcommit; auto.
Qed.

Lemma runCleanup_frame (w : World) :
  fiber (runCleanup w) = fiber w /\ calls (runCleanup w) = calls w
  /\ sessionStorage (runCleanup w) = sessionStorage w
  /\ timers (runCleanup w) = timers w
  /\ nextTimer (runCleanup w) = nextTimer w
  /\ clock (runCleanup w) = clock w
  /\ document (runCleanup w) = document w
  /\ window (runCleanup w) = window w.
Proof.
  unfold runCleanup. destruct (cleanup (fiber w)) as [[fn o]|]; [|repeat split].
  unfold effectCleanup. js.
  destruct (triggerMouseMove o); simpl;
    (destruct (triggerScroll o) as [ts|]; simpl;
     [destruct (ts_mobile ts || ts_desktop ts); simpl|]);
    repeat split.
Qed.

Lemma runCleanup_none (w : World) :
  cleanup (fiber w) = None -> runCleanup w = w.
Proof. unfold runCleanup. by intros ->. Qed.

(** What a commit does to everything but the listeners. *)
Lemma commitEffect_frame (w : World) :
  mounted (fiber w) = true ->
  let w' := commitEffect w in
  calls w' = calls w
  /\ sessionStorage w' = sessionStorage w
  /\ timers w' = timers w
  /\ nextTimer w' = nextTimer w
  /\ clock w' = clock w
  /\ document w' = document w
  /\ window w' = window w
  /\ props (fiber w') = props (fiber w)
  /\ committed (fiber w') = cells (fiber w)
  /\ nextFn (fiber w') = S (nextFn (fiber w))
  /\ cells (fiber w') =
       {| hasTriggered := hasTriggered (cells (fiber w));
          originalTitle := documentTitle w;
          timeoutId := timeoutId (cells (fiber w)) |}.
Proof.
  intros Hm w'.
  destruct (runCleanup_frame w) as (Hf & Hc & Hs & Ht & Hn & Hk & Hd & Hw).
  destruct (commitEffect_cases w (runCleanup w) eq_refl Hf Hm)
    as (?&?&?&?&?&?&?&?&?&?&?&_).
  subst w'. unfold documentTitle in *. repeat split; congruence.
Qed.

(** After one commit the cells hold the title the document shows, so a
    second commit leaves them as they are: [settle] reaches a world in
    which nothing is left to flush. *)
Lemma settle_stable (w : World) : dirty (settle w) = false.
Proof.
  pose proof dirty_mounted as Hd.
  destruct (settle_cases w) as [(-> & ?) | [(-> & ? & ?) | (-> & H1 & H2)]];
    [done | done |].
  pose proof (commitEffect_frame w (Hd _ H1)) as (_&_&_&_&_&Hdoc&_&_&_&_&Hc).
  pose proof (commitEffect_frame _ (Hd _ H2)) as (_&_&_&_&_&_&_&_&Hcm&_&Hc').
  assert (E : cells (fiber (commitEffect (commitEffect w)))
              = committed (fiber (commitEffect (commitEffect w)))).
  { unfold documentTitle in *. rewrite Hc', Hcm, Hdoc. by rewrite Hc. }
  unfold dirty. rewrite (bool_decide_eq_true_2 _ E). apply andb_false_r.
Qed.

(** ** Invariants of a run *)

Lemma run_invariant (ok : Event -> Prop) (I : World -> Prop) :
  (forall w e, ok e -> I w -> I (step w e)) ->
  forall events w, Forall ok events -> I w -> I (run w events).
Proof.
  intros Hstep. unfold run.
  induction events as [|e events IH]; intros w Hok Hw; simpl; [exact Hw|].
  inversion Hok; subst. apply IH; [assumption|]. by apply Hstep.
Qed.

(** ** Activation with the session marker present *)

Section MarkerPresent.

Lemma listening_none (ty : EventType) (w : World) :
  Forall (fun l => l_type l <> ty) (listeners w) -> listening ty w = [].
Proof.
  unfold listening. induction 1 as [|l ls Hl _ IH]; simpl; [reflexivity|].
  by rewrite bool_decide_eq_false_2.
Qed.

Lemma gateCheck_marker (env : Bindings) (w : World) :
  storeInUserSession (b_options env) = true ->
  markerPresent (sessionStorage w) ->
  gateCheck env w = Satisfied.
Proof.
  intros Hs (items & s & Hst & Hi). unfold gateCheck.
  rewrite Hs, Hst, Hi. by destruct (hasTriggered _).
Qed.

(** The parent keeps persistence enabled when it re-renders. *)
Definition keepsPersistence (e : Event) : Prop :=
  match e with
  | Rerender supplied => storeInUserSession (resolveOptions supplied) = true
  | _ => True
  end.

Definition onlyVisibility (w : World) : Prop :=
  Forall (fun l => l_type l = visibilitychange) (listeners w).

(** What holds between two events of such an instance. *)
Definition skipped (w : World) : Prop :=
  calls w = 0
  /\ cleanup (fiber w) = None
  /\ onlyVisibility w
  /\ listening visibilitychange w <> []
  /\ markerPresent (sessionStorage w)
  /\ storeInUserSession (props (fiber w)) = true.

(** Before the first commit no visibility listener is there yet. *)
Definition skippable (w : World) : Prop :=
  calls w = 0
  /\ cleanup (fiber w) = None
  /\ onlyVisibility w
  /\ markerPresent (sessionStorage w)
  /\ storeInUserSession (props (fiber w)) = true.

Lemma skipped_skippable (w : World) : skipped w -> skippable w.
Proof. unfold skipped, skippable. tauto. Qed.

Lemma skippable_commit (w : World) :
  skippable w -> mounted (fiber w) = true -> skipped (commitEffect w).
Proof.
  intros (Hc & Hcl & Hv & Hm & Hs) Hmounted.
  pose proof (commitEffect_cases w w (runCleanup_none w Hcl) eq_refl Hmounted)
    as (Hc' & Hs' & _ & _ & _ & _ & _ & Hp & _ & _ & _ & Hg).
  rewrite gateCheck_marker in Hg by (simpl; assumption).
  destruct Hg as (_ & Hcl' & Hls & _).
  unfold skipped, onlyVisibility, listening.
  rewrite Hc', Hs', Hp, Hls, List.filter_app. simpl.
  repeat split; try assumption.
  - apply Forall_app. split; [exact Hv | by constructor].
  - intros [_ H]%app_eq_nil. discriminate.
Qed.

Lemma skipped_settle (w : World) : skipped w -> skipped (settle w).
Proof.
  intros H.
  destruct (settle_cases w) as [(-> & ?) | [(-> & Hd & ?) | (-> & Hd & Hd')]];
    [done | |].
  - apply skippable_commit; [by apply skipped_skippable|].
    unfold dirty in Hd. by apply andb_prop in Hd as [? _].
  - apply skippable_commit.
    + apply skipped_skippable, skippable_commit;
        [by apply skipped_skippable|].
      unfold dirty in Hd. by apply andb_prop in Hd as [? _].
    + unfold dirty in Hd'. by apply andb_prop in Hd' as [? _].
Qed.

Lemma skipped_dispatch (e : DomEvent) (w : World) :
  skipped w -> skipped (dispatch e w).
Proof.
  intros H.
  assert (Hd : event_type e <> visibilitychange -> skipped (dispatch e w)).
  { intros He. unfold dispatch. rewrite listening_none; [exact H|].
    destruct H as (_ & _ & Hv & _).
    eapply Forall_impl; [exact Hv|]. simpl. by intros l ->. }
  destruct e; [|by apply Hd..].
  - unfold dispatch.
    apply (fold_invoke_ind skipped); [|exact H].
    intros w' l (Hc & Hcl & Hv & Hl & Hm & Hs).
    destruct (invoke_frame VisibilityChangeEvent w' l)
      as (Fl & _ & _ & _ & _ & Fc & _ & Fp & _).
    destruct (invoke_visibility w' l) as (Vc & Vs & _).
    unfold skipped, onlyVisibility, listening in *.
    rewrite Fl, Fc, Fp, Vc, Vs. tauto.
Qed.

Lemma skipped_step (w : World) (e : Event) :
  keepsPersistence e -> skipped w -> skipped (step w e).
Proof.
  intros He H. destruct e; simpl in *.
  - apply skipped_settle, skipped_dispatch. exact H.
  - apply skipped_settle, skipped_dispatch. exact H.
  - apply skipped_settle, skipped_dispatch. exact H.
  - exact H.
  - exact H.
  - destruct (advance_frame ms w) as (Fl & _ & _ & _ & Fs & Fc & _ & Ff & _).
    unfold skipped, onlyVisibility, listening in *.
    rewrite Fl, Fs, Fc, Ff. exact H.
  - destruct (mounted (fiber w)) eqn:Hm; [|exact H].
    apply skipped_settle, skippable_commit; [|exact Hm].
    destruct H as (?&?&?&?&?&?). repeat split; assumption.
  - destruct (mounted (fiber w)) eqn:Hm; [|exact H].
    destruct H as (?&Hcl&?&?&?&?).
    rewrite (runCleanup_none w Hcl).
    repeat split; assumption.
Qed.

Lemma skipped_run (events : list Event) (w : World) :
  Forall keepsPersistence events -> skipped w -> skipped (run w events).
Proof.
  apply (run_invariant keepsPersistence skipped).
  intros w0 e. apply skipped_step.
Qed.

(** C3. With [storeInUserSession] on and the session marker present, every
    run of the effect takes the early return after registering the
    visibility listener and nothing else; from the first render on, and
    through every re-render that keeps persistence on, no pointer or
    scroll listener is ever registered, [onTrigger] is never called, and a
    visibility listener is registered. *)
Theorem marker_present_skips_detectors
    (supplied : option Options) (win : Window) (doc : Document)
    (items : gmap string string) (setRaises : bool) (events : list Event) :
  storeInUserSession (resolveOptions supplied) = true ->
  item_truthy (items !! SESSION_STORAGE_CTA_KEY) = true ->
  Forall keepsPersistence events ->
  let store := Storage items false setRaises in
  (forall fn cs w,
     sessionStorage w = store ->
     let env := {| b_options := resolveOptions supplied; b_cells := cs |} in
     effect fn env w = (Normal None, activated fn env w)
     /\ listeners (activated fn env w)
        = listeners w ++ [visibilityListener fn env]
     /\ calls (activated fn env w) = calls w)
  /\ (let w := run (useDontLeave supplied (page win doc store)) events in
      calls w = 0
      /\ listening mousemove w = []
      /\ listening scroll w = []
      /\ listening visibilitychange w <> []).
Proof.
  intros Hs Hi Hev store. split.
  - intros fn cs w Hst env.
    rewrite effect_spec, gateCheck_marker.
    + destruct (activated_frame fn env w) as (?&?&_). auto.
    + exact Hs.
    + rewrite Hst. by exists items, setRaises.
  - assert (H : skipped (run (useDontLeave supplied (page win doc store)) events)).
    { apply skipped_run; [exact Hev|].
      apply skipped_settle, skippable_commit; [|reflexivity].
      unfold skippable, onlyVisibility. simpl.
      split; [reflexivity|]. split; [reflexivity|].
      split; [constructor|]. split; [by exists items, setRaises|].
      exact Hs. }
    destruct H as (Hc & _ & Hv & Hl & _).
    repeat split; try assumption.
    + apply listening_none. eapply Forall_impl; [exact Hv|].
      simpl. by intros l ->.
    + apply listening_none. eapply Forall_impl; [exact Hv|].
      simpl. by intros l ->.
Qed.

Definition busySession : list Event :=
  [MouseMove 100 10; Scroll 2000; VisibilityChange true; Advance 300;
   Rerender None; VisibilityChange false; MouseMove 100 10].

Lemma marker_present_skips_detectors_witness :
  calls (run (useDontLeave None (homePage markedStore)) busySession) = 0
  /\ listening mousemove
       (run (useDontLeave None (homePage markedStore)) busySession) = []
  /\ listening scroll
       (run (useDontLeave None (homePage markedStore)) busySession) = []
  /\ listening visibilitychange
       (run (useDontLeave None (homePage markedStore)) busySession) <> [].
Proof.
  refine (proj2 (marker_present_skips_detectors None
                   {| innerWidth := 1024; innerHeight := 800; scrollY := 0 |}
                   {| title := "Home"; hidden := false; scrollHeight := 3000 |}
                   {[ SESSION_STORAGE_CTA_KEY := "true" ]} false busySession
                   eq_refl eq_refl _)).
  repeat constructor.
Defined.

End MarkerPresent.

(** ** At most one call of [onTrigger] *)

Section AtMostOnce.

Lemma gateCheck_unsatisfied (env : Bindings) (w : World) :
  gateCheck env w = Unsatisfied -> hasTriggered (b_cells env) = false.
Proof. unfold gateCheck. by destruct (hasTriggered _). Qed.

Lemma filter_leaked (ty : EventType) (leaked : list Listener) :
  ty <> visibilitychange ->
  Forall (fun l => l_type l = visibilitychange) leaked ->
  List.filter (fun l => bool_decide (l_type l = ty)) leaked = [].
Proof.
  intros Hty. induction 1 as [|l ls Hl _ IH]; simpl; [reflexivity|].
  rewrite bool_decide_eq_false_2 by congruence. exact IH.
Qed.

(** Of what an effect run registered, the pointer events reach the
    pointer listener and the scroll events the scroll listener. *)
Lemma listening_registered (w : World) (leaked : list Listener) (fn : nat)
    (env : Bindings) (ts : TriggerScroll) :
  listeners w = leaked ++ registered fn env ts ->
  Forall (fun l => l_type l = visibilitychange) leaked ->
  listening mousemove w = pointerListener fn env
  /\ listening scroll w = scrollListener fn env ts.
Proof.
  intros Hls Hleaked. unfold listening. rewrite Hls, !List.filter_app.
  rewrite (filter_leaked mousemove), (filter_leaked scroll) by done.
  unfold registered, pointerListener, scrollListener.
  destruct (triggerMouseMove _), (ts_mobile ts || ts_desktop ts);
    simpl; repeat case_bool_decide; simplify_eq; done.
Qed.

(** The parent always passes an options object that has [triggerScroll]. *)
Definition suppliesTriggerScroll (e : Event) : Prop :=
  match e with
  | Rerender supplied => is_Some (triggerScroll (resolveOptions supplied))
  | _ => True
  end.

(** The trigger gate as the code implements it. Pointer and scroll listeners
    exist only while a cleanup owns them, and a cleanup exists only for an
    effect run that saw [hasTriggered = false]. Between two events
    ([stable]) that means no call has happened yet; right after a handler
    fired, the cleanup is still pending but [hasTriggered] is set. *)
Definition gated (stable : bool) (w : World) : Prop :=
  calls w <= 1
  /\ is_Some (triggerScroll (props (fiber w)))
  /\ (calls w = 1 -> mounted (fiber w) = true ->
      hasTriggered (cells (fiber w)) = true)
  /\ exists leaked,
      Forall (fun l => l_type l = visibilitychange) leaked
      /\ Forall (fun l => l_fn l < nextFn (fiber w)) leaked
      /\ match cleanup (fiber w) with
         | Some (fn, o) =>
             mounted (fiber w) = true
             /\ hasTriggered (committed (fiber w)) = false
             /\ fn < nextFn (fiber w)
             /\ (stable = true -> calls w = 0)
             /\ Forall (fun l => l_fn l <> fn) leaked
             /\ exists env ts,
                 b_options env = o /\ triggerScroll o = Some ts
                 /\ listeners w = leaked ++ registered fn env ts
         | None => listeners w = leaked
         end.

Lemma gated_weaken (w : World) : gated true w -> gated false w.
Proof.
  intros (?&?&?&leaked&?&?&H). repeat split; try assumption.
  exists leaked. repeat split; try assumption.
  destruct (cleanup (fiber w)) as [[fn o]|]; [|exact H].
  destruct H as (?&?&?&_&?&?). repeat split; try assumption. discriminate.
Qed.

Lemma gated_clean (w : World) :
  gated false w -> dirty w = false -> gated true w.
Proof.
  intros (Hc&Hp&Ht&leaked&Hv&Hn&H) Hd. repeat split; try assumption.
  exists leaked. repeat split; try assumption.
  destruct (cleanup (fiber w)) as [[fn o]|]; [|exact H].
  destruct H as (Hm&Hcm&?&_&?&?). repeat split; try assumption.
  intros _. unfold dirty in Hd. rewrite Hm in Hd. simpl in Hd.
  apply negb_false_iff, bool_decide_eq_true in Hd.
  rewrite <- Hd in Hcm.
  destruct (decide (calls w = 1)) as [E|E]; [|lia].
  specialize (Ht E Hm). congruence.
Qed.

(** The pending cleanup removes the detectors it owns. *)
Lemma gated_cleanup (stable : bool) (w : World) :
  gated stable w ->
  exists leaked,
    Forall (fun l => l_type l = visibilitychange) leaked
    /\ Forall (fun l => l_fn l < nextFn (fiber w)) leaked
    /\ runCleanup w = with_listeners leaked w.
Proof.
  intros (_&_&_&leaked&Hv&Hn&H). exists leaked.
  split; [exact Hv|]. split; [exact Hn|].
  unfold runCleanup.
  destruct (cleanup (fiber w)) as [[fn o]|].
  - destruct H as (_&_&_&_&Hne&env&ts&<-&Hts&Hls).
    by rewrite (cleanup_removes fn env ts leaked w Hts Hls Hne).
  - rewrite <- H. by destruct w.
Qed.

Lemma gated_commit (w : World) :
  gated false w -> mounted (fiber w) = true -> gated true (commitEffect w).
Proof.
  intros Hg Hm.
  destruct (gated_cleanup _ _ Hg) as (leaked & Hv & Hn & Hclean).
  destruct Hg as (Hc&[ts Hts]&Ht&_).
  pose proof (commitEffect_cases w _ Hclean eq_refl Hm)
    as (Hc'&_&_&_&_&_&_&Hp&Hcm&Hfn&Hcells&Hg).
  simpl in *. rewrite Hts in Hg.
  assert (Hn' : Forall (fun l => l_fn l < S (nextFn (fiber w))) leaked).
  { eapply Forall_impl; [exact Hn|]. simpl. lia. }
  unfold gated. rewrite Hc', Hp, Hfn, Hcells. simpl.
  split; [exact Hc|]. split; [by exists ts|].
  destruct (gateCheck _ _) eqn:Hgate.
  - destruct Hg as (Hm'&Hcl&Hls&_). rewrite Hm', Hcl, Hls.
    split; [intros E _; exact (Ht E Hm)|].
    eexists. split; [|split; [|reflexivity]].
    + apply Forall_app. split; [exact Hv | by constructor].
    + apply Forall_app. split; [exact Hn'|]. constructor; [simpl; lia|done].
  - destruct Hg as (Hm'&Hcl&Hls&_). rewrite Hm', Hcl, Hls.
    apply gateCheck_unsatisfied in Hgate. simpl in Hgate.
    split; [intros E _; exact (Ht E Hm)|].
    exists leaked. split; [exact Hv|]. split; [exact Hn'|].
    rewrite Hcm. repeat split; try done; try lia.
    + intros _. destruct (decide (calls w = 1)) as [E|E]; [|lia].
      specialize (Ht E Hm). congruence.
    + eapply Forall_impl; [exact Hn|]. simpl. lia.
    + exists {| b_options := props (fiber w); b_cells := cells (fiber w) |}, ts.
      split; [reflexivity|]. split; [exact Hts|]. reflexivity.
  - destruct Hg as (Hm'&Hcl&Hls&_). rewrite Hm', Hcl, Hls.
    split; [discriminate|].
    eexists. split; [|split; [|reflexivity]].
    + apply Forall_app. split; [exact Hv | by constructor].
    + apply Forall_app. split; [exact Hn'|]. constructor; [simpl; lia|done].
Qed.

Lemma gated_settle (w : World) : gated false w -> gated true (settle w).
Proof.
  apply (settle_inv (gated false) (gated true)).
  - apply gated_weaken.
  - intros w0 H0 Hd. apply gated_commit; [exact H0 | by apply dirty_mounted].
  - apply gated_clean.
Qed.

(** [gated] reads the listeners, the fiber and the call count only. *)
Lemma gated_transport (stable : bool) (w w' : World) :
  listeners w' = listeners w ->
  cleanup (fiber w') = cleanup (fiber w) ->
  mounted (fiber w') = mounted (fiber w) ->
  props (fiber w') = props (fiber w) ->
  committed (fiber w') = committed (fiber w) ->
  nextFn (fiber w') = nextFn (fiber w) ->
  calls w' = calls w ->
  (hasTriggered (cells (fiber w)) = true ->
   hasTriggered (cells (fiber w')) = true) ->
  gated stable w -> gated stable w'.
Proof.
  intros Hl Hcl Hm Hp Hcm Hn Hc Hh (?&?&Ht&leaked&?&?&H).
  unfold gated. rewrite Hl, Hcl, Hm, Hp, Hcm, Hn, Hc.
  repeat split; try assumption; [by auto|].
  exists leaked. split; [assumption|]. split; [assumption|]. exact H.
Qed.

Lemma gated_invoke_detector (e : DomEvent) (w : World) (l : Listener) :
  e <> VisibilityChangeEvent ->
  calls w = 0 -> gated true w -> gated false (invoke e w l).
Proof.
  intros He Hz Hg. apply gated_weaken in Hg.
  destruct (invoke_frame e w l) as (Fl&_&_&_&_&Fcl&Fm&Fp&Fcm&Fn).
  destruct (invoke_detector e w l He) as (Hcalls&Hmono&_).
  destruct Hg as (?&?&Ht&leaked&?&?&H).
  unfold gated. rewrite Fl, Fcl, Fm, Fp, Fcm, Fn.
  split; [destruct Hcalls as [->| [-> _]]; lia|].
  split; [assumption|]. split.
  - intros E Hm. destruct Hcalls as [E'| [_ Hset]]; [lia | by apply Hset].
  - exists leaked. split; [assumption|]. split; [assumption|].
    destruct (cleanup (fiber w)) as [[fn o]|]; [|exact H].
    destruct H as (?&?&?&_&?&?). repeat split; try assumption. discriminate.
Qed.

Lemma gated_dispatch (e : DomEvent) (w : World) :
  gated true w -> gated false (dispatch e w).
Proof.
  intros Hg.
  assert (Hdet : e <> VisibilityChangeEvent ->
                 event_type e <> visibilitychange ->
                 (listening (event_type e) w = []
                  \/ exists l, listening (event_type e) w = [l]
                               /\ calls w = 0)).
  { intros He Hty. destruct Hg as (_&_&_&leaked&Hv&_&H).
    destruct (cleanup (fiber w)) as [[fn o]|].
    - destruct H as (_&_&_&Hz&_&env&ts&_&_&Hls).
      destruct (listening_registered w leaked fn env ts Hls Hv) as [Hp Hs].
      unfold pointerListener, scrollListener in *.
      destruct e; [done| |]; simpl.
      + rewrite Hp. destruct (triggerMouseMove _); eauto.
      + rewrite Hs. destruct (ts_mobile ts || ts_desktop ts); eauto.
    - left. unfold listening. rewrite H. by apply filter_leaked. }
  destruct e.
  - apply gated_weaken. unfold dispatch.
    apply (fold_invoke_ind (gated true)); [|exact Hg].
    intros w' l Hw'.
    destruct (invoke_frame VisibilityChangeEvent w' l)
      as (Fl&_&_&_&_&Fcl&Fm&Fp&Fcm&Fn).
    destruct (invoke_visibility w' l) as (Vc&_&Vh&_).
    apply (gated_transport true w'); try assumption. congruence.
  - unfold dispatch.
    destruct Hdet as [-> | (l & -> & Hz)]; try done;
      [by apply gated_weaken | by apply gated_invoke_detector].
  - unfold dispatch.
    destruct Hdet as [-> | (l & -> & Hz)]; try done;
      [by apply gated_weaken | by apply gated_invoke_detector].
Qed.

Lemma gated_step (w : World) (e : Event) :
  suppliesTriggerScroll e -> gated true w -> gated true (step w e).
Proof.
  intros He Hg. destruct e; simpl in *.
  - apply gated_settle, gated_dispatch.
    by apply (gated_transport true w).
  - by apply gated_settle, gated_dispatch.
  - apply gated_settle, gated_dispatch.
    by apply (gated_transport true w).
  - by apply (gated_transport true w).
  - by apply (gated_transport true w).
  - destruct (advance_frame ms w) as (Fl&_&_&_&_&Fc&_&Ff&_).
    apply (gated_transport true w); congruence.
  - destruct (mounted (fiber w)) eqn:Hm; [|exact Hg].
    apply gated_settle, gated_weaken, gated_commit; [|exact Hm].
    apply gated_weaken in Hg. destruct Hg as (?&?&?&leaked&?&?&H).
    repeat split; try assumption. exists leaked.
    split; [assumption|]. split; [assumption|]. exact H.
  - destruct (mounted (fiber w)) eqn:Hm; [|exact Hg].
    destruct (gated_cleanup _ _ Hg) as (leaked & Hv & Hn & ->).
    destruct Hg as (?&?&?&_).
    repeat split; try assumption; [discriminate|].
    exists leaked. split; [assumption|]. split; [assumption|]. reflexivity.
Qed.

Lemma gated_run (events : list Event) (w : World) :
  Forall suppliesTriggerScroll events -> gated true w ->
  gated true (run w events).
Proof.
  apply (run_invariant suppliesTriggerScroll (gated true)).
  intros w0 e. apply gated_step.
Qed.

(** The handlers themselves carry no guard: delivered twice to the same
    listener with no flush in between, a pointer move in the corner calls
    [onTrigger] twice. *)
Lemma handler_fires_whenever_invoked :
  let w := useDontLeave None (homePage emptyStore) in
  exists l,
    listening mousemove w = [l]
    /\ calls (invoke (MouseMoveEvent 100 10)
                     (invoke (MouseMoveEvent 100 10) w l) l) = 2.
Proof. eexists. split; reflexivity. Qed.

(** When React flushes after every event, and the options object always
    has its [triggerScroll], the effect's re-run does gate the callback:
    from the first render on, whatever the host and the parent do (pointer
    moves, scrolls, visibility changes, resizes, time passing, re-renders,
    unmount), [onTrigger] has been called at most once. *)
Lemma at_most_once_when_flushed
    (supplied : option Options) (win : Window) (doc : Document)
    (store : SessionStorage) (events : list Event) :
  is_Some (triggerScroll (resolveOptions supplied)) ->
  Forall suppliesTriggerScroll events ->
  calls (run (useDontLeave supplied (page win doc store)) events) <= 1.
Proof.
  intros Hs Hev.
  assert (H : gated true
                (run (useDontLeave supplied (page win doc store)) events)).
  { apply gated_run; [exact Hev|].
    apply gated_settle, gated_weaken, gated_commit; [|reflexivity].
    unfold gated. simpl. split; [lia|]. split; [exact Hs|].
    split; [discriminate|]. exists []. repeat split; constructor. }
  by destruct H as (H & _).
Qed.

Lemma settle_flushed (w : World) : dirty w = false -> settle w = w.
Proof. intros H. unfold settle, flush. by rewrite H. Qed.

Lemma step_flushed (w : World) (e : Event) :
  dirty w = false -> dirty (step w e) = false.
Proof.
  intros H. destruct e; simpl; try apply settle_stable; try exact H.
  - destruct (advance_frame ms w) as (_&_&_&_&_&_&_&Ff&_).
    unfold dirty in *. by rewrite Ff.
  - destruct (mounted (fiber w)); [apply settle_stable | exact H].
  - destruct (mounted (fiber w)) eqn:Hm; [reflexivity | exact H].
Qed.

(** [run] is the schedule of [play] that flushes after every event. *)
Lemma run_play (events : list Event) (w : World) :
  dirty w = false -> run w events = play w (flushEach events).
Proof.
  revert w. unfold run, play.
  induction events as [|e events IH]; intros w Hw; [reflexivity|].
  assert (E : act (act w (Deliver e)) Flush = step w e).
  { destruct e; try reflexivity; cbn [act deliver];
      apply settle_flushed, (step_flushed w _ Hw). }
  cbn [flushEach flat_map fold_left app]. rewrite E.
  apply IH, step_flushed, Hw.
Qed.

End AtMostOnce.

Section BeforeTheFlush.
Local Open Scope Q_scope.

(** C1, at its failing input. Default options, a desktop page, an empty
    session store. Three pointer moves into the top-left zone reach the
    page before React has re-run the effect: the listener of the first
    render is still registered, its handler tests neither [hasTriggered]
    nor the session marker, and [onTrigger] is called three times. The
    flush that follows removes the listener, and later moves call
    nothing. With a flush after every move the callback is called once.
    The scroll handler does the same on a mobile page. *)
Theorem moves_before_flush_fire_again :
  let w := useDontLeave None (homePage emptyStore) in
  let move := Deliver (MouseMove 100 10) in
  calls (play w [move; move; move]) = 3%nat
  /\ calls (play w [move; move; move; Flush; move; move]) = 3%nat
  /\ calls (play w [move; Flush; move; Flush; move; Flush]) = 1%nat
  /\ calls (play (useDontLeave None mobilePage)
                 [Deliver (Scroll 350); Deliver (Scroll 400)]) = 2%nat.
Proof. repeat split; vm_compute; reflexivity. Qed.

End BeforeTheFlush.


(** ** The visibility handler, branch by branch *)

Lemma visibility_ineligible (w : World) (l : Listener) (cfg : TriggerTabChange) :
  triggerTabChange (b_options (l_env l)) = Some cfg ->
  tabEligible (b_options (l_env l)) cfg w = false ->
  invoke VisibilityChangeEvent w l = w.
Proof. unfold tabEligible. intros Hcfg He. js. by rewrite Hcfg, He. Qed.

Lemma visibility_hide (w : World) (l : Listener) (cfg : TriggerTabChange) :
  triggerTabChange (b_options (l_env l)) = Some cfg ->
  tabEligible (b_options (l_env l)) cfg w = true ->
  hidden (document w) = true ->
  let w' := invoke VisibilityChangeEvent w l in
  timers w' = timers w ++ [flashTimer cfg w]
  /\ nextTimer w' = S (nextTimer w)
  /\ document w' = document w
  /\ (mounted (fiber w) = true ->
      timeoutId (cells (fiber w')) = Some (nextTimer w)).
Proof.
  unfold tabEligible, flashTimer. intros Hcfg He Hh. js.
  rewrite Hcfg, He, Hh. simpl.
  destruct (mounted (fiber w)); simpl; repeat split; intros; done.
Qed.

Lemma visibility_show (w : World) (l : Listener) (cfg : TriggerTabChange) :
  triggerTabChange (b_options (l_env l)) = Some cfg ->
  tabEligible (b_options (l_env l)) cfg w = true ->
  hidden (document w) = false ->
  let captured := timeoutId (b_cells (l_env l)) in
  let w' := invoke VisibilityChangeEvent w l in
  timers w' = cancelCaptured captured (timers w)
  /\ nextTimer w' = nextTimer w
  /\ title (document w') = originalTitle (b_cells (l_env l))
  /\ hidden (document w') = false
  /\ (mounted (fiber w) = true ->
      timeoutId (cells (fiber w')) =
        match captured with
        | Some id => if Nat.eqb id 0 then timeoutId (cells (fiber w)) else None
        | None => timeoutId (cells (fiber w))
        end).
Proof.
  unfold tabEligible, cancelCaptured. intros Hcfg He Hh. js.
  rewrite Hcfg, He, Hh. simpl.
  destruct (timeoutId (b_cells (l_env l))) as [id|]; simpl;
    [destruct (Nat.eqb id 0); simpl|];
    destruct (mounted (fiber w)); simpl; repeat split; intros; done.
Qed.

(** ** Hiding and showing the tab *)

Lemma gateCheck_neverSatisfied (o : Options) (cs : Cells) (w : World) :
  neverSatisfied o (sessionStorage w) -> hasTriggered cs = false ->
  gateCheck {| b_options := o; b_cells := cs |} w = Unsatisfied.
Proof.
  unfold gateCheck. simpl. intros Hn ->.
  destruct Hn as [-> | [-> | (items & s & -> & ->)]];
    [done | by destruct (storeInUserSession o) | by destruct (storeInUserSession o)].
Qed.

Lemma settle_document (w : World) : document (settle w) = document w.
Proof.
  destruct (settle_cases w) as [(-> & ?) | [(-> & Hd & ?) | (-> & Hd & Hd')]].
  - reflexivity.
  - by destruct (commitEffect_frame w (dirty_mounted _ Hd)) as (_&_&_&_&_&?&_).
  - destruct (commitEffect_frame w (dirty_mounted _ Hd)) as (_&_&_&_&_&H1&_).
    destruct (commitEffect_frame _ (dirty_mounted _ Hd')) as (_&_&_&_&_&H2&_).
    congruence.
Qed.

Lemma step_visibility_hidden (w : World) (h : bool) :
  hidden (document (step w (VisibilityChange h))) = h.
Proof.
  simpl. rewrite settle_document.
  by destruct (dispatch_frame VisibilityChangeEvent
    (with_document {| title := title (document w); hidden := h;
                      scrollHeight := scrollHeight (document w) |} w))
    as (_&_&->&_).
Qed.

Section TabCycle.
Variables (o : Options) (ts : TriggerScroll) (cfg : TriggerTabChange).
Variables (win : Window) (doc : Document) (store : SessionStorage).
Hypothesis Hts : triggerScroll o = Some ts.
Hypothesis Hcfg : triggerTabChange o = Some cfg.
Hypothesis Hgate : neverSatisfied o store.

Let original : string := normalizeTitle (title doc).
Let eligible : bool := tabEligible o cfg (page win doc store).

Lemma tabEligible_window (w : World) :
  window w = win -> tabEligible o cfg w = eligible.
Proof. unfold eligible, tabEligible, isDesktop. simpl. by intros ->. Qed.

(** The title text is the one of the first render, or the one a visible
    branch restored: what [document.title] returned at the first render. *)
Definition shown (w : World) : Prop :=
  title (document w) = title doc
  \/ (eligible = true /\ title (document w) = original).

Lemma shown_documentTitle (w : World) : shown w -> documentTitle w = original.
Proof.
  unfold documentTitle, original.
  intros [->|[_ ->]]; [reflexivity | apply normalizeTitle_idem].
Qed.

(** At most one timer is pending, and only while the tab is hidden; the
    cell holds its id. A visible tab shows the original title. *)
Definition timersCond (w : World) : Prop :=
  (timers w = []
   /\ (shown w \/ (hidden (document w) = true /\ eligible = true)))
  \/ (exists t, timers w = [t]
      /\ timeoutId (cells (fiber w)) = Some (t_id t)
      /\ t_id t <> 0
      /\ hidden (document w) = true
      /\ shown w
      /\ eligible = true).

(** The instance between a handler and the flush that follows it. *)
Definition tabMid (w : World) : Prop :=
  mounted (fiber w) = true
  /\ props (fiber w) = o
  /\ window w = win
  /\ sessionStorage w = store
  /\ hasTriggered (cells (fiber w)) = false
  /\ originalTitle (cells (fiber w)) = original
  /\ (exists fn,
        cleanup (fiber w) = Some (fn, o)
        /\ listeners w =
             registered fn {| b_options := o; b_cells := committed (fiber w) |} ts)
  /\ 1 <= nextTimer w
  /\ timersCond w.

(** The instance between two events. *)
Definition tab (w : World) : Prop :=
  tabMid w /\ cells (fiber w) = committed (fiber w).

Lemma tab_commit (w : World) :
  tabMid w -> documentTitle w = original -> tab (commitEffect w).
Proof.
  intros (Hm&Hp&Hw&Hs&Hh&Ho&(fn&Hcl&Hls)&Hn&Ht) Htitle.
  assert (Hclean : runCleanup w = with_listeners [] w).
  { unfold runCleanup. rewrite Hcl.
    pose proof (cleanup_removes fn
                  {| b_options := o; b_cells := committed (fiber w) |}
                  ts [] w Hts Hls (List.Forall_nil _)) as E.
    by rewrite (E : effectCleanup (fn, o) w = _). }
  pose proof (commitEffect_cases w _ Hclean eq_refl Hm)
    as (Hc'&Hs'&Ht'&Hn'&_&Hd'&Hw'&Hp'&Hcm'&_&Hcells&Hg).
  change (documentTitle (with_listeners [] w)) with (documentTitle w) in Hcells.
  simpl in *. rewrite Hp in Hg.
  rewrite gateCheck_neverSatisfied in Hg by (simpl; congruence).
  rewrite Hts in Hg. destruct Hg as (Hm'&Hcl'&Hls'&_).
  assert (Hsame : cells (fiber (commitEffect w)) = cells (fiber w)).
  { rewrite Hcells, Htitle, <- Ho. by destruct (cells (fiber w)). }
  split; [|congruence].
  unfold tabMid, timersCond, shown.
  rewrite Hm', Hp', Hw', Hs', Hsame, Hcl', Hls', Hcm', Hn', Ht', Hd', Hp.
  repeat split; try assumption; try congruence.
  by exists (nextFn (fiber w)).
Qed.

Lemma tab_settle (w : World) :
  tabMid w -> (dirty w = true -> documentTitle w = original) ->
  tab (settle w).
Proof.
  intros Hmid Hd.
  apply (settle_inv
           (fun w => tabMid w
                     /\ (dirty w = true -> documentTitle w = original))
           tab); [ | | | by split].
  - intros w0 [H0 E]. split; [exact H0|].
    unfold dirty. rewrite E, bool_decide_eq_true_2 by reflexivity.
    rewrite andb_false_r. discriminate.
  - intros w0 [H0 Ht] Hdirty. by apply tab_commit; auto.
  - intros w0 [H0 _] Hclean. split; [exact H0|].
    unfold dirty in Hclean. destruct H0 as (Hm&_). rewrite Hm in Hclean.
    by apply negb_false_iff, bool_decide_eq_true in Hclean.
Qed.

Lemma listening_visibility_registered (w : World) (fn : nat) (env : Bindings) :
  listeners w = registered fn env ts ->
  listening visibilitychange w = [visibilityListener fn env].
Proof.
  unfold listening, registered, pointerListener, scrollListener.
  intros ->.
  destruct (triggerMouseMove _), (ts_mobile ts || ts_desktop ts);
    simpl; repeat case_bool_decide; simplify_eq; done.
Qed.

Lemma tab_visibility (w : World) (h : bool) :
  tab w -> hidden (document w) = negb h ->
  tab (step w (VisibilityChange h)).
Proof.
  intros [(Hm&Hp&Hw&Hs&Hh&Ho&(fn&Hcl&Hls)&Hn&Ht) Hstable] Halt.
  simpl.
  set (w1 := with_document {| title := title (document w); hidden := h;
                              scrollHeight := scrollHeight (document w) |} w).
  set (env := {| b_options := o; b_cells := committed (fiber w) |}) in *.
  set (l := visibilityListener fn env).
  assert (Hdisp : dispatch VisibilityChangeEvent w1
                  = invoke VisibilityChangeEvent w1 l).
  { unfold dispatch. simpl.
    by rewrite (listening_visibility_registered w1 fn env Hls). }
  rewrite Hdisp.
  assert (Hel : tabEligible (b_options (l_env l)) cfg w1 = eligible)
    by (by apply tabEligible_window).
  destruct (invoke_frame VisibilityChangeEvent w1 l)
    as (Fl&Fw&Fh&_&_&Fcl&Fm&Fp&Fcm&_).
  destruct (invoke_visibility w1 l) as (_&Vs&Vh&Vo).
  assert (Hmid : forall w', w' = invoke VisibilityChangeEvent w1 l ->
                            1 <= nextTimer w' -> timersCond w' -> tabMid w').
  { intros w' -> Hn' Ht'. unfold tabMid.
    rewrite Fm, Fp, Fw, Vs, Vh, Vo, Fcl, Fl, Fcm.
    repeat split; try assumption. by exists fn. }
  destruct eligible eqn:Heligible.
  - destruct h.
    + (* hide *)
      destruct (visibility_hide w1 l cfg Hcfg Hel eq_refl)
        as (Tt&Tn&Td&Tc).
      simpl in Halt.
      assert (Hbefore : timers w = [] /\ shown w).
      { destruct Ht as [(?&[?|(?&_)])|(t&_&_&_&?&_)]; [done|congruence..]. }
      destruct Hbefore as [Hnil Htitle].
      assert (Hshown : shown (invoke VisibilityChangeEvent w1 l)).
      { unfold shown in *. by rewrite Td. }
      apply tab_settle.
      * apply Hmid; [reflexivity | rewrite Tn; simpl; lia |].
        right. exists (flashTimer cfg w1).
        rewrite Tt, (Tc Hm). rewrite Td. simpl. rewrite Hnil.
        repeat split; try done. lia.
      * intros _. by apply shown_documentTitle.
    + (* show *)
      destruct (visibility_show w1 l cfg Hcfg Hel eq_refl)
        as (Tt&Tn&Ttitle&Thid&Tc).
      simpl in Ttitle, Tt, Tn, Tc.
      assert (Hnone : cancelCaptured (timeoutId (committed (fiber w)))
                                     (timers w) = []).
      { destruct Ht as [(->&_)|(t&->&Hid&Hne&_)].
        - unfold cancelCaptured.
          by destruct (timeoutId _) as [id|]; [destruct (Nat.eqb id 0)|].
        - rewrite <- Hstable, Hid. unfold cancelCaptured.
          destruct (Nat.eqb_spec (t_id t) 0); [done|].
          simpl. by rewrite Nat.eqb_refl. }
      assert (Hshown : shown (invoke VisibilityChangeEvent w1 l)).
      { right. split; [exact Heligible|]. by rewrite Ttitle, <- Hstable. }
      apply tab_settle.
      * apply Hmid; [reflexivity | by rewrite Tn |].
        left. rewrite Tt, Hnone.
        split; [reflexivity | by left].
      * intros _. by apply shown_documentTitle.
  - rewrite (visibility_ineligible w1 l cfg Hcfg Hel).
    assert (Hbefore : timers w = [] /\ shown w).
    { destruct Ht as [(?&[?|(_&?)])|(t&_&_&_&_&_&?)]; [done|congruence..]. }
    destruct Hbefore as [Hnil Htitle].
    assert (Hshown : shown w1) by exact Htitle.
    apply tab_settle; [|by intros _; apply shown_documentTitle].
    unfold tabMid, timersCond. simpl.
    repeat split; try assumption; [by exists fn|].
    left. by split; [|left].
Qed.

Lemma tab_tick (w : World) : tab w -> tab (tick w).
Proof.
  intros [(Hm&Hp&Hw&Hs&Hh&Ho&(fn&Hcl&Hls)&Hn&Ht) Hstable].
  destruct (tick_frame w) as (Fl&Fw&Fh&_&Fs&_&_&Ff&Fn).
  assert (Hrest : timersCond (tick w) -> tab (tick w)).
  { intros Ht'. unfold tab, tabMid. rewrite Ff, Fl, Fw, Fs, Fn.
    repeat split; try assumption. by exists fn. }
  apply Hrest. unfold timersCond. rewrite Ff, Fh.
  destruct Ht as [(Hnil&Htitle)|(t&Hone&Hid&Hne&Hhid&Htitle&He)].
  - left. unfold tick. rewrite Hnil. simpl. by split.
  - unfold tick. rewrite Hone. simpl.
    destruct (Nat.leb (t_due t) (S (clock w))); simpl.
    + left. split; [reflexivity | by right].
    + right. exists t. repeat split; assumption.
Qed.

Lemma tab_advance (ms : nat) (w : World) : tab w -> tab (advance ms w).
Proof.
  intros H. induction ms as [|ms IH]; [exact H|].
  simpl. by apply tab_tick.
Qed.

Lemma tab_run (events : list Event) (w : World) :
  tab w -> alternates (hidden (document w)) events -> tab (run w events).
Proof.
  unfold run. revert w.
  induction events as [|e events IH]; intros w Hw Ha; simpl; [exact Hw|].
  destruct e; try done.
  - destruct Ha as [-> Ha]. apply IH.
    + apply tab_visibility; [exact Hw|]. by rewrite negb_involutive.
    + by rewrite step_visibility_hidden.
  - apply IH; [by apply tab_advance|].
    simpl. by destruct (advance_frame ms w) as (_&_&->&_).
Qed.

Lemma tab_mount : tab (useDontLeave (Some o) (page win doc store)).
Proof.
  unfold useDontLeave. simpl.
  set (w0 := with_fiber _ _).
  pose proof (commitEffect_cases w0 w0 (runCleanup_none w0 eq_refl)
                eq_refl eq_refl)
    as (_&Hs&Ht&Hn&_&Hd&Hw&Hp&Hcm&_&Hcells&Hg).
  simpl in *.
  rewrite gateCheck_neverSatisfied in Hg by (simpl; done).
  rewrite Hts in Hg. destruct Hg as (Hm&Hcl&Hls&_).
  apply tab_settle.
  - unfold tabMid, timersCond, shown.
    rewrite Hm, Hp, Hw, Hs, Hcells, Hcl, Hls, Hcm, Hn, Ht, Hd. simpl.
    repeat split; try done; [by exists 0 | left; split; [done | by left; left]].
  - intros _. unfold documentTitle. by rewrite Hd.
Qed.

Lemma tab_timers (w : World) :
  tab w ->
  length (timers w) <= 1
  /\ (hidden (document w) = false ->
      timers w = [] /\ documentTitle w = original).
Proof.
  intros [(_&_&_&_&_&_&_&_&Ht) _].
  destruct Ht as [(->&[?|(?&_)])|(t&->&_&_&?&?&_)]; simpl;
    (split; [lia|]); intros; try congruence;
    by split; [|apply shown_documentTitle].
Qed.

(** Tracing the instance from its first render. *)
Lemma tab_trace (events : list Event) :
  alternates (hidden doc) events ->
  tab (run (useDontLeave (Some o) (page win doc store)) events).
Proof.
  intros Ha. apply tab_run; [apply tab_mount|].
  unfold useDontLeave. rewrite settle_document.
  match goal with |- context [commitEffect ?w0] =>
    destruct (commitEffect_frame w0 eq_refl) as (_&_&_&_&_&->&_) end.
  exact Ha.
Qed.

(** Unmounting such an instance removes every listener it registered. *)
Lemma tab_unmount (w : World) : tab w -> listeners (step w Unmount) = [].
Proof.
  intros [(Hm&_&_&_&_&_&(fn&Hcl&Hls)&_) _]. simpl. rewrite Hm. simpl.
  unfold runCleanup. rewrite Hcl.
  pose proof (cleanup_removes fn
                {| b_options := o; b_cells := committed (fiber w) |}
                ts [] w Hts Hls (List.Forall_nil _)) as E.
  by rewrite (E : effectCleanup (fn, o) w = _).
Qed.



End TabCycle.

Section TabCycleExamples.
Local Open Scope Q_scope.

Lemma emptyStore_neverSatisfied : neverSatisfied defaultOptions emptyStore.
Proof. right; right. by exists ∅, false. Qed.

Definition briefAbsence : list Event :=
  [VisibilityChange true; Advance 100; VisibilityChange false; Advance 300].





End TabCycleExamples.

(** ** Session storage failures *)

Section StorageFailures.
Local Open Scope Q_scope.

(** The mounted hook on a desktop page whose session store refuses every
    write. *)
Definition fullStorePage : World :=
  useDontLeave None (homePage (Storage ∅ false true)).

(** A pointer move into the top-left hot zone. *)
Definition cornerMove : DomEvent := MouseMoveEvent 100 10.

(** C9 as stated fails here. The write of line 100 raises, the exception
    leaves the handler and reaches the host. *)
Lemma setItem_failure_counterexample :
  completion (handler cornerMove defaultBindings) fullStorePage
    = Throw StorageError
  /\ uncaught (step fullStorePage (MouseMove 100 10)) = [StorageError].
Proof. split; reflexivity. Qed.

Lemma handlerWith_quiet (cb : Js unit) (e : DomEvent) (env : Bindings) (w : World) :
  is_Some (triggerScroll (b_options env)) ->
  is_Some (triggerTabChange (b_options env)) ->
  fires e env w = false ->
  completion (handlerWith cb e env) w = Normal tt
  /\ sessionStorage (exec (handlerWith cb e env) w) = sessionStorage w.
Proof.
  intros [ts Hts] [cfg Hcfg]. unfold fires, handlerWith. destruct e.
  - intros _. js. rewrite Hcfg. repeat case_match; simplify_eq; simpl in *;
      split; congruence.
  - js. destruct (triggerMouseMove _ && isDesktop _ w); simpl; [|done].
    destruct (Qle_bool clientY 50); simpl; [|done].
    destruct (Qle_bool clientX 250 || _); simpl; done.
  - rewrite Hts. js. rewrite Hts. simpl.
    destruct (_ || _); simpl; [|done].
    destruct (num_ge _ _); simpl; done.
Qed.

Lemma handlerWith_fires (cb : Js unit) (e : DomEvent) (env : Bindings) (w : World) :
  is_Some (triggerScroll (b_options env)) ->
  fires e env w = true ->
  handlerWith cb e env w
  = (setHasTriggered true ;; cb ;;
     when (storeInUserSession (b_options env))
          (setItem SESSION_STORAGE_CTA_KEY "true")) w.
Proof.
  intros [ts Hts]. unfold fires, handlerWith. destruct e; [done| |].
  - cbv [handleMouseMoveWith bind read].
    destruct (triggerMouseMove _ && isDesktop _ w); simpl; [|done].
    destruct (Qle_bool clientY 50); simpl; [|done].
    destruct (Qle_bool clientX 250 || _); simpl; done.
  - rewrite Hts. cbv [handleScrollWith bind read deref ret]. rewrite Hts.
    destruct (_ || _); simpl; [|done].
    destruct (num_ge _ _); simpl; done.
Qed.


(** C9 (amended). With an options object that has [triggerScroll] and
    [triggerTabChange]. A handler whose firing tests fail, and the
    visibility handler always, completes without an exception and leaves
    the store alone. When the tests pass the handler sets [hasTriggered],
    calls [onTrigger] and then, with persistence on, writes the marker,
    with nothing caught on the way: an exception of [onTrigger] leaves the
    handler and the marker is not written; when [onTrigger] returns and
    [sessionStorage] is null or undefined the optional chaining skips the
    access, the handler completes and nothing is persisted; when [setItem]
    raises, the exception leaves the handler, after [onTrigger] has been
    called and [hasTriggered] set. No handler reads the store: [getItem]
    is called by the effect at line 79, and when it raises the exception
    leaves the effect after the visibility listener was registered, no
    detector is attached, [onTrigger] is not called, and the component is
    taken down. *)
Theorem storage_failure_escapes
    (callback : Js unit) (e : DomEvent) (env : Bindings) (w : World) :
  is_Some (triggerScroll (b_options env)) ->
  is_Some (triggerTabChange (b_options env)) ->
  let result := completion (handlerWith callback e env) w in
  let w' := exec (handlerWith callback e env) w in
  let called := exec (setHasTriggered true) w in
  let persist := storeInUserSession (b_options env) in
  (fires e env w = false ->
   result = Normal tt /\ sessionStorage w' = sessionStorage w)
  /\ (fires e env w = true ->
      (mounted (fiber w) = true -> hasTriggered (cells (fiber called)) = true)
      /\ (forall err, completion callback called = Throw err ->
          result = Throw err /\ w' = exec callback called)
      /\ (completion callback called = Normal tt ->
          let w2 := exec callback called in
          (persist = false \/ sessionStorage w2 = NoStorage ->
           result = Normal tt /\ w' = w2)
          /\ (forall items g, persist = true ->
              sessionStorage w2 = Storage items g true ->
              result = Throw StorageError /\ w' = w2)
          /\ (forall items g, persist = true ->
              sessionStorage w2 = Storage items g false ->
              result = Normal tt
              /\ w' = with_storage
                        (Storage (<[SESSION_STORAGE_CTA_KEY := "true"]> items)
                                 g false) w2)))
  /\ (forall fn items s,
      hasTriggered (b_cells env) = false -> persist = true ->
      sessionStorage w = Storage items true s ->
      completion (effect fn env) w = Throw StorageError
      /\ listeners (exec (effect fn env) w)
         = listeners w ++ [visibilityListener fn env]
      /\ calls (exec (effect fn env) w) = calls w)
  /\ (forall win doc items s,
      persist = true ->
      let w0 := useDontLeave (Some (b_options env))
                  (page win doc (Storage items true s)) in
      mounted (fiber w0) = false
      /\ uncaught w0 = [StorageError]
      /\ calls w0 = 0%nat
      /\ listening mousemove w0 = []
      /\ listening scroll w0 = []).
Proof.
  intros Hts Hcfg result w' called persist. subst result w'.
  split; [|split; [|split]].
  - by apply handlerWith_quiet.
  - intros Hf. unfold completion, exec.
    rewrite (handlerWith_fires callback e env w Hts Hf).
    subst called. fold persist.
    cbv [exec completion bind setHasTriggered setCells write].
    split; [by intros ->|].
    destruct (callback _) as [[[]|err] w2]; simpl.
    + split; [done|]. intros _.
      split; [|split].
      * intros [->|Hno]; [done|]. destruct persist; [|done].
        cbv [when setItem]. by rewrite Hno.
      * intros items g -> Hst. cbv [when setItem]. by rewrite Hst.
      * intros items g -> Hst. cbv [when setItem]. by rewrite Hst.
    + split; [|done]. intros err' [= ->]. done.
  - intros fn items s Hh Hp Hst. unfold completion, exec.
    rewrite effect_spec.
    assert (Hg : gateCheck env w = ReadRaised).
    { unfold gateCheck. fold persist. by rewrite Hh, Hp, Hst. }
    rewrite Hg. cbn [fst snd].
    by destruct (activated_frame fn env w) as (->&->&_).
  - intros win doc items s Hp w0.
    set (w1 := with_fiber {| mounted := true; props := b_options env;
                             cells := initialCells; committed := initialCells;
                             cleanup := None; nextFn := 0 |}
                          (page win doc (Storage items true s))).
    pose proof (commitEffect_cases w1 w1 (runCleanup_none w1 eq_refl)
                  eq_refl eq_refl)
      as (Hc&_&_&_&_&_&_&_&_&_&_&Hg).
    assert (G : gateCheck {| b_options := props (fiber w1);
                             b_cells := cells (fiber w1) |} w1 = ReadRaised).
    { unfold gateCheck. simpl. fold persist. by rewrite Hp. }
    cbv zeta in Hg. rewrite G in Hg. destruct Hg as (Hm&_&Hls&Hun).
    assert (E : w0 = commitEffect w1).
    { apply settle_flushed. unfold dirty. by rewrite Hm. }
    rewrite E. unfold listening. rewrite Hls.
    repeat split; try assumption.
Qed.


Lemma storage_failure_escapes_witness :
  completion (handlerWith onTrigger cornerMove defaultBindings) fullStorePage
    = Throw StorageError
  /\ exec (handlerWith onTrigger cornerMove defaultBindings) fullStorePage
     = exec onTrigger (exec (setHasTriggered true) fullStorePage).
Proof.
  pose proof (storage_failure_escapes onTrigger cornerMove defaultBindings
                fullStorePage (mk_is_Some _ _ eq_refl) (mk_is_Some _ _ eq_refl))
    as (_ & H & _).
  assert (Hf : fires cornerMove defaultBindings fullStorePage = true)
    by (vm_compute; reflexivity).
  destruct (H Hf) as (_ & _ & Hret).
  destruct (Hret eq_refl) as (_ & Hraise & _).
  apply (Hraise ∅ false eq_refl). vm_compute. reflexivity.
Defined.

(** The same move with a callback that raises: its exception reaches the
    host, and the marker is not written. *)
Example raising_callback_skips_marker :
  let w := useDontLeave None (homePage emptyStore) in
  completion (handlerWith raisingOnTrigger cornerMove defaultBindings) w
    = Throw CallerError
  /\ sessionStorage (exec (handlerWith raisingOnTrigger cornerMove
                                       defaultBindings) w) = emptyStore
  /\ calls (exec (handlerWith raisingOnTrigger cornerMove defaultBindings) w)
     = 1%nat.
Proof. repeat split; vm_compute; reflexivity. Qed.

End StorageFailures.

(** ** Partial options objects *)

Section PartialOptions.

(** C10 as stated fails here. Activation without [triggerTabChange]
    completes, and so does activation without [triggerScroll] when the
    session marker is present: neither dereferences [undefined]. *)
Lemma partial_options_activation_counterexample :
  completion (effect 0 {| b_options := noTabChange; b_cells := initialCells |})
             (homePage emptyStore)
    = Normal (Some (0, noTabChange))
  /\ mounted (fiber (useDontLeave (Some noTabChange) (homePage emptyStore)))
     = true
  /\ completion (effect 0 {| b_options := noScroll; b_cells := initialCells |})
                (homePage markedStore)
     = Normal None
  /\ mounted (fiber (useDontLeave (Some noScroll) (homePage markedStore)))
     = true.
Proof. repeat split. Qed.

(** C10 (amended). An options object that is supplied replaces the
    default one whole; a missing number still falls back through [||], a
    missing sub-object does not. Without
    [triggerScroll] the effect raises a [TypeError] at line 136 exactly
    when it gets past the test of line 79: not when the trigger gate is already
    satisfied, nor when [getItem] raised first. Without
    [triggerTabChange] the effect raises no [TypeError]; the visibility
    handler it registered raises one on every event, before doing
    anything. *)
Theorem partial_options_not_total :
  resolveOptions None = defaultOptions
  /\ (forall o, resolveOptions (Some o) = o)
  /\ (forall o w, mobileWidthThreshold o = None ->
      isDesktop o w = isDesktop defaultOptions w)
  /\ (forall fn env w,
      triggerScroll (b_options env) = None ->
      completion (effect fn env) w =
        match gateCheck env w with
        | Satisfied => Normal None
        | Unsatisfied => Throw TypeError
        | ReadRaised => Throw StorageError
        end)
  /\ (forall fn env w,
      is_Some (triggerScroll (b_options env)) ->
      completion (effect fn env) w <> Throw TypeError)
  /\ (forall env w,
      triggerTabChange (b_options env) = None ->
      completion (handleVisibilityChange env) w = Throw TypeError
      /\ exec (handleVisibilityChange env) w = w).
Proof.
  split; [reflexivity|]. split; [reflexivity|].
  split; [by intros o w Ho; unfold isDesktop; rewrite Ho|].
  split; [|split].
  - intros fn env w Hts. unfold completion. rewrite effect_spec, Hts.
    by destruct (gateCheck env w).
  - intros fn env w [ts Hts]. unfold completion. rewrite effect_spec, Hts.
    by destruct (gateCheck env w).
  - intros env w Hcfg. js. by rewrite Hcfg.
Qed.

End PartialOptions.

(** ** Listeners left behind *)

Section LeakedListeners.
Local Open Scope Q_scope.

(** C2, at its failing input. The first render finds the session marker:
    both effect runs take the early return of line 80, which hands React no
    cleanup. Unmounting removes nothing, the two visibility listeners stay
    registered, and the next visibility change still flashes the title. *)
Theorem early_return_leaks_visibility_listener :
  let w := run (useDontLeave None (homePage markedStore)) [Unmount] in
  mounted (fiber w) = false
  /\ List.map l_type (listeners w) = [visibilitychange; visibilitychange]
  /\ title (document (run w [VisibilityChange true; Advance 200]))
     = "We miss you!".
Proof. repeat split. Qed.

(** The same after the callback fired in this very instance. *)
Lemma leak_after_trigger :
  let w := run (useDontLeave None (homePage emptyStore))
               [MouseMove 100 10; Unmount] in
  calls w = 1%nat
  /\ mounted (fiber w) = false
  /\ List.map l_type (listeners w) = [visibilitychange]
  /\ title (document (run w [VisibilityChange true; Advance 200]))
     = "We miss you!".
Proof. repeat split. Qed.

(** An instance that unmounts before the trigger gate is satisfied leaves no
    listener behind. *)
Lemma unmount_removes_all_when_unsatisfied :
  listeners (run (useDontLeave None (homePage emptyStore))
                 [VisibilityChange true; Advance 300; VisibilityChange false;
                  Unmount]) = [].
Proof. reflexivity. Qed.

End LeakedListeners.

(** ** The captured title *)

Section CapturedTitle.
Local Open Scope Q_scope.

(** C8, at its failing input. The tab is hidden, the flash is applied, and
    the parent re-renders: the effect runs again and captures the flashed
    title as the original one. Showing the tab then restores the flash. *)
Theorem rerender_recaptures_flashed_title :
  let mountedPage := useDontLeave None (homePage emptyStore) in
  let w := run mountedPage [VisibilityChange true; Advance 200; Rerender None] in
  originalTitle (cells (fiber mountedPage)) = "Home"
  /\ originalTitle (cells (fiber w)) = "We miss you!"
  /\ title (document (run w [VisibilityChange false; Advance 1000]))
     = "We miss you!".
Proof. repeat split. Qed.

End CapturedTitle.


(** * Further properties of the hook *)


(** ** The pointer hot zones *)

Section HotZones.
Local Open Scope Q_scope.

(** The call count after the pointer handler, as the tests of lines 89-96
    decide it; a failing [setItem] comes after the call. *)
Lemma handleMouseMove_calls (env : Bindings) (w : World) (x y : Q) :
  calls (exec (handleMouseMove env x y) w) =
    if triggerMouseMove (b_options env) && isDesktop (b_options env) w
       && (Qle_bool y 50
           && (Qle_bool x 250 || Qle_bool (innerWidth (window w) - 250) x))
    then S (calls w) else calls w.
Proof.
  js.
  destruct (triggerMouseMove (b_options env) && isDesktop (b_options env) w);
    simpl; [|reflexivity].
  destruct (Qle_bool y 50); simpl; [|reflexivity].
  destruct (Qle_bool x 250 || Qle_bool (innerWidth (window w) - 250) x);
    simpl; [|reflexivity].
  repeat case_match; simplify_eq; reflexivity.
Qed.

(** X1. A pointer move calls [onTrigger] exactly when the pointer trigger
    is on, the viewport is a desktop, the pointer is at most 50 from the
    top and at most 250 from the left or the right edge; otherwise the
    handler calls nothing. On a mobile viewport it never fires. *)
Theorem pointer_fires_iff (env : Bindings) (w : World) (x y : Q) :
  let o := b_options env in
  let width := innerWidth (window w) in
  let after := calls (exec (handleMouseMove env x y) w) in
  (after = S (calls w) \/ after = calls w)
  /\ (after = S (calls w) <->
      triggerMouseMove o = true /\ isDesktop o w = true
      /\ y <= 50 /\ (x <= 250 \/ width - 250 <= x)).
Proof.
  intros o width after. subst after.
  rewrite handleMouseMove_calls. fold o. fold width.
  destruct (triggerMouseMove o), (isDesktop o w); simpl;
    try (split; [by right|]; split; [lia | intros (?&?&_); discriminate]).
  destruct (Qle_bool y 50) eqn:Ey; simpl.
  - destruct (Qle_bool x 250) eqn:El; simpl.
    + split; [by left|]. split; [|done]. intros _.
      apply Qle_bool_iff in Ey, El. auto.
    + destruct (Qle_bool (width - 250) x) eqn:Er.
      * split; [by left|]. split; [|done]. intros _.
        apply Qle_bool_iff in Ey, Er. auto.
      * split; [by right|]. split; [lia|].
        intros (_&_&_&[H|H]); apply Qle_bool_iff in H; congruence.
  - split; [by right|]. split; [lia|].
    intros (_&_&H&_). apply Qle_bool_iff in H. congruence.
Qed.

(** X2. On a desktop viewport at most 500 wide the two zones overlap: every
    pointer move in the top strip fires, whatever its horizontal position. *)
Theorem narrow_desktop_whole_strip (env : Bindings) (w : World) (x y : Q) :
  triggerMouseMove (b_options env) = true ->
  isDesktop (b_options env) w = true ->
  innerWidth (window w) <= 500 ->
  y <= 50 ->
  calls (exec (handleMouseMove env x y) w) = S (calls w).
Proof.
  intros Hm Hd Hw Hy. rewrite handleMouseMove_calls, Hm, Hd. simpl.
  apply Qle_bool_iff in Hy. rewrite Hy. simpl.
  destruct (Qle_bool x 250) eqn:El; [reflexivity|]. simpl.
  assert (Hr : innerWidth (window w) - 250 <= x).
  { destruct (Qlt_le_dec 250 x) as [Hlt|Hle]; [lra|].
    apply Qle_bool_iff in Hle. congruence. }
  apply Qle_bool_iff in Hr. by rewrite Hr.
Qed.

(** The default options with the desktop threshold lowered to 300. *)
Definition smallDesktopOptions : Options :=
  {| mobileWidthThreshold := Some (Fin 300);
     triggerScroll := triggerScroll defaultOptions;
     triggerMouseMove := true;
     triggerTabChange := triggerTabChange defaultOptions;
     storeInUserSession := true |}.

(** A page in a window 480 wide. *)
Definition smallDesktopPage : World :=
  page {| innerWidth := 480; innerHeight := 800; scrollY := 0 |}
       {| title := "Home"; hidden := false; scrollHeight := 3000 |}
       emptyStore.

Lemma narrow_desktop_whole_strip_witness :
  calls (exec (handleMouseMove
                 {| b_options := smallDesktopOptions; b_cells := initialCells |}
                 240 20) smallDesktopPage) = 1%nat.
Proof.
  apply (narrow_desktop_whole_strip
           {| b_options := smallDesktopOptions; b_cells := initialCells |}
           smallDesktopPage 240 20); try reflexivity; discriminate.
Defined.

End HotZones.

(** ** Registering and removing listeners *)

Section RoundTrip.

(** X3. An effect run that gets past the gate test and the cleanup it
    returns are inverse on the listener registry: whatever the options
    enable, the cleanup removes exactly the listeners the run added and
    leaves every other listener, and the rest of the world, as the effect
    left it. *)
Theorem effect_cleanup_round_trip
    (fn : nat) (env : Bindings) (w : World) (ts : TriggerScroll) :
  triggerScroll (b_options env) = Some ts ->
  gateCheck env w = Unsatisfied ->
  Forall (fun l => l_fn l <> fn) (listeners w) ->
  exists c,
    completion (effect fn env) w = Normal (Some c)
    /\ listeners (exec (effect fn env) w) = listeners w ++ registered fn env ts
    /\ effectCleanup c (exec (effect fn env) w)
       = (Normal tt, with_listeners (listeners w) (exec (effect fn env) w)).
Proof.
  intros Hts Hgate Hfresh. exists (fn, b_options env).
  unfold completion, exec. rewrite effect_spec, Hgate, Hts. simpl.
  destruct (activated_frame fn env w) as (Hls&_).
  assert (Hreg : listeners (attach (pointerListener fn env ++ scrollListener fn env ts)
                                   (activated fn env w))
                 = listeners w ++ registered fn env ts).
  { unfold attach, with_listeners, registered. cbn [listeners].
    rewrite Hls, <- app_assoc. reflexivity. }
  split; [reflexivity|]. split; [exact Hreg|].
  apply (cleanup_removes fn env ts (listeners w) _ Hts Hreg Hfresh).
Qed.

Lemma effect_cleanup_round_trip_witness :
  exists c,
    completion (effect 7 defaultBindings) (homePage emptyStore) = Normal (Some c)
    /\ listeners (exec (effect 7 defaultBindings) (homePage emptyStore))
       = listeners (homePage emptyStore)
         ++ registered 7 defaultBindings
              {| ts_mobile := true; ts_desktop := false;
                 ts_percentThreshold := Some (Fin 30) |}
    /\ effectCleanup c (exec (effect 7 defaultBindings) (homePage emptyStore))
       = (Normal tt,
          with_listeners (listeners (homePage emptyStore))
            (exec (effect 7 defaultBindings) (homePage emptyStore))).
Proof.
  apply (effect_cleanup_round_trip 7 defaultBindings (homePage emptyStore) _
           eq_refl eq_refl).
  constructor.
Defined.

End RoundTrip.

(** ** The session marker *)

Section SessionMarker.
Local Open Scope Q_scope.

(** What a pointer or scroll handler does to a writable store: nothing
    when it does not fire, one write of the marker when it does. *)
Lemma invoke_detector_store (e : DomEvent) (w : World) (l : Listener)
    (items : gmap string string) (g : bool) :
  e <> VisibilityChangeEvent ->
  storeInUserSession (b_options (l_env l)) = true ->
  sessionStorage w = Storage items g false ->
  (calls (invoke e w l) = calls w
   /\ sessionStorage (invoke e w l) = sessionStorage w)
  \/ (calls (invoke e w l) = S (calls w)
      /\ sessionStorage (invoke e w l)
         = Storage (<[SESSION_STORAGE_CTA_KEY := "true"]> items) g false).
Proof.
  intros He Hs Hst. destruct e; [done| |]; js; rewrite ?Hs;
    repeat case_match; simplify_eq; simpl in *; auto; try congruence.
  all: right; split; [reflexivity | congruence].
Qed.

(** X4. When a pointer or scroll handler fires with persistence on and a
    writable store, it writes the marker under the key [useDontLeave] and
    touches no other entry; the gate test of any later effect run that has
    persistence on and can read the store is then satisfied. *)
Theorem fire_writes_marker_gate_reads_it
    (e : DomEvent) (w : World) (l : Listener)
    (items : gmap string string) (g : bool) :
  e <> VisibilityChangeEvent ->
  storeInUserSession (b_options (l_env l)) = true ->
  sessionStorage w = Storage items g false ->
  calls (invoke e w l) = S (calls w) ->
  exists items',
    sessionStorage (invoke e w l) = Storage items' g false
    /\ items' !! SESSION_STORAGE_CTA_KEY = Some "true"
    /\ (forall k, k <> SESSION_STORAGE_CTA_KEY -> items' !! k = items !! k)
    /\ (g = false -> forall env',
          storeInUserSession (b_options env') = true ->
          gateCheck env' (invoke e w l) = Satisfied).
Proof.
  intros He Hs Hst Hfired.
  destruct (invoke_detector_store e w l items g He Hs Hst) as [[Hc _]|[_ Hw]];
    [lia|].
  exists (<[SESSION_STORAGE_CTA_KEY := "true"]> items).
  split; [exact Hw|]. split; [apply lookup_insert_eq|].
  split; [by intros k Hk; apply lookup_insert_ne|].
  intros -> env' Hs'. apply gateCheck_marker; [exact Hs'|].
  rewrite Hw. apply markerPresent_insert.
Qed.

(** The pointer listener of the first render on the home page. *)
Definition homePointerListener : Listener :=
  {| l_type := mousemove; l_fn := 1;
     l_env := {| b_options := defaultOptions;
                 b_cells := {| hasTriggered := false; originalTitle := "Home";
                               timeoutId := None |} |} |}.

Lemma fire_writes_marker_gate_reads_it_witness :
  exists items',
    sessionStorage (invoke cornerMove (useDontLeave None (homePage emptyStore))
                           homePointerListener)
      = Storage items' false false
    /\ items' !! SESSION_STORAGE_CTA_KEY = Some "true"
    /\ (forall k, k <> SESSION_STORAGE_CTA_KEY ->
        items' !! k = (∅ : gmap string string) !! k)
    /\ (false = false -> forall env',
          storeInUserSession (b_options env') = true ->
          gateCheck env'
            (invoke cornerMove (useDontLeave None (homePage emptyStore))
                    homePointerListener) = Satisfied).
Proof.
  apply (fire_writes_marker_gate_reads_it cornerMove
           (useDontLeave None (homePage emptyStore)) homePointerListener
           ∅ false); [discriminate | reflexivity | reflexivity |].
  vm_compute. reflexivity.
Defined.

(** X5. With persistence off the session store is never touched: neither
    the effect nor any handler reads or writes it, so a store that raises
    on every access raises nothing here. *)
Theorem persistence_off_never_touches_store (env : Bindings) (w : World) :
  storeInUserSession (b_options env) = false ->
  (forall fn,
     sessionStorage (exec (effect fn env) w) = sessionStorage w
     /\ completion (effect fn env) w <> Throw StorageError)
  /\ (forall e,
        sessionStorage (exec (handler e env) w) = sessionStorage w
        /\ completion (handler e env) w <> Throw StorageError).
Proof.
  intros Hs. split.
  - intros fn. unfold exec, completion. rewrite effect_spec.
    destruct (activated_frame fn env w) as (_&_&Hst&_).
    unfold gateCheck. rewrite Hs.
    destruct (hasTriggered (b_cells env)); simpl; [done|].
    destruct (triggerScroll (b_options env)); simpl; done.
  - intros e. destruct e; js; rewrite ?Hs;
      repeat case_match; simplify_eq; simpl in *; split; congruence.
Qed.

(** The default options with persistence switched off. *)
Definition noPersistence : Options :=
  {| mobileWidthThreshold := Some (Fin 768);
     triggerScroll := triggerScroll defaultOptions;
     triggerMouseMove := true;
     triggerTabChange := triggerTabChange defaultOptions;
     storeInUserSession := false |}.

Lemma persistence_off_never_touches_store_witness :
  let w := useDontLeave (Some noPersistence)
             (homePage (Storage ∅ true true)) in
  let env := {| b_options := noPersistence; b_cells := initialCells |} in
  calls (exec (handler cornerMove env) w) = 1%nat
  /\ sessionStorage (exec (handler cornerMove env) w) = sessionStorage w
  /\ completion (handler cornerMove env) w <> Throw StorageError.
Proof.
  split; [reflexivity|].
  exact (proj2 (persistence_off_never_touches_store
                  {| b_options := noPersistence; b_cells := initialCells |}
                  (useDontLeave (Some noPersistence)
                     (homePage (Storage ∅ true true)))
                  eq_refl) cornerMove).
Defined.

End SessionMarker.

(** ** What a flush and a dispatch keep *)

Lemma commitEffect_keeps (w : World) :
  mounted (fiber w) = true ->
  calls (commitEffect w) = calls w
  /\ sessionStorage (commitEffect w) = sessionStorage w
  /\ timers (commitEffect w) = timers w
  /\ nextTimer (commitEffect w) = nextTimer w
  /\ clock (commitEffect w) = clock w
  /\ document (commitEffect w) = document w
  /\ window (commitEffect w) = window w
  /\ props (fiber (commitEffect w)) = props (fiber w)
  /\ hasTriggered (cells (fiber (commitEffect w)))
     = hasTriggered (cells (fiber w))
  /\ timeoutId (cells (fiber (commitEffect w)))
     = timeoutId (cells (fiber w)).
Proof.
  intros Hm.
  destruct (commitEffect_frame w Hm) as (?&?&?&?&?&?&?&?&_&_&Hc).
  simpl in *. rewrite Hc. simpl. repeat split; assumption.
Qed.

Lemma settle_keeps (w : World) :
  calls (settle w) = calls w
  /\ sessionStorage (settle w) = sessionStorage w
  /\ timers (settle w) = timers w
  /\ nextTimer (settle w) = nextTimer w
  /\ clock (settle w) = clock w
  /\ document (settle w) = document w
  /\ window (settle w) = window w
  /\ props (fiber (settle w)) = props (fiber w)
  /\ hasTriggered (cells (fiber (settle w))) = hasTriggered (cells (fiber w))
  /\ timeoutId (cells (fiber (settle w))) = timeoutId (cells (fiber w)).
Proof.
  destruct (settle_cases w) as [(-> & ?) | [(-> & Hd & ?) | (-> & Hd & Hd')]].
  - repeat split.
  - exact (commitEffect_keeps w (dirty_mounted _ Hd)).
  - destruct (commitEffect_keeps w (dirty_mounted _ Hd))
      as (?&?&?&?&?&?&?&?&?&?).
    destruct (commitEffect_keeps _ (dirty_mounted _ Hd'))
      as (?&?&?&?&?&?&?&?&?&?).
    repeat split; congruence.
Qed.

Lemma dispatch_visibility_keeps (w : World) :
  calls (dispatch VisibilityChangeEvent w) = calls w
  /\ sessionStorage (dispatch VisibilityChangeEvent w) = sessionStorage w
  /\ hasTriggered (cells (fiber (dispatch VisibilityChangeEvent w)))
     = hasTriggered (cells (fiber w))
  /\ originalTitle (cells (fiber (dispatch VisibilityChangeEvent w)))
     = originalTitle (cells (fiber w)).
Proof.
  unfold dispatch.
  apply (fold_invoke_ind (fun w' =>
    calls w' = calls w /\ sessionStorage w' = sessionStorage w
    /\ hasTriggered (cells (fiber w')) = hasTriggered (cells (fiber w))
    /\ originalTitle (cells (fiber w')) = originalTitle (cells (fiber w)))).
  - intros w' l (?&?&?&?).
    destruct (invoke_visibility w' l) as (?&?&?&?).
    repeat split; congruence.
  - repeat split.
Qed.

Lemma dispatch_hasTriggered (e : DomEvent) (w : World) :
  hasTriggered (cells (fiber w)) = true ->
  hasTriggered (cells (fiber (dispatch e w))) = true.
Proof.
  intros H. unfold dispatch.
  apply (fold_invoke_ind
           (fun w' => hasTriggered (cells (fiber w')) = true)); [|exact H].
  intros w' l Hw'. destruct e.
  - destruct (invoke_visibility w' l) as (_&_&->&_). exact Hw'.
  - by apply (invoke_detector (MouseMoveEvent clientX clientY) w' l).
  - by apply (invoke_detector ScrollEvent w' l).
Qed.

(** ** What the instance never does *)

Section NeverDoes.
Local Open Scope Q_scope.

(** X6. [hasTriggered] never goes back to [false]: once set, it stays set
    through every event, re-render and unmount of the instance. *)
Theorem hasTriggered_never_resets (w : World) (events : list Event) :
  hasTriggered (cells (fiber w)) = true ->
  hasTriggered (cells (fiber (run w events))) = true.
Proof.
  revert w. unfold run.
  induction events as [|e events IH]; intros w H; simpl; [exact H|].
  apply IH. destruct e; simpl.
  - destruct (settle_keeps (dispatch VisibilityChangeEvent
      (with_document {| title := title (document w); hidden := nowHidden;
                        scrollHeight := scrollHeight (document w) |} w)))
      as (_&_&_&_&_&_&_&_&->&_).
    by apply dispatch_hasTriggered.
  - destruct (settle_keeps (dispatch (MouseMoveEvent clientX clientY) w))
      as (_&_&_&_&_&_&_&_&->&_).
    by apply dispatch_hasTriggered.
  - destruct (settle_keeps (dispatch ScrollEvent
      (with_window {| innerWidth := innerWidth (window w);
                      innerHeight := innerHeight (window w);
                      scrollY := newScrollY |} w)))
      as (_&_&_&_&_&_&_&_&->&_).
    by apply dispatch_hasTriggered.
  - exact H.
  - exact H.
  - by destruct (advance_frame ms w) as (_&_&_&_&_&_&_&->&_).
  - destruct (mounted (fiber w)) eqn:Hm; [|exact H].
    destruct (settle_keeps (commitEffect
      (with_fiber (with_props (resolveOptions supplied) (fiber w)) w)))
      as (_&_&_&_&_&_&_&_&->&_).
    by destruct (commitEffect_keeps
      (with_fiber (with_props (resolveOptions supplied) (fiber w)) w) Hm)
      as (_&_&_&_&_&_&_&_&->&_).
  - destruct (mounted (fiber w)) eqn:Hm; [|exact H].
    simpl. by destruct (runCleanup_frame w) as (->&_).
Qed.

Lemma hasTriggered_never_resets_witness :
  hasTriggered
    (cells (fiber (run (run (useDontLeave None (homePage emptyStore))
                            [MouseMove 100 10])
                       [VisibilityChange true; Advance 300; Rerender None;
                        VisibilityChange false; Scroll 10]))) = true.
Proof.
  exact (hasTriggered_never_resets
           (run (useDontLeave None (homePage emptyStore)) [MouseMove 100 10])
           [VisibilityChange true; Advance 300; Rerender None;
            VisibilityChange false; Scroll 10] eq_refl).
Defined.

(** Neither a pointer move nor a scroll. *)
Definition notDetectorEvent (e : Event) : Prop :=
  match e with
  | MouseMove _ _ | Scroll _ => False
  | _ => True
  end.

Lemma step_calls_quiet (w : World) (e : Event) :
  notDetectorEvent e -> calls (step w e) = calls w.
Proof.
  intros He. destruct e; simpl in *; try done.
  - destruct (settle_keeps (dispatch VisibilityChangeEvent
      (with_document {| title := title (document w); hidden := nowHidden;
                        scrollHeight := scrollHeight (document w) |} w)))
      as (->&_).
    by destruct (dispatch_visibility_keeps
      (with_document {| title := title (document w); hidden := nowHidden;
                        scrollHeight := scrollHeight (document w) |} w))
      as (->&_).
  - by destruct (advance_frame ms w) as (_&_&_&_&_&->&_).
  - destruct (mounted (fiber w)) eqn:Hm; [|reflexivity].
    destruct (settle_keeps (commitEffect
      (with_fiber (with_props (resolveOptions supplied) (fiber w)) w)))
      as (->&_).
    by destruct (commitEffect_keeps
      (with_fiber (with_props (resolveOptions supplied) (fiber w)) w) Hm)
      as (->&_).
  - destruct (mounted (fiber w)) eqn:Hm; [|reflexivity].
    simpl. by destruct (runCleanup_frame w) as (_&->&_).
Qed.

(** X7. Visibility changes never fire the callback: whatever the options
    and the session store, a run without pointer moves and scrolls (hides,
    shows, resizes, layout changes, time, re-renders, unmount) leaves the
    call count where the first render found it. *)
Theorem visibility_never_triggers
    (supplied : option Options) (w : World) (events : list Event) :
  Forall notDetectorEvent events ->
  calls (run (useDontLeave supplied w) events) = calls w.
Proof.
  intros Hev.
  assert (Hmount : calls (useDontLeave supplied w) = calls w).
  { unfold useDontLeave.
    destruct (settle_keeps (commitEffect
      (with_fiber {| mounted := true; props := resolveOptions supplied;
                     cells := initialCells; committed := initialCells;
                     cleanup := None; nextFn := nextFn (fiber w) |} w)))
      as (->&_).
    by destruct (commitEffect_keeps
      (with_fiber {| mounted := true; props := resolveOptions supplied;
                     cells := initialCells; committed := initialCells;
                     cleanup := None; nextFn := nextFn (fiber w) |} w) eq_refl)
      as (->&_). }
  rewrite <- Hmount.
  apply (run_invariant notDetectorEvent
           (fun w' => calls w' = calls (useDontLeave supplied w)));
    [|exact Hev|reflexivity].
  intros w' e He <-. by apply step_calls_quiet.
Qed.

Lemma visibility_never_triggers_witness :
  calls (run (useDontLeave None (homePage emptyStore))
             [VisibilityChange true; Advance 250; Resize 400 700;
              VisibilityChange false; Rerender None; Layout 5000; Unmount;
              VisibilityChange true]) = 0%nat.
Proof.
  refine (visibility_never_triggers None (homePage emptyStore) _ _).
  repeat constructor.
Defined.

End NeverDoes.

(** ** Which listeners are registered when *)

Section Registered.
Local Open Scope Q_scope.

(** Every commit ends with a visibility listener that closes over the
    bindings of the render it commits. *)
Lemma commitEffect_visibility (w : World) :
  mounted (fiber w) = true ->
  exists l,
    In l (listening visibilitychange (commitEffect w))
    /\ l_env l = {| b_options := props (fiber (commitEffect w));
                    b_cells := committed (fiber (commitEffect w)) |}.
Proof.
  intros Hm.
  destruct (runCleanup_frame w) as (Hf&_).
  destruct (commitEffect_cases w (runCleanup w) eq_refl Hf Hm)
    as (_&_&_&_&_&_&_&Hp&Hcm&_&_&Hg).
  simpl in *. rewrite Hp, Hcm.
  exists (visibilityListener (nextFn (fiber w))
            {| b_options := props (fiber w); b_cells := cells (fiber w) |}).
  split; [|reflexivity].
  unfold listening. apply filter_In. split; [|reflexivity].
  destruct (gateCheck _ _);
    [| destruct (triggerScroll (props (fiber w))) |];
    destruct Hg as (_&_&->&_); apply in_or_app; right; by left.
Qed.

(** A mounted instance between two events: nothing is left to flush, and
    a visibility listener holding the current bindings is registered. *)
Definition watching (w : World) : Prop :=
  mounted (fiber w) = true ->
  cells (fiber w) = committed (fiber w)
  /\ exists l,
       In l (listening visibilitychange w)
       /\ l_env l = {| b_options := props (fiber w);
                       b_cells := cells (fiber w) |}.

Lemma watching_settle (w : World) :
  (mounted (fiber w) = true ->
   exists l,
     In l (listening visibilitychange w)
     /\ l_env l = {| b_options := props (fiber w);
                     b_cells := committed (fiber w) |}) ->
  watching (settle w).
Proof.
  intros H Hm.
  assert (Hstable : cells (fiber (settle w)) = committed (fiber (settle w))).
  { pose proof (settle_stable w) as Hd. unfold dirty in Hd.
    rewrite Hm in Hd. simpl in Hd.
    by apply negb_false_iff, bool_decide_eq_true in Hd. }
  split; [exact Hstable|]. rewrite Hstable.
  destruct (settle_cases w) as [(E & Hd) | [(E & Hd & _) | (E & Hd & Hd')]];
    rewrite E in *.
  - by apply H.
  - by apply commitEffect_visibility, dirty_mounted.
  - by apply commitEffect_visibility, dirty_mounted.
Qed.

Lemma watching_dispatch (e : DomEvent) (w : World) :
  watching w -> watching (settle (dispatch e w)).
Proof.
  intros H. apply watching_settle.
  destruct (dispatch_frame e w) as (Fl&_&_&_&_&_&Fm&Fp&Fcm&_).
  unfold listening. rewrite Fl, Fm, Fp, Fcm. intros Hm.
  destruct (H Hm) as (<- & l & ? & ?). by exists l.
Qed.

Lemma watching_step (w : World) (e : Event) : watching w -> watching (step w e).
Proof.
  intros H. destruct e; simpl.
  - by apply watching_dispatch.
  - by apply watching_dispatch.
  - by apply watching_dispatch.
  - exact H.
  - exact H.
  - destruct (advance_frame ms w) as (Fl&_&_&_&_&_&_&Ff&_).
    unfold watching, listening. by rewrite Fl, Ff.
  - destruct (mounted (fiber w)) eqn:Hm; [|exact H].
    apply watching_settle. intros _. by apply commitEffect_visibility.
  - destruct (mounted (fiber w)) eqn:Hm; [|exact H].
    intros Hm'. discriminate.
Qed.

(** X8. The title flasher outlives the trigger: at every point of a run,
    whatever the options, the store or the events (the callback may have
    fired, the marker may be present), a mounted instance has a visibility
    listener registered that closes over its current options and state. *)
Theorem visibility_listener_while_mounted
    (supplied : option Options) (w0 : World) (events : list Event) :
  let w := run (useDontLeave supplied w0) events in
  mounted (fiber w) = true ->
  exists l,
    In l (listening visibilitychange w)
    /\ l_env l = {| b_options := props (fiber w); b_cells := cells (fiber w) |}.
Proof.
  intros w Hm.
  assert (H : watching w).
  { apply (run_invariant (fun _ => True) watching).
    - intros w' e _. apply watching_step.
    - by apply Forall_forall.
    - apply watching_settle. intros _. by apply commitEffect_visibility. }
  by destruct (H Hm) as (_ & ?).
Qed.

Lemma visibility_listener_while_mounted_witness :
  exists l,
    In l (listening visibilitychange
            (run (useDontLeave None (homePage emptyStore))
                 [MouseMove 100 10; VisibilityChange true]))
    /\ l_env l
       = {| b_options :=
              props (fiber (run (useDontLeave None (homePage emptyStore))
                                [MouseMove 100 10; VisibilityChange true]));
            b_cells :=
              cells (fiber (run (useDontLeave None (homePage emptyStore))
                                [MouseMove 100 10; VisibilityChange true])) |}.
Proof.
  exact (visibility_listener_while_mounted None (homePage emptyStore)
           [MouseMove 100 10; VisibilityChange true] eq_refl).
Defined.

Lemma gated_mount (supplied : option Options) (win : Window) (doc : Document)
    (store : SessionStorage) :
  is_Some (triggerScroll (resolveOptions supplied)) ->
  gated true (useDontLeave supplied (page win doc store)).
Proof.
  intros Hs.
  apply gated_settle, gated_weaken, gated_commit; [|reflexivity].
  unfold gated. simpl. split; [lia|]. split; [exact Hs|].
  split; [discriminate|]. exists []. repeat split; constructor.
Qed.

End Registered.

(** ** When the title flashes *)

(** A single pending timer runs when its time has come, and not before. *)
Lemma advance_one_timer (t : Timer) (n : nat) (w : World) :
  timers w = [t] -> clock w < t_due t ->
  clock (advance n w) = clock w + n
  /\ (clock w + n < t_due t ->
      timers (advance n w) = [t]
      /\ title (document (advance n w)) = title (document w))
  /\ (t_due t <= clock w + n ->
      timers (advance n w) = []
      /\ title (document (advance n w)) = t_title t).
Proof.
  intros Ht Hdue. induction n as [|n IH].
  - simpl. split; [lia|]. split; [done | lia].
  - destruct IH as (Hc & Hbefore & Hafter).
    change (advance (S n) w) with (tick (advance n w)).
    set (wn := advance n w) in *.
    assert (Hclock : clock (tick wn) = clock w + S n).
    { unfold tick.
      match goal with |- context [fold_left ?f ?due ?w0] =>
        destruct (fire_timers_frame due w0) as (_&_&_&_&_&_&_&_&_&_&->&_) end.
      simpl. lia. }
    split; [exact Hclock|].
    destruct (Nat.lt_ge_cases (clock w + n) (t_due t)) as [Hlt|Hge].
    + destruct (Hbefore Hlt) as [Htm Htitle].
      unfold tick. rewrite Htm, Hc. simpl.
      destruct (Nat.leb_spec (t_due t) (S (clock w + n))); simpl.
      * split; [lia|]. intros _. done.
      * split; [|lia]. intros _. by rewrite Htitle.
    + destruct (Hafter Hge) as [Htm Htitle].
      split; [lia|]. intros _.
      unfold tick. rewrite Htm. simpl. by rewrite Htitle.
Qed.

(** Unmounting touches the listeners and the fiber, nothing else. *)
Lemma unmount_keeps (w : World) :
  timers (step w Unmount) = timers w
  /\ clock (step w Unmount) = clock w
  /\ document (step w Unmount) = document w
  /\ calls (step w Unmount) = calls w
  /\ sessionStorage (step w Unmount) = sessionStorage w
  /\ window (step w Unmount) = window w.
Proof.
  simpl. destruct (mounted (fiber w)); [|repeat split]. simpl.
  destruct (runCleanup_frame w) as (_&?&?&?&_&?&?&?).
  repeat split; assumption.
Qed.

Lemma step_unmount_mounted (w : World) :
  mounted (fiber (step w Unmount)) = false.
Proof. simpl. by destruct (mounted (fiber w)) eqn:E. Qed.

Section FlashTiming.
Variables (o : Options) (ts : TriggerScroll) (cfg : TriggerTabChange).
Variables (win : Window) (doc : Document) (store : SessionStorage).
Hypothesis Hts : triggerScroll o = Some ts.
Hypothesis Hcfg : triggerTabChange o = Some cfg.
Hypothesis Hgate : neverSatisfied o store.

(** The delay and the title the hidden branch passes to [setTimeout]. *)
Definition flashDelay (c : TriggerTabChange) : nat :=
  timerDelay (num_or (tc_delay c) 200).

Definition flashTitle (c : TriggerTabChange) : string :=
  string_or (tc_title c) "We miss you!".

(** Hiding the visible tab of such an instance, on an eligible viewport,
    leaves exactly the timer of the hidden branch pending. *)
Lemma tab_hide (w : World) :
  tab o ts cfg win doc store w ->
  hidden (document w) = false ->
  tabEligible o cfg (page win doc store) = true ->
  let w' := step w (VisibilityChange true) in
  exists t,
    timers w' = [t]
    /\ t_due t = clock w + flashDelay cfg
    /\ t_title t = flashTitle cfg
    /\ clock w' = clock w
    /\ documentTitle w' = normalizeTitle (title doc)
    /\ tab o ts cfg win doc store w'.
Proof.
  intros Htab Hvis Hel w'.
  assert (Htab' : tab o ts cfg win doc store w').
  { apply tab_visibility; assumption. }
  destruct (tab_timers o ts cfg win doc store _ Htab) as [_ Hnow].
  destruct (Hnow Hvis) as [Hnil Htitle].
  destruct Htab as [(Hm&Hp&Hw&_&_&_&(fn&_&Hls)&_) _].
  subst w'. simpl.
  set (w1 := with_document {| title := title (document w); hidden := true;
                              scrollHeight := scrollHeight (document w) |} w).
  set (env := {| b_options := o; b_cells := committed (fiber w) |}) in *.
  assert (Hdisp : dispatch VisibilityChangeEvent w1
                  = invoke VisibilityChangeEvent w1 (visibilityListener fn env)).
  { unfold dispatch. simpl.
    by rewrite (listening_visibility_registered ts w1 fn env Hls). }
  assert (Hel1 : tabEligible o cfg w1 = true).
  { rewrite <- Hel. by apply tabEligible_window. }
  destruct (visibility_hide w1 (visibilityListener fn env) cfg Hcfg Hel1 eq_refl)
    as (Tt&_&Td&_).
  destruct (invoke_frame VisibilityChangeEvent w1 (visibilityListener fn env))
    as (_&_&_&_&Fc&_).
  destruct (settle_keeps (dispatch VisibilityChangeEvent w1))
    as (_&_&St&_&Sc&Sd&_).
  exists (flashTimer cfg w1).
  split; [rewrite St, Hdisp, Tt; simpl; by rewrite Hnil|].
  split; [reflexivity|]. split; [reflexivity|].
  split; [by rewrite Sc, Hdisp, Fc|].
  split; [|exact Htab'].
  unfold documentTitle in *. by rewrite Sd, Hdisp, Td.
Qed.


(** X11. On a viewport whose class is not enabled for tab-change the
    instance never schedules a timer and never changes the title, however
    often the tab is hidden and shown. *)
Theorem ineligible_never_flashes (events : list Event) :
  alternates (hidden doc) events ->
  tabEligible o cfg (page win doc store) = false ->
  let w := run (useDontLeave (Some o) (page win doc store)) events in
  timers w = [] /\ title (document w) = title doc.
Proof.
  intros Ha Hel w.
  destruct (tab_trace o ts cfg win doc store Hts Hcfg Hgate events Ha)
    as [(_&_&_&_&_&_&_&_&Ht) _].
  fold w in Ht. unfold timersCond, shown in Ht.
  destruct Ht as [(Hnil&[[Htitle|(He&_)]|(_&He)])|(t&_&_&_&_&_&He)];
    [done | congruence..].
Qed.

(** X12. Unmounting cancels no timer: when such an instance is unmounted
    while its tab is hidden, every listener is removed, and the flash
    scheduled by the hide is still applied when its delay has passed. *)
Theorem unmount_keeps_pending_flash (events : list Event) :
  alternates (hidden doc) events ->
  let w := run (useDontLeave (Some o) (page win doc store)) events in
  hidden (document w) = false ->
  tabEligible o cfg (page win doc store) = true ->
  let w' := step (step w (VisibilityChange true)) Unmount in
  listeners w' = []
  /\ mounted (fiber w') = false
  /\ title (document (advance (flashDelay cfg) w')) = flashTitle cfg.
Proof.
  intros Ha w Hvis Hel w'.
  destruct (tab_hide w (tab_trace o ts cfg win doc store Hts Hcfg Hgate events Ha) Hvis Hel)
    as (t&Ht&Hdue&Htt&Hc&_&Htab).
  destruct (unmount_keeps (step w (VisibilityChange true)))
    as (Ut&Uc&_).
  split; [exact (tab_unmount o ts cfg win doc store Hts _ Htab)|].
  split.
  - apply step_unmount_mounted.
  - assert (Hpos : 1 <= flashDelay cfg) by (unfold flashDelay, timerDelay; lia).
    destruct (advance_one_timer t (flashDelay cfg) w') as (_&_&Hafter).
    + subst w'. by rewrite Ut.
    + subst w'. rewrite Uc, Hc, Hdue. lia.
    + destruct Hafter as [_ ->]; [|exact Htt].
      subst w'. rewrite Uc, Hc, Hdue. lia.
Qed.

End FlashTiming.

Section FlashTimingExamples.
Local Open Scope Q_scope.


(** The home page in a mobile viewport. *)
Definition mobileHomePage : World :=
  page {| innerWidth := 400; innerHeight := 800; scrollY := 0 |}
       {| title := "Home"; hidden := false; scrollHeight := 3000 |}
       emptyStore.

Lemma ineligible_never_flashes_witness :
  timers (run (useDontLeave (Some defaultOptions) mobileHomePage)
              [VisibilityChange true; Advance 500]) = []
  /\ title (document (run (useDontLeave (Some defaultOptions) mobileHomePage)
                          [VisibilityChange true; Advance 500])) = "Home".
Proof.
  refine (ineligible_never_flashes defaultOptions _ _
            {| innerWidth := 400; innerHeight := 800; scrollY := 0 |}
            {| title := "Home"; hidden := false; scrollHeight := 3000 |}
            emptyStore eq_refl eq_refl emptyStore_neverSatisfied
            [VisibilityChange true; Advance 500] _ eq_refl).
  repeat split.
Defined.

Lemma unmount_keeps_pending_flash_witness :
  listeners (step (step (run (useDontLeave (Some defaultOptions)
                                (homePage emptyStore)) briefAbsence)
                        (VisibilityChange true)) Unmount) = []
  /\ mounted (fiber (step (step (run (useDontLeave (Some defaultOptions)
                                        (homePage emptyStore)) briefAbsence)
                                (VisibilityChange true)) Unmount)) = false
  /\ title (document (advance 200
       (step (step (run (useDontLeave (Some defaultOptions)
                           (homePage emptyStore)) briefAbsence)
                   (VisibilityChange true)) Unmount))) = "We miss you!".
Proof.
  refine (unmount_keeps_pending_flash defaultOptions _ _
            {| innerWidth := 1024; innerHeight := 800; scrollY := 0 |}
            {| title := "Home"; hidden := false; scrollHeight := 3000 |}
            emptyStore eq_refl eq_refl emptyStore_neverSatisfied
            briefAbsence _ eq_refl eq_refl).
  repeat split.
Defined.

End FlashTimingExamples.

(** ** Any schedule of events and flushes *)

Section AnySchedule.

(** The parent always passes an options object that has [triggerScroll]. *)
Definition supplies (a : Action) : Prop :=
  match a with
  | Deliver e => suppliesTriggerScroll e
  | Flush => True
  end.

(** What holds of an instance whatever the schedule. Pointer and scroll
    listeners exist only while a cleanup owns them, a cleanup exists only
    for an effect run that saw [hasTriggered = false], and a call of
    [onTrigger] in a mounted instance has set [hasTriggered]. *)
Definition armed (w : World) : Prop :=
  is_Some (triggerScroll (props (fiber w)))
  /\ (1 <= calls w -> mounted (fiber w) = true ->
      hasTriggered (cells (fiber w)) = true)
  /\ exists leaked,
      Forall (fun l => l_type l = visibilitychange) leaked
      /\ Forall (fun l => l_fn l < nextFn (fiber w)) leaked
      /\ match cleanup (fiber w) with
         | Some (fn, o) =>
             mounted (fiber w) = true
             /\ hasTriggered (committed (fiber w)) = false
             /\ fn < nextFn (fiber w)
             /\ Forall (fun l => l_fn l <> fn) leaked
             /\ exists env ts,
                 b_options env = o /\ triggerScroll o = Some ts
                 /\ listeners w = leaked ++ registered fn env ts
         | None => listeners w = leaked
         end.

Lemma armed_cleanup (w : World) :
  armed w ->
  exists leaked,
    Forall (fun l => l_type l = visibilitychange) leaked
    /\ Forall (fun l => l_fn l < nextFn (fiber w)) leaked
    /\ runCleanup w = with_listeners leaked w.
Proof.
  intros (_&_&leaked&Hv&Hn&H). exists leaked.
  split; [exact Hv|]. split; [exact Hn|].
  unfold runCleanup.
  destruct (cleanup (fiber w)) as [[fn o]|].
  - destruct H as (_&_&_&Hne&env&ts&<-&Hts&Hls).
    by rewrite (cleanup_removes fn env ts leaked w Hts Hls Hne).
  - rewrite <- H. by destruct w.
Qed.

Lemma armed_commit (w : World) :
  armed w -> mounted (fiber w) = true -> armed (commitEffect w).
Proof.
  intros Hg Hm.
  destruct (armed_cleanup _ Hg) as (leaked & Hv & Hn & Hclean).
  destruct Hg as ([ts Hts]&Ht&_).
  pose proof (commitEffect_cases w _ Hclean eq_refl Hm)
    as (Hc'&_&_&_&_&_&_&Hp&Hcm&Hfn&Hcells&Hg).
  simpl in *. rewrite Hts in Hg.
  assert (Hn' : Forall (fun l => l_fn l < S (nextFn (fiber w))) leaked).
  { eapply Forall_impl; [exact Hn|]. simpl. lia. }
  unfold armed. rewrite Hc', Hp, Hfn, Hcells. simpl.
  split; [by exists ts|].
  destruct (gateCheck _ _) eqn:Hgate.
  - destruct Hg as (Hm'&Hcl&Hls&_). rewrite Hm', Hcl, Hls.
    split; [intros E _; exact (Ht E Hm)|].
    eexists. split; [|split; [|reflexivity]].
    + apply Forall_app. split; [exact Hv | by constructor].
    + apply Forall_app. split; [exact Hn'|]. constructor; [simpl; lia|done].
  - destruct Hg as (Hm'&Hcl&Hls&_). rewrite Hm', Hcl, Hls.
    apply gateCheck_unsatisfied in Hgate. simpl in Hgate.
    split; [intros E _; exact (Ht E Hm)|].
    exists leaked. split; [exact Hv|]. split; [exact Hn'|].
    rewrite Hcm. repeat split; try done; try lia.
    + eapply Forall_impl; [exact Hn|]. simpl. lia.
    + exists {| b_options := props (fiber w); b_cells := cells (fiber w) |}, ts.
      split; [reflexivity|]. split; [exact Hts|]. reflexivity.
  - destruct Hg as (Hm'&Hcl&Hls&_). rewrite Hm', Hcl, Hls.
    split; [discriminate|].
    eexists. split; [|split; [|reflexivity]].
    + apply Forall_app. split; [exact Hv | by constructor].
    + apply Forall_app. split; [exact Hn'|]. constructor; [simpl; lia|done].
Qed.

Lemma armed_settle (w : World) : armed w -> armed (settle w).
Proof.
  apply (settle_inv armed armed); [done| |done].
  intros w0 H0 Hd. apply armed_commit; [exact H0 | by apply dirty_mounted].
Qed.

(** [armed] reads the listeners, the fiber and the call count only. *)
Lemma armed_transport (w w' : World) :
  listeners w' = listeners w ->
  cleanup (fiber w') = cleanup (fiber w) ->
  mounted (fiber w') = mounted (fiber w) ->
  props (fiber w') = props (fiber w) ->
  committed (fiber w') = committed (fiber w) ->
  nextFn (fiber w') = nextFn (fiber w) ->
  (1 <= calls w' -> mounted (fiber w) = true ->
   hasTriggered (cells (fiber w')) = true) ->
  armed w -> armed w'.
Proof.
  intros Hl Hcl Hm Hp Hcm Hn Hc (?&_&leaked&?&?&H).
  unfold armed. rewrite Hl, Hcl, Hm, Hp, Hcm, Hn.
  split; [assumption|]. split; [exact Hc|].
  exists leaked. split; [assumption|]. split; [assumption|]. exact H.
Qed.

Lemma armed_invoke (e : DomEvent) (w : World) (l : Listener) :
  armed w -> armed (invoke e w l).
Proof.
  intros Hg.
  destruct (invoke_frame e w l) as (Fl&_&_&_&_&Fcl&Fm&Fp&Fcm&Fn).
  apply (armed_transport w); try assumption.
  destruct Hg as (_&Ht&_). intros Hc Hm.
  assert (Hcases : e = VisibilityChangeEvent \/ e <> VisibilityChangeEvent)
    by (destruct e; [by left | by right | by right]).
  destruct Hcases as [->|He].
  - destruct (invoke_visibility w l) as (Vc&_&Vh&_).
    rewrite Vh. apply Ht; [lia | exact Hm].
  - destruct (invoke_detector e w l He) as (Hcalls&Hmono&_).
    destruct Hcalls as [E|[_ Hset]]; [|by apply Hset].
    apply Hmono, Ht; [lia | exact Hm].
Qed.

Lemma armed_dispatch (e : DomEvent) (w : World) :
  armed w -> armed (dispatch e w).
Proof.
  unfold dispatch. apply (fold_invoke_ind armed).
  intros w' l. apply armed_invoke.
Qed.

Lemma armed_deliver (w : World) (e : Event) :
  suppliesTriggerScroll e -> armed w -> armed (deliver w e).
Proof.
  intros He Hg. destruct e; simpl in *.
  - apply armed_dispatch. apply (armed_transport w); try done.
    by destruct Hg as (_&?&_).
  - by apply armed_dispatch.
  - apply armed_dispatch. apply (armed_transport w); try done.
    by destruct Hg as (_&?&_).
  - apply (armed_transport w); try done. by destruct Hg as (_&?&_).
  - apply (armed_transport w); try done. by destruct Hg as (_&?&_).
  - destruct (advance_frame ms w) as (Fl&_&_&_&_&Fc&_&Ff&_).
    apply (armed_transport w); try congruence.
    destruct Hg as (_&Ht&_). rewrite Fc, Ff. exact Ht.
  - destruct (mounted (fiber w)) eqn:Hm; [|exact Hg].
    apply armed_settle, armed_commit; [|exact Hm].
    destruct Hg as (?&Ht&leaked&?&?&H).
    split; [exact He|]. split; [exact Ht|].
    exists leaked. split; [assumption|]. split; [assumption|]. exact H.
  - destruct (mounted (fiber w)) eqn:Hm; [|exact Hg].
    destruct (armed_cleanup _ Hg) as (leaked & Hv & Hn & ->).
    destruct Hg as (?&_).
    split; [assumption|]. split; [discriminate|].
    exists leaked. split; [assumption|]. split; [assumption|]. reflexivity.
Qed.

Lemma armed_act (w : World) (a : Action) :
  supplies a -> armed w -> armed (act w a).
Proof.
  destruct a as [e|]; simpl; [apply armed_deliver | intros _; apply armed_settle].
Qed.

Lemma armed_play (actions : list Action) (w : World) :
  Forall supplies actions -> armed w -> armed (play w actions).
Proof.
  revert w. unfold play.
  induction actions as [|a actions IH]; intros w Hok Hw; simpl; [exact Hw|].
  inversion Hok; subst. apply IH; [assumption|]. by apply armed_act.
Qed.

(** Mounting on a page where nothing has been called yet and only
    visibility listeners of earlier function objects are left. *)
Lemma armed_mount (supplied : option Options) (w : World) :
  is_Some (triggerScroll (resolveOptions supplied)) ->
  calls w = 0 ->
  Forall (fun l => l_type l = visibilitychange) (listeners w) ->
  Forall (fun l => l_fn l < nextFn (fiber w)) (listeners w) ->
  armed (useDontLeave supplied w).
Proof.
  intros Hs Hc Hv Hn.
  apply armed_settle, armed_commit; [|reflexivity].
  unfold armed. simpl. split; [exact Hs|]. split; [lia|].
  exists (listeners w). by repeat split.
Qed.

(** X9. The pointer and scroll listeners do not outlive their use:
    whatever the schedule of events and flushes, at every point where
    React has nothing left to flush, once the callback has been called,
    and once the instance is no longer mounted, no pointer and no scroll
    listener is registered. *)
Theorem detectors_detached_after_fire_or_unmount
    (supplied : option Options) (win : Window) (doc : Document)
    (store : SessionStorage) (actions : list Action) :
  is_Some (triggerScroll (resolveOptions supplied)) ->
  Forall supplies actions ->
  let w := play (useDontLeave supplied (page win doc store)) actions in
  dirty w = false ->
  1 <= calls w \/ mounted (fiber w) = false ->
  listening mousemove w = [] /\ listening scroll w = [].
Proof.
  intros Hs Hev w Hflushed Hcase.
  assert (Hg : armed w).
  { apply armed_play; [exact Hev|].
    apply armed_mount; [exact Hs | reflexivity | constructor | constructor]. }
  destruct Hg as (_&Ht&leaked&Hv&_&H).
  destruct (cleanup (fiber w)) as [[fn o]|].
  - destruct H as (Hm&Hcm&_). exfalso.
    destruct Hcase as [Hc|Hu]; [|congruence].
    specialize (Ht Hc Hm).
    unfold dirty in Hflushed. rewrite Hm in Hflushed. simpl in Hflushed.
    apply negb_false_iff, bool_decide_eq_true in Hflushed.
    rewrite Hflushed in Ht. congruence.
  - unfold listening. rewrite H. split; by apply filter_leaked.
Qed.

End AnySchedule.

Section AnyScheduleExamples.
Local Open Scope Q_scope.

Lemma detectors_detached_after_fire_or_unmount_witness :
  listening mousemove
    (play (useDontLeave None (homePage emptyStore))
          [Deliver (Scroll 100); Deliver (MouseMove 100 10);
           Deliver (MouseMove 100 10); Flush]) = []
  /\ listening scroll
       (play (useDontLeave None (homePage emptyStore))
             [Deliver (Scroll 100); Deliver (MouseMove 100 10);
              Deliver (MouseMove 100 10); Flush]) = [].
Proof.
  refine (detectors_detached_after_fire_or_unmount None
            {| innerWidth := 1024; innerHeight := 800; scrollY := 0 |}
            {| title := "Home"; hidden := false; scrollHeight := 3000 |}
            emptyStore
            [Deliver (Scroll 100); Deliver (MouseMove 100 10);
             Deliver (MouseMove 100 10); Flush]
            (mk_is_Some _ _ eq_refl) _ _ _).
  - repeat constructor.
  - vm_compute. reflexivity.
  - left. vm_compute. lia.
Defined.

End AnyScheduleExamples.

(** ** Once per browser session *)

Section OncePerSession.

(** While persistence stays on and the store works, a call of [onTrigger]
    leaves the marker behind: every listener was built from options with
    persistence on, and the store holds the marker once a call happened. *)
Definition persists (w : World) : Prop :=
  storeInUserSession (props (fiber w)) = true
  /\ Forall (fun l => storeInUserSession (b_options (l_env l)) = true)
            (listeners w)
  /\ exists items,
      sessionStorage w = Storage items false false
      /\ (1 <= calls w -> item_truthy (items !! SESSION_STORAGE_CTA_KEY) = true).

Lemma Forall_filter_keep {A} (P : A -> Prop) (f : A -> bool) (l : list A) :
  Forall P l -> Forall P (List.filter f l).
Proof.
  induction 1 as [|a l Ha _ IH]; simpl; [constructor|].
  destruct (f a); [by constructor | exact IH].
Qed.

(** A cleanup only removes listeners. *)
Lemma runCleanup_keeps (P : Listener -> Prop) (w : World) :
  Forall P (listeners w) -> Forall P (listeners (runCleanup w)).
Proof.
  intros H. unfold runCleanup.
  destruct (cleanup (fiber w)) as [[fn o]|]; [|exact H].
  unfold effectCleanup. js.
  destruct (triggerMouseMove o); simpl;
    (destruct (triggerScroll o) as [ts|]; simpl;
     [destruct (ts_mobile ts || ts_desktop ts); simpl|]);
    repeat apply Forall_filter_keep; exact H.
Qed.

(** A commit adds listeners of the new render's bindings only. *)
Lemma commitEffect_listeners (P : Listener -> Prop) (w : World) :
  mounted (fiber w) = true ->
  (forall ty fn,
     P {| l_type := ty; l_fn := fn;
          l_env := {| b_options := props (fiber w);
                      b_cells := cells (fiber w) |} |}) ->
  Forall P (listeners w) -> Forall P (listeners (commitEffect w)).
Proof.
  intros Hm Hnew H.
  destruct (runCleanup_frame w) as (Hf&_).
  pose proof (commitEffect_cases w _ eq_refl Hf Hm)
    as (_&_&_&_&_&_&_&_&_&_&_&Hg).
  apply (runCleanup_keeps P) in H. simpl in Hg.
  destruct (gateCheck _ _).
  - destruct Hg as (_&_&->&_). apply Forall_app. split; [exact H|].
    constructor; [apply Hnew | constructor].
  - destruct (triggerScroll (props (fiber w))) as [ts|].
    + destruct Hg as (_&_&->&_). apply Forall_app. split; [exact H|].
      unfold registered, pointerListener, scrollListener, visibilityListener.
      destruct (triggerMouseMove _), (ts_mobile ts || ts_desktop ts); simpl;
        repeat constructor; apply Hnew.
    + destruct Hg as (_&_&->&_). apply Forall_app. split; [exact H|].
      unfold pointerListener, visibilityListener.
      destruct (triggerMouseMove _); simpl; repeat constructor; apply Hnew.
  - destruct Hg as (_&_&->&_). apply Forall_app. split; [exact H|].
    constructor; [apply Hnew | constructor].
Qed.

Lemma persists_commit (w : World) :
  persists w -> mounted (fiber w) = true -> persists (commitEffect w).
Proof.
  intros (Hp & Hls & items & Hst & Hmark) Hm.
  destruct (commitEffect_keeps w Hm) as (Hc&Hs&_&_&_&_&_&Hp'&_).
  unfold persists. rewrite Hc, Hs, Hp'.
  split; [exact Hp|]. split; [|by exists items].
  apply commitEffect_listeners; [exact Hm | intros; exact Hp | exact Hls].
Qed.

Lemma persists_settle (w : World) : persists w -> persists (settle w).
Proof.
  apply (settle_inv persists persists); [done| |done].
  intros w0 H0 Hd. apply persists_commit; [exact H0 | by apply dirty_mounted].
Qed.

Lemma persists_invoke (e : DomEvent) (w : World) (l : Listener) :
  storeInUserSession (b_options (l_env l)) = true ->
  persists w -> persists (invoke e w l).
Proof.
  intros Hl (Hp & Hls & items & Hst & Hmark).
  destruct (invoke_frame e w l) as (Fl&_&_&_&_&_&_&Fp&_).
  unfold persists. rewrite Fl, Fp.
  split; [exact Hp|]. split; [exact Hls|].
  assert (Hcases : e = VisibilityChangeEvent \/ e <> VisibilityChangeEvent)
    by (destruct e; [by left | by right | by right]).
  destruct Hcases as [->|He].
  - destruct (invoke_visibility w l) as (Vc&Vs&_).
    rewrite Vc, Vs. by exists items.
  - destruct (invoke_detector_store e w l items false He Hl Hst)
      as [[Hc Hs]|[Hc Hs]]; rewrite Hc, Hs.
    + by exists items.
    + eexists. split; [reflexivity|]. intros _. by rewrite lookup_insert_eq.
Qed.

Lemma persists_fold (e : DomEvent) (ls : list Listener) :
  Forall (fun l => storeInUserSession (b_options (l_env l)) = true) ls ->
  forall w, persists w -> persists (fold_left (invoke e) ls w).
Proof.
  induction 1 as [|l ls' Hl _ IH]; intros w H; simpl; [exact H|].
  by apply IH, persists_invoke.
Qed.

Lemma persists_dispatch (e : DomEvent) (w : World) :
  persists w -> persists (dispatch e w).
Proof.
  intros H. unfold dispatch. apply persists_fold; [|exact H].
  apply Forall_filter_keep. by destruct H as (_&?&_).
Qed.

Lemma persists_transport (w w' : World) :
  props (fiber w') = props (fiber w) ->
  listeners w' = listeners w ->
  sessionStorage w' = sessionStorage w ->
  calls w' = calls w ->
  persists w -> persists w'.
Proof. unfold persists. by intros -> -> -> ->. Qed.

Lemma persists_deliver (w : World) (e : Event) :
  keepsPersistence e -> persists w -> persists (deliver w e).
Proof.
  intros He H. destruct e; simpl in *.
  - apply persists_dispatch. by apply (persists_transport w).
  - by apply persists_dispatch.
  - apply persists_dispatch. by apply (persists_transport w).
  - by apply (persists_transport w).
  - by apply (persists_transport w).
  - destruct (advance_frame ms w) as (Fl&_&_&_&Fs&Fc&_&Ff&_).
    apply (persists_transport w); congruence.
  - destruct (mounted (fiber w)) eqn:Hm; [|exact H].
    apply persists_settle, persists_commit; [|exact Hm].
    destruct H as (_&?&?). by split.
  - destruct (mounted (fiber w)) eqn:Hm; [|exact H].
    destruct H as (Hp & Hls & items & Hst & Hmark).
    destruct (runCleanup_frame w) as (Hf&Hc&Hs&_).
    unfold persists. simpl. rewrite Hf, Hc, Hs.
    split; [exact Hp|]. split; [by apply runCleanup_keeps | by exists items].
Qed.

(** The parent keeps persistence enabled when it re-renders. *)
Definition keeps (a : Action) : Prop :=
  match a with
  | Deliver e => keepsPersistence e
  | Flush => True
  end.

Lemma play_invariant (ok : Action -> Prop) (I : World -> Prop) :
  (forall w a, ok a -> I w -> I (act w a)) ->
  forall actions w, Forall ok actions -> I w -> I (play w actions).
Proof.
  intros Hact. unfold play.
  induction actions as [|a actions IH]; intros w Hok Hw; simpl; [exact Hw|].
  inversion Hok; subst. apply IH; [assumption|]. by apply Hact.
Qed.

Lemma persists_play (actions : list Action) (w : World) :
  Forall keeps actions -> persists w -> persists (play w actions).
Proof.
  apply (play_invariant keeps persists).
  intros w0 [e|]; simpl; [apply persists_deliver | intros _; apply persists_settle].
Qed.

(** With the marker in the store, an instance registers visibility
    listeners only, and the call count stays where it is. *)
Definition dormant (n : nat) (w : World) : Prop :=
  calls w = n
  /\ cleanup (fiber w) = None
  /\ onlyVisibility w
  /\ markerPresent (sessionStorage w)
  /\ storeInUserSession (props (fiber w)) = true.

Lemma dormant_commit (n : nat) (w : World) :
  dormant n w -> mounted (fiber w) = true -> dormant n (commitEffect w).
Proof.
  intros (Hc & Hcl & Hv & Hm & Hs) Hmounted.
  pose proof (commitEffect_cases w w (runCleanup_none w Hcl) eq_refl Hmounted)
    as (Hc' & Hs' & _ & _ & _ & _ & _ & Hp & _ & _ & _ & Hg).
  rewrite gateCheck_marker in Hg by (simpl; assumption).
  destruct Hg as (_ & Hcl' & Hls & _).
  unfold dormant, onlyVisibility.
  rewrite Hc', Hs', Hp, Hls.
  repeat split; try assumption.
  apply Forall_app. split; [exact Hv | by constructor].
Qed.

Lemma dormant_settle (n : nat) (w : World) :
  dormant n w -> dormant n (settle w).
Proof.
  apply (settle_inv (dormant n) (dormant n)); [done| |done].
  intros w0 H0 Hd. apply dormant_commit; [exact H0 | by apply dirty_mounted].
Qed.

Lemma dormant_dispatch (n : nat) (e : DomEvent) (w : World) :
  dormant n w -> dormant n (dispatch e w).
Proof.
  intros H.
  assert (Hd : event_type e <> visibilitychange -> dormant n (dispatch e w)).
  { intros He. unfold dispatch. rewrite listening_none; [exact H|].
    destruct H as (_ & _ & Hv & _).
    eapply Forall_impl; [exact Hv|]. simpl. by intros l ->. }
  destruct e; [|by apply Hd..].
  unfold dispatch.
  apply (fold_invoke_ind (dormant n)); [|exact H].
  intros w' l (Hc & Hcl & Hv & Hm & Hs).
  destruct (invoke_frame VisibilityChangeEvent w' l)
    as (Fl & _ & _ & _ & _ & Fc & _ & Fp & _).
  destruct (invoke_visibility w' l) as (Vc & Vs & _).
  unfold dormant, onlyVisibility in *.
  rewrite Fl, Fc, Fp, Vc, Vs. tauto.
Qed.

Lemma dormant_deliver (n : nat) (w : World) (e : Event) :
  keepsPersistence e -> dormant n w -> dormant n (deliver w e).
Proof.
  intros He H. destruct e; simpl in *.
  - apply dormant_dispatch. exact H.
  - apply dormant_dispatch. exact H.
  - apply dormant_dispatch. exact H.
  - exact H.
  - exact H.
  - destruct (advance_frame ms w) as (Fl & _ & _ & _ & Fs & Fc & _ & Ff & _).
    unfold dormant, onlyVisibility, listening in *.
    rewrite Fl, Fs, Fc, Ff. exact H.
  - destruct (mounted (fiber w)) eqn:Hm; [|exact H].
    apply dormant_settle, dormant_commit; [|exact Hm].
    destruct H as (?&?&?&?&?). repeat split; assumption.
  - destruct (mounted (fiber w)) eqn:Hm; [|exact H].
    destruct H as (?&Hcl&?&?&?).
    rewrite (runCleanup_none w Hcl).
    repeat split; assumption.
Qed.

Lemma dormant_play (n : nat) (actions : list Action) (w : World) :
  Forall keeps actions -> dormant n w -> dormant n (play w actions).
Proof.
  apply (play_invariant keeps (dormant n)).
  intros w0 [e|]; simpl; [apply dormant_deliver | intros _; apply dormant_settle].
Qed.

(** One visit of the page: the component is mounted with the options the
    parent supplies, lives through some schedule of events and flushes,
    and is unmounted. *)
Definition visit (w : World) (v : option Options * list Action) : World :=
  play (useDontLeave (fst v) w) (snd v ++ [Deliver Unmount]).

(** The parent keeps persistence on and always supplies [triggerScroll]. *)
Definition persistent (v : option Options * list Action) : Prop :=
  storeInUserSession (resolveOptions (fst v)) = true
  /\ is_Some (triggerScroll (resolveOptions (fst v)))
  /\ Forall keeps (snd v)
  /\ Forall supplies (snd v).

(** What holds between two visits. *)
Definition betweenVisits (w : World) : Prop :=
  persists w
  /\ cleanup (fiber w) = None
  /\ onlyVisibility w
  /\ (calls w = 0 ->
      Forall (fun l => l_fn l < nextFn (fiber w)) (listeners w)).

Lemma betweenVisits_visit (w : World) (v : option Options * list Action) :
  persistent v -> betweenVisits w ->
  betweenVisits (visit w v) /\ (1 <= calls w -> calls (visit w v) = calls w).
Proof.
  destruct v as [supplied actions].
  intros (Hs & Hts & Hkp & Hst) (Hp & Hcl & Hv & Hfn).
  unfold visit, useDontLeave. simpl fst in *. simpl snd in *.
  set (w1 := with_fiber _ w).
  assert (Hkp' : Forall keeps (actions ++ [Deliver Unmount])).
  { apply Forall_app. split; [exact Hkp | by repeat constructor]. }
  assert (Hst' : Forall supplies (actions ++ [Deliver Unmount])).
  { apply Forall_app. split; [exact Hst | by repeat constructor]. }
  assert (Hp1 : persists w1).
  { destruct Hp as (_&?&?). subst w1. by split. }
  assert (Hpf : persists (play (settle (commitEffect w1))
                               (actions ++ [Deliver Unmount]))).
  { apply persists_play; [exact Hkp'|].
    by apply persists_settle, persists_commit. }
  destruct (decide (calls w = 0)) as [Hz|Hnz].
  - split; [|lia]. split; [exact Hpf|].
    assert (Hg : armed (play (settle (commitEffect w1))
                             (actions ++ [Deliver Unmount]))).
    { apply armed_play; [exact Hst'|].
      apply (armed_mount supplied w Hts Hz Hv (Hfn Hz)). }
    destruct Hg as (_ & _ & leaked & Hlv & Hlf & Hm).
    assert (Hoff : mounted (fiber (play (settle (commitEffect w1))
                                       (actions ++ [Deliver Unmount]))) = false).
    { unfold play. rewrite fold_left_app. apply step_unmount_mounted. }
    destruct (cleanup (fiber (play (settle (commitEffect w1))
                                   (actions ++ [Deliver Unmount])))) as [[fn o]|].
    + destruct Hm as (Hm&_). congruence.
    + split; [reflexivity|].
      unfold onlyVisibility. rewrite Hm. by split.
  - assert (Hd : dormant (calls w)
                   (play (settle (commitEffect w1))
                         (actions ++ [Deliver Unmount]))).
    { apply dormant_play; [exact Hkp'|].
      apply dormant_settle, dormant_commit; [|reflexivity].
      destruct Hp as (_ & _ & items & Hitems & Hmark).
      subst w1. unfold dormant, onlyVisibility. simpl.
      split; [reflexivity|]. split; [reflexivity|]. split; [exact Hv|].
      split; [|exact Hs].
      exists items, false. split; [exact Hitems | apply Hmark; lia]. }
    destruct Hd as (Hc & Hcl' & Hv' & _).
    split; [|by intros _].
    split; [exact Hpf|]. split; [exact Hcl'|]. split; [exact Hv'|].
    rewrite Hc. intros; lia.
Qed.

Lemma betweenVisits_fold (visits : list (option Options * list Action))
    (w : World) :
  Forall persistent visits -> betweenVisits w ->
  betweenVisits (fold_left visit visits w)
  /\ (1 <= calls w -> calls (fold_left visit visits w) = calls w).
Proof.
  revert w. induction visits as [|v vs IH]; intros w Hok Hw; simpl; [by split|].
  inversion Hok as [|? ? Hv Hvs]; subst.
  destruct (betweenVisits_visit w v Hv Hw) as [Hb Hc].
  destruct (IH (visit w v) Hvs Hb) as [Hb' Hc'].
  split; [exact Hb'|]. intros Hone. rewrite <- (Hc Hone). apply Hc'.
  rewrite (Hc Hone). exact Hone.
Qed.

(** X13. With persistence on and a session store that works, the callback
    fires in one visit only: once [onTrigger] has been called (the run
    passes a callback that returns), no later mount of the component
    calls it again, whatever the schedule of events and flushes of the
    visits. *)
Theorem once_per_session
    (win : Window) (doc : Document) (items : gmap string string)
    (earlier later : list (option Options * list Action)) :
  Forall persistent earlier ->
  Forall persistent later ->
  let w := fold_left visit earlier (page win doc (Storage items false false)) in
  1 <= calls w ->
  calls (fold_left visit later w) = calls w.
Proof.
  intros He Hl w Hc.
  assert (H0 : betweenVisits (page win doc (Storage items false false))).
  { unfold betweenVisits, persists, onlyVisibility. simpl.
    repeat split; try constructor.
    exists items. split; [reflexivity | lia]. }
  destruct (betweenVisits_fold earlier _ He H0) as [Hb _].
  destruct (betweenVisits_fold later _ Hl Hb) as [_ H]. exact (H Hc).
Qed.

End OncePerSession.

Section OncePerSessionExamples.
Local Open Scope Q_scope.

(** A visit in which two pointer moves reach the page before the flush. *)
Definition firstVisit : list (option Options * list Action) :=
  [(None, [Deliver (MouseMove 100 10); Deliver (MouseMove 100 10); Flush;
           Deliver (Scroll 2900)])].

(** Two more visits, each with a pointer move in the corner. *)
Definition laterVisits : list (option Options * list Action) :=
  [(Some defaultOptions,
    [Deliver (MouseMove 100 10); Flush; Deliver (Rerender None);
     Deliver (MouseMove 1000 5)]);
   (None, [Deliver (Scroll 2900); Deliver (MouseMove 100 10); Flush])].

Lemma once_per_session_witness :
  calls (fold_left visit laterVisits
           (fold_left visit firstVisit (homePage emptyStore)))
  = calls (fold_left visit firstVisit (homePage emptyStore)).
Proof.
  refine (once_per_session
            {| innerWidth := 1024; innerHeight := 800; scrollY := 0 |}
            {| title := "Home"; hidden := false; scrollHeight := 3000 |}
            ∅ firstVisit laterVisits _ _ _).
  - repeat constructor; by eexists.
  - repeat constructor; by eexists.
  - vm_compute. lia.
Defined.

(** Without persistence each mounted instance fires on its own. *)
Example without_persistence_once_per_mount :
  calls (fold_left visit
           [(Some noPersistence, [Deliver (MouseMove 100 10); Flush]);
            (Some noPersistence, [Deliver (MouseMove 100 10); Flush])]
           (homePage emptyStore)) = 2%nat.
Proof. vm_compute. reflexivity. Qed.

End OncePerSessionExamples.

(** ** An activation that raised *)

Section StrayListener.
Local Open Scope Q_scope.

Lemma calls_report {A} (r : Completion A * World) :
  calls (report r) = calls (snd r).
Proof. by destruct r as [[a|e] w]. Qed.

(** Nothing is flushed for a component that is not mounted. *)
Lemma settle_unmounted (w : World) :
  mounted (fiber w) = false -> settle w = w.
Proof. intros H. unfold settle, flush, dirty. by rewrite H. Qed.

(** The pointer is in one of the two zones of lines 93-94. *)
Definition inZone (width : Q) (p : Q * Q) : Prop :=
  snd p <= 50 /\ (fst p <= 250 \/ width - 250 <= fst p).

Definition pointerMove (p : Q * Q) : Event := MouseMove (fst p) (snd p).

(** The component is down, and the pointer listener of its only effect
    run is still registered. *)
Definition stray (o : Options) (win : Window) (n : nat) (w : World) : Prop :=
  mounted (fiber w) = false
  /\ calls w = n
  /\ window w = win
  /\ listening mousemove w
     = [{| l_type := mousemove; l_fn := 0;
           l_env := {| b_options := o; b_cells := initialCells |} |}].

Lemma stray_move (o : Options) (win : Window) (n : nat) (w : World)
    (p : Q * Q) :
  triggerMouseMove o = true ->
  num_gt (Fin (innerWidth win)) (num_or (mobileWidthThreshold o) 768) = true ->
  inZone (innerWidth win) p ->
  stray o win n w -> stray o win (S n) (step w (pointerMove p)).
Proof.
  intros Hmm Hd [Hy Hx] (Hm & Hc & Hw & Hl).
  destruct p as [x y]. simpl in Hy, Hx. unfold pointerMove. simpl fst. simpl snd.
  set (l := {| l_type := mousemove; l_fn := 0%nat;
               l_env := {| b_options := o; b_cells := initialCells |} |}) in *.
  assert (Hstep : step w (MouseMove x y) = invoke (MouseMoveEvent x y) w l).
  { simpl. unfold dispatch. simpl. rewrite Hl. simpl.
    apply settle_unmounted.
    by destruct (invoke_frame (MouseMoveEvent x y) w l) as (_&_&_&_&_&_&->&_). }
  rewrite Hstep.
  destruct (invoke_frame (MouseMoveEvent x y) w l) as (Fl&Fw&_&_&_&_&Fm&_).
  unfold stray, listening. rewrite Fl, Fw, Fm.
  split; [exact Hm|]. split; [|split; [exact Hw | exact Hl]].
  assert (Hcalls : calls (invoke (MouseMoveEvent x y) w l)
                   = calls (exec (handleMouseMove (l_env l) x y) w))
    by (unfold invoke; rewrite calls_report; reflexivity).
  rewrite Hcalls, handleMouseMove_calls. simpl. unfold isDesktop. rewrite Hmm, Hw, Hd.
  apply Qle_bool_iff in Hy. rewrite Hy. simpl.
  assert (Hz : Qle_bool x 250 || Qle_bool (innerWidth win - 250) x = true).
  { apply orb_true_iff. destruct Hx as [Hx|Hx]; apply Qle_bool_iff in Hx; auto. }
  rewrite Hz. by rewrite Hc.
Qed.

Lemma stray_run (o : Options) (win : Window) (moves : list (Q * Q)) :
  triggerMouseMove o = true ->
  num_gt (Fin (innerWidth win)) (num_or (mobileWidthThreshold o) 768) = true ->
  Forall (inZone (innerWidth win)) moves ->
  forall n w, stray o win n w ->
  stray o win (n + length moves) (run w (List.map pointerMove moves)).
Proof.
  intros Hmm Hd. induction 1 as [|p ps Hp _ IH]; intros n w Hw; simpl.
  - by rewrite Nat.add_0_r.
  - replace (n + S (length ps))%nat with (S n + length ps)%nat by lia.
    by apply IH, stray_move.
Qed.

(** X14. Options without [triggerScroll], the pointer trigger on and the
    gate not satisfied: the effect registers the visibility and the
    pointer listener and then raises at line 136, before it can return
    its cleanup. The component is down, yet the pointer listener stays,
    and it calls [onTrigger] on every move into a hot zone: once per
    move, without bound. *)
Theorem raised_activation_fires_on_every_move
    (o : Options) (win : Window) (doc : Document) (store : SessionStorage)
    (moves : list (Q * Q)) :
  triggerScroll o = None ->
  triggerMouseMove o = true ->
  neverSatisfied o store ->
  isDesktop o (page win doc store) = true ->
  Forall (inZone (innerWidth win)) moves ->
  let w0 := useDontLeave (Some o) (page win doc store) in
  mounted (fiber w0) = false
  /\ uncaught w0 = [TypeError]
  /\ List.map l_type (listeners w0) = [visibilitychange; mousemove]
  /\ calls (run w0 (List.map pointerMove moves)) = length moves.
Proof.
  intros Hts Hmm Hgate Hd Hmoves w0.
  set (w1 := with_fiber {| mounted := true; props := o; cells := initialCells;
                           committed := initialCells; cleanup := None;
                           nextFn := 0 |} (page win doc store)).
  pose proof (commitEffect_cases w1 w1 (runCleanup_none w1 eq_refl)
                eq_refl eq_refl)
    as (Hc&_&_&_&_&_&Hw&_&_&_&_&Hg).
  assert (G : gateCheck {| b_options := props (fiber w1);
                           b_cells := cells (fiber w1) |} w1 = Unsatisfied)
    by exact (gateCheck_neverSatisfied o initialCells w1 Hgate eq_refl).
  cbv zeta in Hg. rewrite G in Hg.
  simpl in Hg. rewrite Hts in Hg. destruct Hg as (Hm&_&Hls&Hun).
  unfold pointerListener in Hls. simpl in Hls. rewrite Hmm in Hls.
  assert (E : w0 = commitEffect w1) by (apply settle_unmounted; exact Hm).
  rewrite E.
  split; [exact Hm|]. split; [exact Hun|]. split; [by rewrite Hls|].
  assert (Hs : stray o win 0 (commitEffect w1)).
  { unfold stray, listening. rewrite Hls. by repeat split. }
  by destruct (stray_run o win moves Hmm Hd Hmoves 0%nat _ Hs) as (_&?&_).
Qed.

(** Ten moves into the top left corner. *)
Definition tenMoves : list (Q * Q) := List.repeat (100, 10) 10.

Lemma raised_activation_fires_on_every_move_witness :
  mounted (fiber (useDontLeave (Some noScroll) (homePage emptyStore))) = false
  /\ uncaught (useDontLeave (Some noScroll) (homePage emptyStore)) = [TypeError]
  /\ List.map l_type
       (listeners (useDontLeave (Some noScroll) (homePage emptyStore)))
     = [visibilitychange; mousemove]
  /\ calls (run (useDontLeave (Some noScroll) (homePage emptyStore))
                (List.map pointerMove tenMoves)) = 10%nat.
Proof.
  refine (raised_activation_fires_on_every_move noScroll
            {| innerWidth := 1024; innerHeight := 800; scrollY := 0 |}
            {| title := "Home"; hidden := false; scrollHeight := 3000 |}
            emptyStore tenMoves eq_refl eq_refl _ eq_refl _).
  - right. right. by exists ∅, false.
  - repeat constructor; simpl; discriminate.
Defined.

End StrayListener.

(** ** Scrolling further *)

Section ScrollFurther.
Local Open Scope Q_scope.

(** The window after the user scrolled to [y]. *)
Definition scrolledTo (y : Q) (w : World) : World :=
  with_window {| innerWidth := innerWidth (window w);
                 innerHeight := innerHeight (window w);
                 scrollY := y |} w.

Lemma scrolledTo_calls (env : Bindings) (w : World) (ts : TriggerScroll) (y : Q) :
  triggerScroll (b_options env) = Some ts ->
  innerHeight (window w) < scrollHeight (document w) ->
  let docHeight := scrollHeight (document w) - innerHeight (window w) in
  calls (exec (handleScroll env) (scrolledTo y w)) =
    if (if isMobile (b_options env) w then ts_mobile ts else ts_desktop ts)
       && num_ge (times100 (double (y / docHeight)))
                 (num_or (ts_percentThreshold ts) 30)
    then S (calls w) else calls w.
Proof.
  intros Hts Hd docHeight.
  rewrite (handleScroll_calls env _ ts Hts), flag_eligible.
  rewrite scrollPercent_scrollable by (simpl; lra).
  reflexivity.
Qed.

(** X15. On a page that can scroll, the scroll trigger is monotone in the
    scroll position: when the handler fires at one position, it fires at
    every position further down. *)
Theorem scrolling_further_keeps_firing
    (env : Bindings) (w : World) (ts : TriggerScroll) (y y' : Q) :
  triggerScroll (b_options env) = Some ts ->
  innerHeight (window w) < scrollHeight (document w) ->
  y <= y' ->
  calls (exec (handleScroll env) (scrolledTo y w)) = S (calls w) ->
  calls (exec (handleScroll env) (scrolledTo y' w)) = S (calls w).
Proof.
  intros Hts Hd Hy.
  rewrite !(scrolledTo_calls env w ts _ Hts Hd).
  destruct (if isMobile (b_options env) w then ts_mobile ts else ts_desktop ts);
    simpl; [|lia].
  set (d := scrollHeight (document w) - innerHeight (window w)).
  assert (Hle : y / d <= y' / d).
  { apply Qmult_le_compat_r; [exact Hy|].
    apply Qlt_le_weak, Qinv_lt_0_compat. unfold d. lra. }
  pose proof (times100_mono _ _ (double_mono _ _ Hle)) as Hmono.
  unfold num_ge.
  destruct (num_le (num_or (ts_percentThreshold ts) 30)
                   (times100 (double (y / d)))) eqn:E; [|lia]. intros _.
  by rewrite (num_le_trans _ _ _ E Hmono).
Qed.

Lemma scrolling_further_keeps_firing_witness :
  calls (exec (handleScroll defaultBindings)
              (scrolledTo 900 thirtyFivePercentScrolled)) = 1%nat.
Proof.
  apply (scrolling_further_keeps_firing defaultBindings
           thirtyFivePercentScrolled
           {| ts_mobile := true; ts_desktop := false;
              ts_percentThreshold := Some (Fin 30) |} 350 900);
    [reflexivity | reflexivity | discriminate | vm_compute; reflexivity].
Defined.

End ScrollFurther.

(** ** The detectors of the latest render *)

Section LatestRender.

(** The pending cleanup belongs to the options of the latest render. *)
Definition current (w : World) : Prop :=
  match cleanup (fiber w) with
  | Some (_, o) => o = props (fiber w)
  | None => True
  end.

Lemma current_commit (w : World) :
  mounted (fiber w) = true -> current (commitEffect w).
Proof.
  intros Hm.
  destruct (runCleanup_frame w) as (Hf&_).
  destruct (commitEffect_cases w (runCleanup w) eq_refl Hf Hm)
    as (_&_&_&_&_&_&_&Hp&_&_&_&Hg).
  unfold current. simpl in *. rewrite Hp.
  destruct (gateCheck _ _);
    [| destruct (triggerScroll (props (fiber w))) |];
    destruct Hg as (_&->&_); done.
Qed.

Lemma current_settle (w : World) : current w -> current (settle w).
Proof.
  apply (settle_inv current current); [done| |done].
  intros w0 _ Hd. by apply current_commit, dirty_mounted.
Qed.

Lemma current_dispatch (e : DomEvent) (w : World) :
  current w -> current (dispatch e w).
Proof.
  destruct (dispatch_frame e w) as (_&_&_&_&_&Hc&_&Hp&_).
  unfold current. by rewrite Hc, Hp.
Qed.

Lemma current_step (w : World) (e : Event) :
  current w -> current (step w e).
Proof.
  intros H. destruct e; simpl.
  - by apply current_settle, current_dispatch.
  - by apply current_settle, current_dispatch.
  - by apply current_settle, current_dispatch.
  - exact H.
  - exact H.
  - destruct (advance_frame ms w) as (_&_&_&_&_&_&_&Ff&_).
    unfold current. by rewrite Ff.
  - destruct (mounted (fiber w)) eqn:Hm; [|exact H].
    by apply current_settle, current_commit.
  - destruct (mounted (fiber w)) eqn:Hm; [|exact H]. done.
Qed.

Lemma current_run (events : list Event) (w : World) :
  current w -> current (run w events).
Proof.
  intros H.
  apply (run_invariant (fun _ => True) current); [| |exact H].
  - intros w0 e _. apply current_step.
  - by apply Forall_forall.
Qed.

(** X16. At any time at most one pointer listener and at most one scroll
    listener is registered, and each was built from the options of the
    latest render: a re-render with new options replaces the detectors,
    it never adds to them. *)
Theorem detectors_single_and_current
    (supplied : option Options) (win : Window) (doc : Document)
    (store : SessionStorage) (events : list Event) :
  is_Some (triggerScroll (resolveOptions supplied)) ->
  Forall suppliesTriggerScroll events ->
  let w := run (useDontLeave supplied (page win doc store)) events in
  length (listening mousemove w) <= 1
  /\ length (listening scroll w) <= 1
  /\ Forall (fun l => b_options (l_env l) = props (fiber w))
            (listening mousemove w ++ listening scroll w).
Proof.
  intros Hs Hev w.
  assert (Hg : gated true w)
    by (apply gated_run; [exact Hev | by apply gated_mount]).
  assert (Hc : current w)
    by (apply current_run, current_settle, current_commit; reflexivity).
  destruct Hg as (_&_&_&leaked&Hv&_&H). unfold current in Hc.
  destruct (cleanup (fiber w)) as [[fn o]|].
  - destruct H as (_&_&_&_&_&env&ts&Ho&_&Hls).
    destruct (listening_registered w leaked fn env ts Hls Hv) as [-> ->].
    unfold pointerListener, scrollListener.
    destruct (triggerMouseMove _), (ts_mobile ts || ts_desktop ts); simpl;
      repeat split; try lia; repeat constructor; simpl; congruence.
  - unfold listening. rewrite H.
    rewrite (filter_leaked mousemove), (filter_leaked scroll) by done.
    simpl. repeat split; try lia. constructor.
Qed.

End LatestRender.

Section LatestRenderExamples.
Local Open Scope Q_scope.

(** The parent lowers the desktop threshold, then re-renders twice more
    with other options. *)
Definition reconfigured : list Event :=
  [Rerender (Some smallDesktopOptions); VisibilityChange true;
   Rerender None; Rerender (Some noTabChange)].

Lemma detectors_single_and_current_witness :
  (length (listening mousemove
            (run (useDontLeave None (homePage emptyStore)) reconfigured))
   <= 1)%nat
  /\ (length (listening scroll
               (run (useDontLeave None (homePage emptyStore)) reconfigured))
      <= 1)%nat
  /\ Forall (fun l => b_options (l_env l)
                      = props (fiber (run (useDontLeave None
                                             (homePage emptyStore))
                                          reconfigured)))
            (listening mousemove
               (run (useDontLeave None (homePage emptyStore)) reconfigured)
             ++ listening scroll
                  (run (useDontLeave None (homePage emptyStore)) reconfigured)).
Proof.
  refine (detectors_single_and_current None
            {| innerWidth := 1024; innerHeight := 800; scrollY := 0 |}
            {| title := "Home"; hidden := false; scrollHeight := 3000 |}
            emptyStore reconfigured (mk_is_Some _ _ eq_refl) _).
  repeat constructor; by eexists.
Defined.

End LatestRenderExamples.
